(** * Student monitoring system: the cleaning pipeline and its queries

    A shallow embedding of the data-cleaning code of [CWPreprocessing.py] /
    [DAFunction.py] (the two files hold the same methods), of the threshold
    filter and consolidated query of [underperformingStudent.py], and of the
    grade/average query of [studentPerformance.py]; then of the other
    methods of these modules and of [hardworkingStudents.py] that work on
    frames, stored tables and numbers.  Reading files, writing tables and
    plotting are not modelled.

    Conventions of the embedding:
    - a Python [str] is a [string]; the case rules of [str.title] are those
      of the ASCII letters, so that the model is that of the code on ASCII
      text, and the properties of the names are stated for such text;
    - a number is a canonical rational [Qc]; a pandas cell is null (NaN or
      None), a number or a string;
    - what the code leaves to pandas and numpy is a parameter of the methods
      it bears on: the parser of [pd.to_numeric], the order in which
      [sort_values] leaves the rows that tie, the rounding of a float to one
      decimal, and whether a null is NaN or [None] where the two behave
      differently;
    - a [DataFrame] is its list of column labels and its list of rows;
    - Python exceptions are the [Error] results of a small error monad, and
      the in-place methods run in a state monad over a store of frames;
    - a stored table is its list of column names and its rows of SQL values,
      NULL or a number; the queries are evaluated on lists of rows. *)

From Stdlib Require Import Ascii String DecimalString Sorted QArith Qcanon.
From Stdlib Require Import Qround Lqa.
From stdpp Require Import base tactics list numbers strings sorting.

Local Open Scope string_scope.

(** ** Python string methods *)

Module PyStr.

Definition is_upper (c : ascii) : bool :=
  let n := nat_of_ascii c in (65 <=? n)%nat && (n <=? 90)%nat.

Definition is_lower (c : ascii) : bool :=
  let n := nat_of_ascii c in (97 <=? n)%nat && (n <=? 122)%nat.

(** The test of [title]: the character is cased, that is, for the text the
    model covers, an ASCII letter. *)
Definition is_cased (c : ascii) : bool := is_upper c || is_lower c.

Definition upper (c : ascii) : ascii :=
  if is_lower c then ascii_of_nat (nat_of_ascii c - 32) else c.

Definition lower (c : ascii) : ascii :=
  if is_upper c then ascii_of_nat (nat_of_ascii c + 32) else c.

(** [s.split(sep)[0]]: the part of [s] before the first [sep], all of [s]
    when there is none. *)
Fixpoint split_first (sep : ascii) (s : string) : string :=
  match s with
  | EmptyString => EmptyString
  | String c s' =>
      if Ascii.eqb c sep then EmptyString else String c (split_first sep s')
  end.

(** [s.title()]: a cased character is upper-cased when the character before
    it is not cased, lower-cased otherwise. *)
Fixpoint title_from (previous_is_cased : bool) (s : string) : string :=
  match s with
  | EmptyString => EmptyString
  | String c s' =>
      String (if previous_is_cased then lower c else upper c)
             (title_from (is_cased c) s')
  end.

Definition title (s : string) : string := title_from false s.

(** [s.replace(c, '')] for a one-character [c]. *)
Fixpoint remove_char (c : ascii) (s : string) : string :=
  match s with
  | EmptyString => EmptyString
  | String d s' =>
      if Ascii.eqb d c then remove_char c s' else String d (remove_char c s')
  end.

(** [c in s] for a character. *)
Fixpoint has_char (c : ascii) (s : string) : bool :=
  match s with
  | EmptyString => false
  | String d s' => Ascii.eqb d c || has_char c s'
  end.

(** [s.startswith(p)]. *)
Definition startswith (p s : string) : bool := String.prefix p s.

(** [sub in s]. *)
Fixpoint contains (sub s : string) : bool :=
  String.prefix sub s ||
  match s with
  | EmptyString => false
  | String _ s' => contains sub s'
  end.

End PyStr.

(** ** NameNormalizer: [clean_column_name] *)

Definition clean_column_name (column : string) : string :=
  if String.eqb column "ResearchId" then column
  else
    let column := PyStr.split_first "/" column in
    PyStr.remove_char " " (PyStr.title column).


(** ** Cells, frames and exceptions *)

(** A pandas cell: null ([NaN] / [None]), a number, or a string. *)
Inductive cell : Type :=
| CNull
| CNum (q : Qc)
| CStr (s : string).

Global Instance cell_eq_dec : EqDecision cell.
Proof. solve_decision. Defined.

(** A frame: the column labels and the rows, each row holding one cell per
    label.  The by-label accessors of pandas that expect one column per label
    raise when a label is repeated; the checks are modelled where the code can
    reach them. *)
Record DataFrame : Type := mkDataFrame {
  columns : list string;
  rows : list (list cell)
}.

Inductive exn : Type :=
| KeyError | TypeError | ValueError | NameError
| OperationalError | DatabaseError.

Inductive result (A : Type) : Type :=
| Ok (a : A)
| Error (e : exn).

Arguments Ok {A} a.
Arguments Error {A} e.

Global Instance DataFrame_eq_dec : EqDecision DataFrame.
Proof. solve_decision. Defined.

Global Instance exn_eq_dec : EqDecision exn.
Proof. solve_decision. Defined.

Global Instance result_eq_dec {A} `{EqDecision A} : EqDecision (result A).
Proof. solve_decision. Defined.

(** Python comparisons on numbers. *)
Definition Qc_ltb (x y : Qc) : bool :=
  match (x ?= y)%Qc with Lt => true | _ => false end.

Definition Qc_leb (x y : Qc) : bool :=
  match (x ?= y)%Qc with Gt => false | _ => true end.

Definition isna (x : cell) : bool :=
  match x with CNull => true | _ => false end.

Definition is_num (x : cell) : bool :=
  match x with CNum _ => true | _ => false end.

Definition is_str (x : cell) : bool :=
  match x with CStr _ => true | _ => false end.

(** [label in df.columns]. *)
Definition has_label (label : string) (cols : list string) : bool :=
  existsb (String.eqb label) cols.

(** The cells of a row that stand under the columns selected by [sel]. *)
Fixpoint cells_where (sel : string -> bool) (cols : list string) (r : list cell)
  : list cell :=
  match cols, r with
  | c :: cs, x :: xs =>
      if sel c then x :: cells_where sel cs xs else cells_where sel cs xs
  | _, _ => []
  end.

(** The cells of a row that stand under the columns called [label]. *)
Definition cells_labelled (label : string) : list string -> list cell -> list cell :=
  cells_where (String.eqb label).

(** [df[label]] read at one row, for a label that names one column. *)
Definition get_cell (label : string) (cols : list string) (r : list cell) : cell :=
  match cells_labelled label cols r with
  | x :: _ => x
  | [] => CNull
  end.

(** [df[label]] as a Series. *)
Definition series (label : string) (df : DataFrame) : list cell :=
  map (get_cell label (columns df)) (rows df).

(** [f] applied to the cells of a row under the columns selected by [sel]. *)
Fixpoint map_where (sel : string -> bool) (f : cell -> cell)
  (cols : list string) (r : list cell) : list cell :=
  match cols, r with
  | c :: cs, x :: xs => (if sel c then f x else x) :: map_where sel f cs xs
  | _, _ => r
  end.

(** The effect of [df[label] = f(df[label])] on one row, [f] element-wise. *)
Definition map_labelled (label : string) (f : cell -> cell)
  : list string -> list cell -> list cell :=
  map_where (String.eqb label) f.

Definition map_column (label : string) (f : cell -> cell) (df : DataFrame)
  : DataFrame :=
  {| columns := columns df;
     rows := map (map_labelled label f (columns df)) (rows df) |}.

(** [df.drop(label, axis=1)]: every column called [label] goes. *)
Fixpoint drop_labelled (label : string) (cols : list string) (r : list cell)
  : list cell :=
  match cols, r with
  | c :: cs, x :: xs =>
      if String.eqb c label then drop_labelled label cs xs
      else x :: drop_labelled label cs xs
  | _, _ => r
  end.

Definition drop_column (label : string) (df : DataFrame) : DataFrame :=
  {| columns := List.filter (fun c => negb (String.eqb c label)) (columns df);
     rows := map (drop_labelled label (columns df)) (rows df) |}.

(** ** Element-wise pandas operations *)

(** [Series.replace('-', np.nan)]. *)
Definition replace_dash (x : cell) : cell :=
  match x with
  | CStr s => if String.eqb s "-" then CNull else x
  | _ => x
  end.

(** [Series.fillna(0.0)]. *)
Definition fillna_zero (x : cell) : cell :=
  match x with
  | CNull => CNum 0
  | _ => x
  end.

(** Division and multiplication by a scalar; a null operand gives null, and so
    does a zero divisor (numpy gives NaN or an infinity, not a rational). *)
Definition div_cell (x m : cell) : cell :=
  match x, m with
  | CNum a, CNum b => if bool_decide (b = 0%Qc) then CNull else CNum (a / b)
  | _, _ => CNull
  end.

Definition mul_cell (x : cell) (k : Qc) : cell :=
  match x with
  | CNum a => CNum (a * k)
  | _ => CNull
  end.

(** [Series.max()]: nulls are skipped; null for a Series without a number. *)
Fixpoint series_max (l : list cell) : cell :=
  match l with
  | [] => CNull
  | CNum a :: l' =>
      match series_max l' with
      | CNum b => CNum (if Qc_ltb a b then b else a)
      | _ => CNum a
      end
  | _ :: l' => series_max l'
  end.

(** ** Sorting and duplicates *)

(** The order [sort_values] puts on the cells of one column: null below every
    value (so that it comes last in descending order), numbers by value,
    strings by code point.  A number is never compared with a string: the sort
    raises [TypeError] on such a column first. *)
Definition cell_ltb (a b : cell) : bool :=
  match a, b with
  | CNull, CNull => false
  | CNull, _ => true
  | CNum _, CNull => false
  | CNum x, CNum y => Qc_ltb x y
  | CNum _, CStr _ => true
  | CStr s, CStr t => String.ltb s t
  | CStr _, _ => false
  end.

(** [sort_values] is called without a [kind], and pandas' default kind of
    sort, quicksort, is not stable: the order in which it leaves the rows
    that tie is not fixed by the code.  The model takes that order as a
    parameter.  [kind r l] is the number of the rows of [l] tying with [r]
    that the sort puts before [r], for a row [r] that stood before the rows
    of [l], which are sorted; a kind that always answers 0 is a stable
    sort. *)
Definition tie_order (A : Type) : Type := A -> list A -> nat.

Definition stable {A} : tie_order A := fun _ _ => 0%nat.

Section Sorting.
Context {A : Type} (key : A -> cell).
Variable kind : tie_order A.

(** [r] put into the descending list [l]: behind the rows that are strictly
    greater, and behind at most [n] of the rows that tie with it. *)
Fixpoint insert_behind (n : nat) (r : A) (l : list A) : list A :=
  match l with
  | [] => [r]
  | x :: xs =>
      if cell_ltb (key r) (key x) then x :: insert_behind n r xs
      else if cell_ltb (key x) (key r) then r :: l
      else match n with
           | O => r :: l
           | S n' => x :: insert_behind n' r xs
           end
  end.

(** Insertion for the descending sort.  The rows without a value are not
    handed to the sort: pandas puts them last in the order they had. *)
Definition insert_desc (r : A) (l : list A) : list A :=
  insert_behind (if isna (key r) then 0%nat else kind r l) r l.

Definition sort_desc (l : list A) : list A := foldr insert_desc [] l.
End Sorting.

Section KeepFirst.
Context {A K : Type} `{EqDecision K} (key : A -> K).

(** [drop_duplicates(keep='first')] on the rows, [seen] holding the keys met
    so far. *)
Fixpoint keep_first (seen : list K) (l : list A) : list A :=
  match l with
  | [] => []
  | r :: l' =>
      if bool_decide (key r ∈ seen) then keep_first seen l'
      else r :: keep_first (key r :: seen) l'
  end.
End KeepFirst.

(** A column that holds both numbers and strings cannot be ordered. *)
Definition mixed (l : list cell) : bool := existsb is_num l && existsb is_str l.

(** [df.sort_values(by=label, ascending=False)] as a function of the frame:
    [KeyError] without the column, [ValueError] when the label names several
    columns, [TypeError] when the column cannot be ordered.  The nulls come
    last; [kind] orders the rows that tie. *)
Definition sort_values_desc (kind : tie_order (list cell)) (label : string)
  (df : DataFrame) : result DataFrame :=
  match count_occ string_dec (columns df) label with
  | 0 => Error KeyError
  | 1 =>
      if mixed (series label df) then Error TypeError
      else Ok {| columns := columns df;
                 rows := sort_desc (get_cell label (columns df)) kind (rows df) |}
  | _ => Error ValueError
  end.

(** [df.drop_duplicates(subset=[label], keep='first')] as a function of the
    frame. *)
Definition drop_duplicates_first (label : string) (df : DataFrame)
  : result DataFrame :=
  if has_label label (columns df) then
    Ok {| columns := columns df;
          rows := keep_first (cells_labelled label (columns df)) [] (rows df) |}
  else Error KeyError.

(** ** The store of frames and the monad of the in-place methods *)

(** A name of the Python program refers to a frame of the store; [copy] and
    boolean indexing make new frames, the [inplace=True] methods and
    [df[col] = ...] overwrite the frame a name refers to. *)
Definition M (A : Type) : Type :=
  list DataFrame -> result A * list DataFrame.

Definition ret {A} (a : A) : M A := fun h => (Ok a, h).

Definition raise {A} (e : exn) : M A := fun h => (Error e, h).

Definition bind {A B} (m : M A) (k : A -> M B) : M B :=
  fun h =>
    match m h with
    | (Ok a, h') => k a h'
    | (Error e, h') => (Error e, h')
    end.

Notation "x <~ m ;> k" := (bind m (fun x => k))
  (at level 20, m at level 99, k at level 200, only parsing).
Notation "m ;> k" := (bind m (fun _ => k))
  (at level 100, k at level 200, right associativity, only parsing).

(** The frame a name refers to; a name outside the store is unbound. *)
Definition load (l : nat) : M DataFrame :=
  fun h =>
    match h !! l with
    | Some df => (Ok df, h)
    | None => (Error NameError, h)
    end.

Definition alloc (df : DataFrame) : M nat :=
  fun h => (Ok (List.length h), (h ++ [df])%list).

Definition overwrite (l : nat) (df : DataFrame) : M unit :=
  fun h => (Ok tt, <[l := df]> h).

(** An in-place method: the frame is replaced by the outcome, and is left as
    it was when pandas raises. *)
Definition inplace (l : nat) (f : DataFrame -> result DataFrame) : M unit :=
  df <~ load l ;>
  match f df with
  | Ok df' => overwrite l df'
  | Error e => raise e
  end.

(** [df.copy()]. *)
Definition copy (l : nat) : M nat :=
  df <~ load l ;> alloc df.

Fixpoint for_each {A} (xs : list A) (body : A -> M unit) : M unit :=
  match xs with
  | [] => ret tt
  | x :: xs' => body x ;> for_each xs' body
  end.

(** What a caller that passes the frame [df] gets back: the frame the
    returned name refers to, or the exception. *)
Definition call (method : nat -> M nat) (df : DataFrame) : result DataFrame :=
  match method 0 [df] with
  | (Ok l, h) =>
      match h !! l with
      | Some out => Ok out
      | None => Error NameError
      end
  | (Error e, _) => Error e
  end.

(** ** The cleaning methods of [CWPreprocessing] / [DAFunction] *)

Definition clean_column_names (df : nat) : M nat :=
  inplace df (fun d =>
    Ok {| columns := map clean_column_name (columns d); rows := rows d |}) ;>
  ret df.

Definition drop_duplicate_research_ids (kind : tie_order (list cell))
  (df : nat) : M nat :=
  inplace df (sort_values_desc kind "Grade") ;>
  inplace df (drop_duplicates_first "ResearchId") ;>
  ret df.

Definition drop_unnecessary_columns (df : nat) (columns_to_drop : list string)
  : M nat :=
  for_each columns_to_drop (fun col =>
    d <~ load df ;>
    if has_label col (columns d)
    then inplace df (fun d => Ok (drop_column col d))
    else ret tt) ;>
  ret df.

Section ToNumeric.
(** [pd.to_numeric] on one string, as pandas parses it: the number, or
    nothing when the string is not a number. *)
Variable parse_number : string -> option Qc.

(** The order of the rows that tie in [sort_values]. *)
Variable kind : tie_order (list cell).

(** [pd.to_numeric(..., errors='coerce')] on one cell. *)
Definition to_numeric (x : cell) : cell :=
  match x with
  | CStr s =>
      match parse_number s with
      | Some q => CNum q
      | None => CNull
      end
  | _ => x
  end.

(** [df[col] = pd.to_numeric(df[col], errors='coerce')] followed by [post]
    on the Series ([fillna] or nothing): [KeyError] without the column, and
    [TypeError] when [df[col]] is a frame of several columns. *)
Definition to_numeric_column (col : string) (post : cell -> cell)
  (d : DataFrame) : result DataFrame :=
  match count_occ string_dec (columns d) col with
  | 0 => Error KeyError
  | 1 => Ok (map_column col (fun x => post (to_numeric x)) d)
  | _ => Error TypeError
  end.

Definition is_grade_q (col : string) : bool :=
  PyStr.contains "Grade" col || PyStr.startswith "Q" col.

(** The coercion loop of [process_dataframe]. *)
Definition coerce_grade_q (df : nat) (grade_q_columns : list string) : M unit :=
  for_each grade_q_columns (fun col =>
    inplace df (fun d => Ok (map_column col replace_dash d)) ;>
    inplace df (to_numeric_column col fillna_zero)).

Definition process_dataframe (df : nat) : M nat :=
  df <~ copy df ;>
  df <~ clean_column_names df ;>
  d <~ load df ;>
  let grade_q_columns := List.filter is_grade_q (columns d) in
  coerce_grade_q df grade_q_columns ;>
  df <~ drop_duplicate_research_ids kind df ;>
  df <~ drop_unnecessary_columns df ["State"; "TimeTaken"] ;>
  ret df.

(** The statements of [process_dataframe] that come before the call of
    [drop_duplicate_research_ids]. *)
Definition process_until_dedupe (df : nat) : M nat :=
  df <~ copy df ;>
  df <~ clean_column_names df ;>
  d <~ load df ;>
  let grade_q_columns := List.filter is_grade_q (columns d) in
  coerce_grade_q df grade_q_columns ;>
  ret df.

(** The order of operations the specification asks for, for comparison:
    coerce to null, deduplicate, and only then fill the nulls with 0.0. *)
Definition process_coerce_dedupe_fill (df : nat) : M nat :=
  df <~ copy df ;>
  df <~ clean_column_names df ;>
  d <~ load df ;>
  let grade_q_columns := List.filter is_grade_q (columns d) in
  for_each grade_q_columns (fun col =>
    inplace df (fun d => Ok (map_column col replace_dash d)) ;>
    inplace df (to_numeric_column col (fun x => x))) ;>
  df <~ drop_duplicate_research_ids kind df ;>
  for_each grade_q_columns (fun col =>
    inplace df (fun d => Ok (map_column col fillna_zero d))) ;>
  df <~ drop_unnecessary_columns df ["State"; "TimeTaken"] ;>
  ret df.

Definition standardise_grade (df : nat) : M nat :=
  df_copy <~ copy df ;>
  inplace df_copy (to_numeric_column "Grade" (fun x => x)) ;>
  d <~ load df_copy ;>
  df_copy <~ alloc
    {| columns := columns d;
       rows := List.filter
                 (fun r => negb (isna (get_cell "Grade" (columns d) r)))
                 (rows d) |} ;>
  d <~ load df_copy ;>
  let max_grade := series_max (series "Grade" d) in
  inplace df_copy (fun d =>
    Ok (map_column "Grade" (fun x => mul_cell (div_cell x max_grade) (Qc_of_Z 100)) d)) ;>
  ret df_copy.

End ToNumeric.

(** ** ThresholdFilter: [underperformingStudent.drop_rows_above_threshold] *)




(** [df[mask]]. *)
Fixpoint select_mask {A} (mask : list bool) (l : list A) : list A :=
  match mask, l with
  | b :: mask', x :: l' =>
      if b then x :: select_mask mask' l' else select_mask mask' l'
  | _, _ => []
  end.



(** ** The stored tables and the SQL queries *)

(** A stored table: column names and rows of SQL values, a value being NULL
    or a number (the columns read here are declared INTEGER and REAL). *)
Record SqlTable : Type := mkSqlTable {
  table_columns : list string;
  table_rows : list (list (option Qc))
}.

Fixpoint lowercase (s : string) : string :=
  match s with
  | EmptyString => EmptyString
  | String c s' => String (PyStr.lower c) (lowercase s')
  end.

(** SQLite compares identifiers without regard to case. *)
Definition sql_name_eqb (a b : string) : bool :=
  String.eqb (lowercase a) (lowercase b).

Fixpoint find_table (name : string) (db : list (string * SqlTable))
  : option SqlTable :=
  match db with
  | [] => None
  | (n, t) :: db' => if sql_name_eqb n name then Some t else find_table name db'
  end.

Fixpoint column_index (col : string) (cols : list string) : option nat :=
  match cols with
  | [] => None
  | c :: cs =>
      if sql_name_eqb c col then Some 0%nat
      else option_map S (column_index col cs)
  end.

Definition sql_cell (i : nat) (r : list (option Qc)) : option Qc :=
  match r !! i with
  | Some v => v
  | None => None
  end.

(** [SELECT a, b FROM name]: the pairs of the two columns, row by row. *)
Definition select_pairs (a b name : string) (db : list (string * SqlTable))
  : option (list (option Qc * option Qc)) :=
  match find_table name db with
  | None => None
  | Some t =>
      match column_index a (table_columns t), column_index b (table_columns t) with
      | Some i, Some j =>
          Some (map (fun r => (sql_cell i r, sql_cell j r)) (table_rows t))
      | _, _ => None
      end
  end.

(** [x = y] in [ON] and [WHERE]: never true of a NULL. *)
Definition sql_eq (x y : option Qc) : bool :=
  match x, y with
  | Some a, Some b => bool_decide (a = b)
  | _, _ => false
  end.

(** [UNION] and [DISTINCT] keep one row per value, NULL counting as a value. *)
Definition sql_distinct (l : list (option Qc)) : list (option Qc) :=
  keep_first id [] l.

(** [acc LEFT JOIN t ON acc.ResearchId = t.ResearchId], the selected [Grade]
    of [t] being added at the end of each row of [acc]. *)
Definition left_join (acc : list (option Qc * list (option Qc)))
  (t : list (option Qc * option Qc)) : list (option Qc * list (option Qc)) :=
  flat_map (fun '(rid, gs) =>
    match List.filter (fun '(tid, _) => sql_eq rid tid) t with
    | [] => [(rid, (gs ++ [None])%list)]
    | matches => map (fun '(_, g) => (rid, (gs ++ [g])%list)) matches
    end) acc.

(** A frame after [set_index]: the index values beside the row cells. *)
Record IndexedFrame : Type := mkIndexedFrame {
  index_name : string;
  value_columns : list string;
  entries : list (option Qc * list (option Qc))
}.

Definition test_tables : list string :=
  ["Test1"; "Test2"; "Test3"; "Test4"; "Mocktest"; "Sumtest"].

Fixpoint select_all (names : list string) (db : list (string * SqlTable))
  : option (list (list (option Qc * option Qc))) :=
  match names with
  | [] => Some []
  | n :: names' =>
      match select_pairs "ResearchId" "Grade" n db, select_all names' db with
      | Some t, Some ts => Some (t :: ts)
      | _, _ => None
      end
  end.

(** [underperformingStudent.create_dataframe]; [db] is what the connection
    gives access to.  SQL leaves the order of the rows open; the model lists
    them in the order of the union. *)
Definition create_dataframe (db : list (string * SqlTable)) : result IndexedFrame :=
  match select_all test_tables db with
  | None => Error DatabaseError
  | Some ts =>
      let research_ids := sql_distinct (concat (map (map fst) ts)) in
      let joined := foldl left_join (map (fun rid => (rid, [])) research_ids) ts in
      Ok {| index_name := "ResearchId";
            value_columns := map (String.append "Grade_") test_tables;
            entries := joined |}
  end.

Global Instance IndexedFrame_eq_dec : EqDecision IndexedFrame.
Proof. solve_decision. Defined.

(** The sum of a list of numbers. *)
Definition Qc_sum (l : list Qc) : Qc := foldr Qcplus 0%Qc l.

(** [AVG(CAST(col AS REAL))]: the mean of the values that are not NULL, NULL
    when there is none.  SQLite computes it in floating point; its result
    can differ from the mean in the last place. *)
Definition sql_avg (l : list (option Qc)) : option Qc :=
  match omap id l with
  | [] => None
  | xs => Some (Qc_sum xs / Qc_of_Z (Z.of_nat (List.length xs)))%Qc
  end.

(** [studentPerformance.get_column_grade_and_average]. *)
Definition get_column_grade_and_average (research_id : option Qc)
  (table_name q_column : string) (connection : list (string * SqlTable))
  : result (option Qc * option Qc) :=
  match select_pairs "ResearchId" q_column table_name connection with
  | None => Error OperationalError
  | Some t =>
      let found := List.filter (fun '(rid, _) => sql_eq rid research_id) t in
      match found with
      | entry :: _ =>
          (* a fetched row is a non-empty tuple, true whatever it holds *)
          let average := sql_avg (map snd t) in
          (* float(entry[0]) *)
          match snd entry with
          | Some v => Ok (Some v, average)
          | None => Error TypeError
          end
      | [] => Ok (None, None)
      end
  end.

(** ** Functional forms

    What the in-place methods do to the one frame they work on, as functions
    of that frame; the run lemmas below relate them to the methods. *)

Definition rbind {A B} (r : result A) (k : A -> result B) : result B :=
  match r with
  | Ok a => k a
  | Error e => Error e
  end.

Definition normalised (d : DataFrame) : DataFrame :=
  {| columns := map clean_column_name (columns d); rows := rows d |}.

Definition dedupe_frame (kind : tie_order (list cell)) (d : DataFrame)
  : result DataFrame :=
  rbind (sort_values_desc kind "Grade" d) (drop_duplicates_first "ResearchId").

Definition drop_columns_frame (cols : list string) (d : DataFrame) : DataFrame :=
  foldl (fun d c => if has_label c (columns d) then drop_column c d else d) d cols.

Global Arguments drop_columns_frame : simpl never.

(** Every row of a frame has one cell per column. *)
Definition rectangular (d : DataFrame) : Prop :=
  Forall (fun r => List.length r = List.length (columns d)) (rows d).

Section FunctionalForm.
Variable parse_number : string -> option Qc.
Variable kind : tie_order (list cell).

(** What the coercion loop does to one cell of a Grade or Q column. *)
Definition coerce_cell (x : cell) : cell :=
  fillna_zero (to_numeric parse_number (replace_dash x)).

Definition coerce_column_frame (post : cell -> cell) (col : string)
  (d : DataFrame) : result DataFrame :=
  to_numeric_column parse_number col post (map_column col replace_dash d).

Fixpoint coerce_frame (post : cell -> cell) (cols : list string)
  (d : DataFrame) : result DataFrame :=
  match cols with
  | [] => Ok d
  | c :: cs => rbind (coerce_column_frame post c d) (coerce_frame post cs)
  end.

Definition coerced_frame (d : DataFrame) : result DataFrame :=
  let d := normalised d in
  coerce_frame fillna_zero (List.filter is_grade_q (columns d)) d.

Definition process_frame (d : DataFrame) : result DataFrame :=
  rbind (coerced_frame d) (fun d =>
  rbind (dedupe_frame kind d) (fun d =>
  Ok (drop_columns_frame ["State"; "TimeTaken"] d))).

(** The functional form of [standardise_grade]. *)
Definition standardise_frame (d : DataFrame) : result DataFrame :=
  rbind (to_numeric_column parse_number "Grade" (fun x => x) d) (fun d1 =>
    let d2 := {| columns := columns d1;
                 rows := List.filter
                           (fun r => negb (isna (get_cell "Grade" (columns d1) r)))
                           (rows d1) |} in
    let max_grade := series_max (series "Grade" d2) in
    Ok (map_column "Grade"
          (fun x => mul_cell (div_cell x max_grade) (Qc_of_Z 100)) d2)).
End FunctionalForm.

(** The outcome of a method that works in place on the frame at [l]: the
    frame holds the result when pandas does not raise, and only that frame
    has changed in any case. *)
Definition runs_in_place {A} (m : M A) (a : A) (l : nat) (h : list DataFrame)
  (p : result DataFrame) : Prop :=
  match p with
  | Ok out => m h = (Ok a, <[l := out]> h)
  | Error e => exists g, m h = (Error e, <[l := g]> h)
  end.

(** ** Notions used to state the property of the names *)

(** The text holds ASCII characters only. *)
Definition is_ascii (s : string) : Prop :=
  Forall (fun c => (nat_of_ascii c < 128)%nat) (list_ascii_of_string s).

(** [c'] is the character [c] as a title has it, by the codes of the ASCII
    letters: lower case after a letter, upper case elsewhere. *)
Definition title_cased (after_letter : bool) (c c' : ascii) : Prop :=
  let n := nat_of_ascii c in
  nat_of_ascii c' =
    if after_letter
    then (if (65 <=? n) && (n <=? 90) then n + 32 else n)%nat
    else (if (97 <=? n) && (n <=? 122) then n - 32 else n)%nat.

(** ** Notions used to state the properties of the deduplication *)

(** [a] does not sort strictly below [b]. *)
Definition cell_ge (a b : cell) : Prop := cell_ltb a b = false.

Section BestRow.
Context {A K : Type} `{EqDecision K}.
Variable key : A -> K.
Variable grade : A -> cell.

(** The first row of [l] with key [k]. *)
Fixpoint first_of (k : K) (l : list A) : option A :=
  match l with
  | [] => None
  | x :: xs => if decide (key x = k) then Some x else first_of k xs
  end.

(** Descending order: no row sorts strictly below a later one. *)
Definition descending (l : list A) : Prop :=
  StronglySorted (fun a b => cell_ge (grade a) (grade b)) l.
End BestRow.

(** ** Notions used to state the property of the threshold filter *)

(** The grade lies in the closed interval from 1 to 49. *)
Definition in_band (x : cell) : Prop :=
  exists q, x = CNum q /\ (1 <= q)%Qc /\ (q <= Qc_of_Z 49)%Qc.

Global Instance in_band_dec (x : cell) : Decision (in_band x).
Proof.
  destruct x as [|q|s];
    [right; by intros (? & ? & _) | | right; by intros (? & ? & _)].
  destruct (decide (1 <= q)%Qc) as [H1|H1];
    [|right; intros (? & [= <-] & ? & _); done].
  destruct (decide (q <= Qc_of_Z 49)%Qc) as [H2|H2];
    [|right; intros (? & [= <-] & _ & ?); done].
  left. by exists q.
Defined.



(** ** Notions used to state the properties of the queries *)

(** A stored test table as the cleaning leaves it: one row per ResearchId,
    and neither a ResearchId nor a Grade that is NULL. *)
Definition canonical (t : list (option Qc * option Qc)) : Prop :=
  NoDup (map fst t) /\
  Forall (fun p => fst p <> None /\ snd p <> None) t.

Global Instance canonical_dec (t : list (option Qc * option Qc)) :
  Decision (canonical t).
Proof. unfold canonical. apply _. Defined.

(** The grade the join finds for an id in one table: that of the first row
    with the id, NULL without such a row. *)
Definition grade_of (rid : option Qc) (t : list (option Qc * option Qc))
  : option Qc :=
  match List.filter (fun '(tid, _) => sql_eq rid tid) t with
  | (_, g) :: _ => g
  | [] => None
  end.

(** ** Sample data for the worked instances *)

(** A parser of decimal integers, one instance of what [pd.to_numeric]
    accepts. *)
Definition parse_integer (s : string) : option Qc :=
  option_map (fun i => Qc_of_Z (Z.of_int i)) (NilZero.int_of_string s).

Definition num (z : Z) : cell := CNum (Qc_of_Z z).

(** The frame of [test_drop_duplicate_research_ids]. *)
Definition duplicated_ids : DataFrame :=
  {| columns := ["ResearchId"; "Grade"];
     rows := [[num 1; num 90]; [num 1; num 80]; [num 2; num 85]] |}.


(** Two students with one attempt each, then two attempts of a third student
    with the same grade. *)
Definition tied_attempts : DataFrame :=
  {| columns := ["ResearchId"; "Grade"; "Day"];
     rows := [[num 2; num 50; CStr "Monday"];
              [num 3; num 50; CStr "Tuesday"];
              [num 1; num 60; CStr "Wednesday"];
              [num 1; num 60; CStr "Thursday"]] |}.

(** A frame as the quiz export names its columns. *)
Definition exported_quiz : DataFrame :=
  {| columns := ["ResearchId"; "State"; "Grade/45.00"; "Q 1 /5.00"];
     rows := [[num 1; CStr "Finished"; CStr "40"; CStr "5"];
              [num 2; CStr "Finished"; CStr "-"; CStr "-"]] |}.


(** Two attempts of each of two students: an attempt without a grade before
    one graded 0, and an attempt without a grade before one graded -5. *)
Definition attempts : DataFrame :=
  {| columns := ["ResearchId"; "Started on"; "Grade/10.00"];
     rows := [[num 1; CStr "Monday"; CStr "-"];
              [num 1; CStr "Tuesday"; CStr "0"];
              [num 2; CStr "Wednesday"; CStr "-"];
              [num 2; CStr "Thursday"; CStr "-5"]] |}.

(** The cleaned frame of the quiz export after the coercion loop. *)
Definition coerced_quiz : DataFrame :=
  {| columns := ["ResearchId"; "State"; "Grade"; "Q1"];
     rows := [[num 1; CStr "Finished"; num 40; num 5];
              [num 2; CStr "Finished"; CNum 0; CNum 0]] |}.

(** The frame of [test_standardise_grade], with a grade that is missing. *)
Definition raw_grades : DataFrame :=
  {| columns := ["ResearchId"; "Grade"];
     rows := [[num 1; CStr "50"]; [num 2; num 100]; [num 3; CStr "-"];
              [num 4; num 75]] |}.




Definition sql (z : Z) : option Qc := Some (Qc_of_Z z).

(** The table of [studentPerformance]'s test set-up. *)
Definition TestTable1 : SqlTable :=
  {| table_columns := ["ResearchId"; "Q1"; "Q2"];
     table_rows := [[sql 1; sql 80; sql 70]; [sql 2; sql 90; sql 85];
                    [sql 3; sql 75; sql 65]] |}.

(** A table in which the student's answer to Q1 is NULL. *)
Definition TableWithNull : SqlTable :=
  {| table_columns := ["ResearchId"; "Q1"];
     table_rows := [[sql 1; None]; [sql 2; sql 90]] |}.

Definition grades_table (rs : list (Z * Z)) : SqlTable :=
  {| table_columns := ["ResearchId"; "Grade"];
     table_rows := map (fun '(i, g) => [sql i; sql g]) rs |}.

(** Six test tables; student 3 sat the first test only, student 4 the last
    only. *)
Definition six_tests : list (string * SqlTable) :=
  [("Test1", grades_table [(1, 80); (2, 70); (3, 60)]%Z);
   ("Test2", grades_table [(1, 75); (2, 65)]%Z);
   ("Test3", grades_table [(2, 50); (1, 85)]%Z);
   ("Test4", grades_table [(1, 90); (2, 40)]%Z);
   ("Mocktest", grades_table [(1, 70); (2, 45)]%Z);
   ("Sumtest", grades_table [(1, 88); (2, 47); (4, 30)]%Z)].

(** The same, the first test holding a row for student 3 without a grade. *)
Definition six_tests_null_grade : list (string * SqlTable) :=
  ("Test1", {| table_columns := ["ResearchId"; "Grade"];
               table_rows := [[sql 1; sql 80]; [sql 3; None]] |})
  :: tail six_tests.

(** * The other methods of the modules

    The methods of the five modules that the sections above leave out, as far
    as they work on frames, on stored tables and on numbers.  The methods
    below name their columns by label; a frame in which such a label is
    repeated is outside what they are written for, and where pandas has no
    single exception for it the model stops with [ValueError]. *)

(** ** [replace_nan_with_zero] and [convert_columns_to_numeric] *)

(** [df.fillna(0)] as a function of the frame. *)
Definition fillna_frame (d : DataFrame) : DataFrame :=
  {| columns := columns d; rows := map (map fillna_zero) (rows d) |}.

(** The method of [CWPreprocessing], [DAFunction] and
    [underperformingStudent]. *)
Definition replace_nan_with_zero (df : nat) : M nat :=
  inplace df (fun d => Ok (fillna_frame d)) ;>
  ret df.

Section Conversions.
Variable parse_number : string -> option Qc.

Definition convert_columns_to_numeric (df : nat) (columns : list string)
  : M nat :=
  for_each columns (fun col =>
    inplace df (to_numeric_column parse_number col (fun x => x))) ;>
  ret df.

(** [underperformingStudent.convert_grades_to_numeric]; [df.filter(like=...)]
    selects the columns whose label holds the text. *)
Definition convert_grades_to_numeric (df : nat) : M nat :=
  d <~ load df ;>
  let grade_columns := List.filter (PyStr.contains "Grade") (columns d) in
  for_each grade_columns (fun column =>
    inplace df (to_numeric_column parse_number column (fun x => x))) ;>
  ret df.

End Conversions.

(** ** Functional forms of the loops over columns *)

(** What a loop of in-place updates, one per listed column, makes of the
    frame it works on: the exception of the first update that raises, if one
    does, and the frame as the loop leaves it. *)
Fixpoint fold_columns (step : string -> DataFrame -> result DataFrame)
  (cols : list string) (d : DataFrame) : option exn * DataFrame :=
  match cols with
  | [] => (None, d)
  | c :: cs =>
      match step c d with
      | Ok d' => fold_columns step cs d'
      | Error e => (Some e, d)
      end
  end.

(** The frame [d] with [f] applied to the cells of the listed columns. *)
Definition map_columns (cols : list string) (f : cell -> cell) (d : DataFrame)
  : DataFrame :=
  {| columns := columns d;
     rows := map (map_where (fun c => bool_decide (c ∈ cols)) f (columns d))
                 (rows d) |}.

(** The labels of [d] without the listed ones, and the cells under them. *)
Definition without_columns (cols : list string) (d : DataFrame) : DataFrame :=
  {| columns := List.filter (fun c => negb (has_label c cols)) (columns d);
     rows := map (cells_where (fun c => negb (has_label c cols)) (columns d))
                 (rows d) |}.

(** ** Dictionaries *)

(** A Python dict with string keys: its items in the order of insertion, one
    per key. *)
Definition dict (V : Type) : Type := list (string * V).

(** [d.get(key)]. *)
Fixpoint dict_get {V} (d : dict V) (key : string) : option V :=
  match d with
  | [] => None
  | (k, v) :: d' => if String.eqb k key then Some v else dict_get d' key
  end.

(** [d[key] = value]: the value of a key that is there is replaced where the
    key stands, a new key goes to the end. *)
Fixpoint dict_set {V} (d : dict V) (key : string) (value : V) : dict V :=
  match d with
  | [] => [(key, value)]
  | (k, v) :: d' =>
      if String.eqb k key then (k, value) :: d'
      else (k, v) :: dict_set d' key value
  end.

(** ** [standardise_and_rename] *)

Section Renaming.
Variable parse_number : string -> option Qc.

(** The loop over [dataframes.items()], [cleaned_dataframes] being the dict
    built so far; the values of the dicts are the names of frames. *)
Fixpoint standardise_and_rename_items (items : list (string * nat))
  (cleaned_dataframes : dict nat) : M (dict nat) :=
  match items with
  | [] => ret cleaned_dataframes
  | (key, df) :: items' =>
      df_copy <~ copy df ;>
      df_copy <~ standardise_grade parse_number df_copy ;>
      let cleaned_key := "df_Clean" ++ key in
      standardise_and_rename_items items'
        (dict_set cleaned_dataframes cleaned_key df_copy)
  end.

Definition standardise_and_rename (dataframes : dict nat) : M (dict nat) :=
  standardise_and_rename_items dataframes [].

(** An item of [dataframes] beside the item made of it, [h] being the frames
    before the call and [h'] the frames after it: the key has got its prefix,
    and the value is a new frame that holds the standardised grades of the
    item's frame. *)
Definition renamed (h h' : list DataFrame) (item cleaned : string * nat) : Prop :=
  cleaned.1 = "df_Clean" ++ item.1 /\
  exists d out,
    h !! item.2 = Some d /\
    standardise_frame parse_number d = Ok out /\
    h' !! cleaned.2 = Some out /\
    (List.length h <= cleaned.2)%nat.

End Renaming.

(** ** Rounding *)

(** Python's [round] and numpy's [rint] on a number: the nearest integer, the
    even one of the two when the number lies half-way. *)
Definition round_half_even (q : Qc) : Z :=
  let f := Qfloor q in
  match (q - inject_Z f ?= 1 # 2)%Q with
  | Lt => f
  | Gt => (f + 1)%Z
  | Eq => if Z.even f then f else (f + 1)%Z
  end.

(** [Series.round(1)] rounds floats: numpy scales the float by 10, rounds to
    an integer and scales back, each step in floating point, and which way a
    value goes that lies next to a half-way point is a matter of its binary
    representation, which a rational does not have.  The rounding is
    therefore a parameter of the methods that round, [round1], of which the
    properties ask what holds of numpy's: it is monotone and leaves 100 as
    it is. *)
Definition rounds_to_one_decimal (round1 : Qc -> Qc) : Prop :=
  (forall a b, (a <= b)%Qc -> (round1 a <= round1 b)%Qc) /\
  round1 (Qc_of_Z 100) = Qc_of_Z 100.

(** One such rounding, that of the exact value. *)
Definition round1_exact (q : Qc) : Qc :=
  (Qc_of_Z (round_half_even (q * Qc_of_Z 10)) / Qc_of_Z 10)%Qc.

Definition round_cell (round1 : Qc -> Qc) (x : cell) : cell :=
  match x with
  | CNum q => CNum (round1 q)
  | _ => x
  end.

(** ** Ascending sort *)

(** The order of an ascending [sort_values]: values as [cell_ltb] has them,
    the nulls after every value. *)
Definition cell_before (a b : cell) : bool :=
  match a, b with
  | CNull, _ => false
  | _, CNull => true
  | _, _ => cell_ltb a b
  end.

Section SortingAscending.
Context {A : Type} (key : A -> cell).
Variable kind : tie_order A.

(** [r] put into the ascending list [l]: behind the rows that sort strictly
    before it, and behind at most [n] of the rows that tie with it. *)
Fixpoint insert_behind_asc (n : nat) (r : A) (l : list A) : list A :=
  match l with
  | [] => [r]
  | x :: xs =>
      if cell_before (key x) (key r) then x :: insert_behind_asc n r xs
      else if cell_before (key r) (key x) then r :: l
      else match n with
           | O => r :: l
           | S n' => x :: insert_behind_asc n' r xs
           end
  end.

(** Insertion for the ascending sort; the rows without a value keep their
    order, as in the descending sort. *)
Definition insert_asc (r : A) (l : list A) : list A :=
  insert_behind_asc (if isna (key r) then 0%nat else kind r l) r l.

Definition sort_asc (l : list A) : list A := foldr insert_asc [] l.
End SortingAscending.

(** [df.sort_values(by=label)] as a function of the frame; the exceptions
    and the order of the rows that tie are as in [sort_values_desc]. *)
Definition sort_values_asc (kind : tie_order (list cell)) (label : string)
  (df : DataFrame) : result DataFrame :=
  match count_occ string_dec (columns df) label with
  | 0 => Error KeyError
  | 1 =>
      if mixed (series label df) then Error TypeError
      else Ok {| columns := columns df;
                 rows := sort_asc (get_cell label (columns df)) kind (rows df) |}
  | _ => Error ValueError
  end.

(** ** The methods of [underperformingStudent] *)

Module underperformingStudent.

Section Rounded.
Variable round1 : Qc -> Qc.

(** One turn of the loop of [standardise_grades]:
    [df[column] = ((df[column] / df[column].max()) * 100).round(1)].  The
    division raises on a column that holds a string. *)
Definition standardise_column (column : string) (d : DataFrame)
  : result DataFrame :=
  match count_occ string_dec (columns d) column with
  | 0 => Error KeyError
  | 1 =>
      if existsb is_str (series column d) then Error TypeError
      else
        let max_grade := series_max (series column d) in
        Ok (map_column column
              (fun x =>
                 round_cell round1 (mul_cell (div_cell x max_grade) (Qc_of_Z 100)))
              d)
  | _ => Error ValueError
  end.

Definition standardise_grades (df : nat) : M nat :=
  d <~ load df ;>
  let grade_columns := List.filter (PyStr.contains "Grade") (columns d) in
  for_each grade_columns (fun column => inplace df (standardise_column column)) ;>
  ret df.

End Rounded.

(** [df = df.sort_values(by='Grade_Sumtest')]: the sorted frame is a new
    one. *)
Definition sort_dataframe (kind : tie_order (list cell)) (df : nat) : M nat :=
  d <~ load df ;>
  match sort_values_asc kind "Grade_Sumtest" d with
  | Ok sorted => alloc sorted
  | Error e => raise e
  end.

Definition test_grade_columns : list string :=
  ["Grade_Test1"; "Grade_Test2"; "Grade_Test3"; "Grade_Test4"].

(** The colour [highlight_test_grades] picks for a value.  A null of the
    frame reaches the function as NaN or as [None], [is_none] telling which:
    every comparison with NaN is false, while [0 <= None] raises, as does the
    comparison of a string with a number. *)
Definition colour_of (is_none : bool) (val : cell) : result string :=
  match val with
  | CStr _ => Error TypeError
  | CNull => if is_none then Error TypeError else Ok ""
  | CNum v =>
      if Qc_leb 0 v && Qc_ltb v (Qc_of_Z 50) then Ok "yellow"
      else if Qc_leb (Qc_of_Z 50) v && Qc_ltb v (Qc_of_Z 70) then Ok "grey"
      else if Qc_leb (Qc_of_Z 70) v then Ok "green"
      else Ok ""
  end.

(** The function [apply_conditional_formatting] applies to each row, the row
    being the pairs of a label and a value that [row.iteritems()] yields.
    [none col] tells whether a null of the row under [col] is [None] (the
    column holds objects) rather than NaN (it holds floats). *)
Fixpoint highlight_test_grades (none : string -> bool)
  (row : list (string * cell)) : result (list string) :=
  match row with
  | [] => Ok []
  | (col, val) :: row' =>
      rbind (if bool_decide (col ∈ test_grade_columns)
             then rbind (colour_of (none col) val)
                        (fun color => Ok ("background-color: " ++ color))
             else Ok "")
        (fun style =>
           rbind (highlight_test_grades none row')
                 (fun styles => Ok (style :: styles)))
  end.

End underperformingStudent.

(** ** Functional forms and notions for [underperformingStudent] *)

(** [f c] applied to the cell of a row under each column [c]. *)
Fixpoint map_cols (f : string -> cell -> cell) (cols : list string)
  (r : list cell) : list cell :=
  match cols, r with
  | c :: cs, x :: xs => f c x :: map_cols f cs xs
  | _, _ => r
  end.

(** What [standardise_grades] does to a cell of a column whose greatest
    value is [m]. *)
Definition to_percent (round1 : Qc -> Qc) (m : cell) (x : cell) : cell :=
  round_cell round1 (mul_cell (div_cell x m) (Qc_of_Z 100)).

(** A value the comparisons of [highlight_test_grades] cannot take: a string,
    or a null that is [None]. *)
Definition not_comparable (none : string -> bool) (col : string) (val : cell)
  : Prop :=
  is_str val = true \/ (val = CNull /\ none col = true).

(** [y] may stand, after [standardise_grades], where [x] stood in a column
    whose greatest value is [m]: a null for a null, and for a number a number
    that does not exceed 100 and is 100 when [x] is that greatest value. *)
Definition percent_of (m : Qc) (x y : cell) : Prop :=
  match x with
  | CNum a =>
      exists b, y = CNum b /\ (b <= Qc_of_Z 100)%Qc /\
                (a = m -> b = Qc_of_Z 100)
  | _ => y = CNull
  end.

(** [b] does not sort strictly before [a] in ascending order. *)
Definition ascending (a b : cell) : Prop := cell_before b a = false.

(** The frame [d] with the cells of the listed columns as
    [standardise_grades] leaves them, each column scaled by its own greatest
    value. *)
Definition percent_frame (round1 : Qc -> Qc) (cols : list string)
  (d : DataFrame) : DataFrame :=
  {| columns := columns d;
     rows := map (map_cols
                    (fun c x => if bool_decide (c ∈ cols)
                                then to_percent round1 (series_max (series c d)) x
                                else x)
                    (columns d)) (rows d) |}.

(** ** The methods of [studentPerformance] *)

(** [SELECT a FROM name]: the column, row by row. *)
Definition select_column (a name : string) (db : list (string * SqlTable))
  : option (list (option Qc)) :=
  match find_table name db with
  | None => None
  | Some t =>
      match column_index a (table_columns t) with
      | Some i => Some (map (sql_cell i) (table_rows t))
      | None => None
      end
  end.

Definition Qc_max (a b : Qc) : Qc := if Qc_ltb a b then b else a.

(** [MAX(CAST(col AS REAL))]: the greatest of the values that are not NULL,
    NULL when there is none. *)
Definition sql_max (l : list (option Qc)) : option Qc :=
  match omap id l with
  | [] => None
  | x :: xs => Some (foldr Qc_max x xs)
  end.

(** What the arithmetic of these methods yields: [None], a float, or a float
    that is not finite (the infinity or NaN that numpy gives for a division
    by 0.0). *)
Inductive pyfloat : Type :=
| PyNone
| PyFloat (q : Qc)
| PyNonFinite.

Global Instance pyfloat_eq_dec : EqDecision pyfloat.
Proof. solve_decision. Defined.

Module studentPerformance.

(** The query runs through pandas, which raises its [DatabaseError] when
    SQLite refuses it; [.iloc[0, 0]] is the one value of the result. *)
Definition get_max_grade (table_name q_column : string)
  (connection : list (string * SqlTable)) : result (option Qc) :=
  match select_column q_column table_name connection with
  | None => Error DatabaseError
  | Some values => Ok (sql_max values)
  end.

(** [(x / max_grade) * 100], [max_grade] being the numpy float that
    [get_max_grade] returns. *)
Definition scale (x max_grade : Qc) : pyfloat :=
  if bool_decide (max_grade = 0%Qc) then PyNonFinite
  else PyFloat (x / max_grade * Qc_of_Z 100).

(** A [None] among the operands of a division raises [TypeError]. *)
Definition standardise_grades (grade average max_grade : option Qc)
  : result (pyfloat * pyfloat) :=
  match grade with
  | Some g =>
      match max_grade with
      | Some m =>
          let standardised_grade := scale g m in
          match average with
          | Some a =>
              let standardised_average := scale a m in
              Ok (standardised_grade, standardised_average)
          | None => Error TypeError
          end
      | None => Error TypeError
      end
  | None => Ok (PyNone, PyNone)
  end.

(** The method reads from the connection of the object, [self_conn], not
    from the one it is given; [except Exception] turns every exception into
    the pair of [None]. *)
Definition retrieve_and_standardise_q_column_data
  (self_conn : list (string * SqlTable)) (research_id : option Qc)
  (table_name q_column : string) (connection : list (string * SqlTable))
  : pyfloat * pyfloat :=
  match get_max_grade table_name q_column self_conn with
  | Ok max_grade =>
      match get_column_grade_and_average research_id table_name q_column
              self_conn with
      | Ok (grade, average) =>
          match grade with
          | Some _ =>
              match standardise_grades grade average max_grade with
              | Ok standardised => standardised
              | Error _ => (PyNone, PyNone)
              end
          | None => (PyNone, PyNone)
          end
      | Error _ => (PyNone, PyNone)
      end
  | Error _ => (PyNone, PyNone)
  end.

End studentPerformance.

(** The first record of [t] with the id holds the number [v]. *)
Definition first_record (research_id : option Qc)
  (t : list (option Qc * option Qc)) (v : Qc) : Prop :=
  exists before rid after,
    t = (before ++ (rid, Some v) :: after)%list /\
    sql_eq rid research_id = true /\
    (forall p, p ∈ before -> sql_eq (fst p) research_id = false).

(** ** The methods of [hardworkingStudents] *)

(** [Series.isin(values)] on one cell. *)
Definition isin (values : list string) (x : cell) : bool :=
  match x with
  | CStr s => bool_decide (s ∈ values)
  | _ => false
  end.

(** [x > k] on one cell of a numeric column; a null compares false. *)
Definition gt_scalar (k : Qc) (x : cell) : bool :=
  match x with CNum q => Qc_ltb k q | _ => false end.

(** [df[[a, b]]]: the two columns, in this order. *)
Definition select_two (a b : string) (d : DataFrame) : DataFrame :=
  {| columns := [a; b];
     rows := map (fun r => [get_cell a (columns d) r; get_cell b (columns d) r])
                 (rows d) |}.

Module hardworkingStudents.

(** The mask is built from [df['Ratings']] and [df['Grade_SumTest']], in this
    order; comparing a string with 60 raises.  The frames of the rows that
    pass, of these rows sorted and of the two columns are new ones, of which
    only the last gets a name. *)
Definition generate_hardworking_students_list (kind : tie_order (list cell))
  (df : nat) : M nat :=
  d <~ load df ;>
  match count_occ string_dec (columns d) "Ratings",
        count_occ string_dec (columns d) "Grade_SumTest" with
  | 0, _ | _, 0 => raise KeyError
  | 1, 1 =>
      let ratings := series "Ratings" d in
      let grades := series "Grade_SumTest" d in
      if existsb is_str grades then raise TypeError else
      let mask :=
        zip_with andb (map (isin ["Below Beginner"; "Beginner"]) ratings)
                      (map (gt_scalar (Qc_of_Z 60)) grades) in
      let passing := {| columns := columns d;
                        rows := select_mask mask (rows d) |} in
      match sort_values_desc kind "Grade_SumTest" passing with
      | Ok filtered_df =>
          alloc (select_two "Grade_SumTest" "Ratings" filtered_df)
      | Error e => raise e
      end
  | _, _ => raise ValueError
  end.

End hardworkingStudents.

(** The row is that of a beginner whose summative grade exceeds 60. *)
Definition hardworking (cols : list string) (r : list cell) : Prop :=
  exists rating grade,
    get_cell "Ratings" cols r = CStr rating /\
    rating ∈ ["Below Beginner"; "Beginner"] /\
    get_cell "Grade_SumTest" cols r = CNum grade /\
    (Qc_of_Z 60 < grade)%Qc.

(** * Properties *)

(** ** NameNormalizer *)

Section PyStrFacts.
Import PyStr.

Lemma has_char_split_first (sep : ascii) (s : string) :
  has_char sep (split_first sep s) = false.
Proof.
  induction s as [|c s IH]; simpl; [done|].
  destruct (Ascii.eqb c sep) eqn:E; simpl; [done|].
  by rewrite E, IH.
Qed.

(** What is cut off starts with the separator. *)
Lemma split_first_prefix (sep : ascii) (s : string) :
  exists rest, s = split_first sep s +:+ rest /\
               (rest = "" \/ exists rest', rest = String sep rest').
Proof.
  induction s as [|c s (rest & IH & Hrest)]; simpl.
  - exists "". auto.
  - destruct (Ascii.eqb c sep) eqn:E.
    + apply Ascii.eqb_eq in E as ->. exists (String sep s). simpl. eauto.
    + exists rest. split; [|done]. change (String c s = String c (split_first sep s +:+ rest)). congruence.
Qed.

Lemma has_char_split_first_other (d sep : ascii) (s : string) :
  has_char d s = false -> has_char d (split_first sep s) = false.
Proof.
  induction s as [|c s IH]; simpl; [done|].
  intros [H1 H2]%orb_false_elim.
  destruct (Ascii.eqb c sep); simpl; [done|].
  by rewrite H1, IH.
Qed.

Lemma has_char_remove_char (c : ascii) (s : string) :
  has_char c (remove_char c s) = false.
Proof.
  induction s as [|d s IH]; simpl; [done|].
  destruct (Ascii.eqb d c) eqn:E; simpl; [done|].
  by rewrite E, IH.
Qed.

Lemma has_char_remove_char_other (d c : ascii) (s : string) :
  has_char d s = false -> has_char d (remove_char c s) = false.
Proof.
  induction s as [|e s IH]; simpl; [done|].
  intros [H1 H2]%orb_false_elim.
  destruct (Ascii.eqb e c); simpl; [by apply IH|].
  by rewrite H1, IH.
Qed.

(** Changing the case of a character neither makes nor removes a space or a
    slash. *)
Lemma upper_eqb_punct (c d : ascii) :
  d = " "%char \/ d = "/"%char ->
  Ascii.eqb (upper c) d = Ascii.eqb c d.
Proof.
  intros [-> | ->];
    destruct c as [[] [] [] [] [] [] [] []]; reflexivity.
Qed.

Lemma lower_eqb_punct (c d : ascii) :
  d = " "%char \/ d = "/"%char ->
  Ascii.eqb (lower c) d = Ascii.eqb c d.
Proof.
  intros [-> | ->];
    destruct c as [[] [] [] [] [] [] [] []]; reflexivity.
Qed.

Lemma has_char_title_from (d : ascii) (b : bool) (s : string) :
  d = " "%char \/ d = "/"%char ->
  has_char d (title_from b s) = has_char d s.
Proof.
  intros Hd. revert b.
  induction s as [|c s IH]; intros b; simpl; [done|].
  rewrite IH. f_equal.
  destruct b; [by apply lower_eqb_punct | by apply upper_eqb_punct].
Qed.

(** [title] character by character: a character is upper-cased when it
    starts the string or follows an uncased character, lower-cased when it
    follows a cased one. *)
Lemma get_title_from (b : bool) (s : string) (i : nat) :
  String.get i (title_from b s) =
  match String.get i s with
  | None => None
  | Some c =>
      let previous_is_cased :=
        match i with
        | O => b
        | S j => match String.get j s with
                 | Some p => is_cased p
                 | None => false
                 end
        end in
      Some (if previous_is_cased then lower c else upper c)
  end.
Proof.
  revert b i. induction s as [|c s IH]; intros b i; simpl; [by destruct i|].
  destruct i as [|i]; simpl; [done|].
  rewrite IH. destruct (String.get i s) eqn:E; [|done].
  destruct i as [|i]; simpl; [done|]. done.
Qed.

Lemma remove_char_keeps (c : ascii) (s : string) :
  has_char c s = false -> remove_char c s = s.
Proof.
  induction s as [|d s IH]; simpl; [done|].
  intros [H1 H2]%orb_false_elim. rewrite H1. by rewrite IH.
Qed.

Lemma length_title_from (b : bool) (s : string) :
  String.length (title_from b s) = String.length s.
Proof.
  revert b. induction s as [|c s IH]; intros b; simpl; [done|]. by rewrite IH.
Qed.

(** [str.replace(c, '')] keeps the other characters, in their order. *)
Lemma remove_char_filter (c : ascii) (s : string) :
  list_ascii_of_string (remove_char c s)
  = List.filter (fun d => negb (Ascii.eqb d c)) (list_ascii_of_string s).
Proof.
  induction s as [|d s IH]; simpl; [done|].
  destruct (Ascii.eqb d c); simpl; [done|]. by rewrite IH.
Qed.

(** The two case mappings by the codes of the characters. *)
Lemma title_cased_lower (c : ascii) : title_cased true c (lower c).
Proof.
  unfold title_cased, lower, is_upper. cbv zeta.
  destruct ((65 <=? nat_of_ascii c)%nat && (nat_of_ascii c <=? 90)%nat) eqn:E;
    [|done].
  apply andb_true_iff in E as [_ E%Nat.leb_le].
  apply nat_ascii_embedding. lia.
Qed.

Lemma title_cased_upper (c : ascii) : title_cased false c (upper c).
Proof.
  unfold title_cased, upper, is_lower. cbv zeta.
  destruct ((97 <=? nat_of_ascii c)%nat && (nat_of_ascii c <=? 122)%nat) eqn:E;
    [|done].
  apply andb_true_iff in E as [_ E%Nat.leb_le].
  apply nat_ascii_embedding. lia.
Qed.
End PyStrFacts.

Lemma clean_column_name_no_char (d : ascii) (name : string) :
  d = " "%char \/ d = "/"%char ->
  name <> "ResearchId" ->
  PyStr.has_char d (clean_column_name name) = false.
Proof.
  intros Hd Hne. unfold clean_column_name.
  destruct (String.eqb name "ResearchId") eqn:E.
  { by apply String.eqb_eq in E. }
  destruct Hd as [-> | ->].
  - apply has_char_remove_char.
  - apply has_char_remove_char_other.
    unfold PyStr.title. rewrite has_char_title_from by auto.
    apply has_char_split_first.
Qed.

(** C9. [clean_column_name] keeps "ResearchId".  Any other name of ASCII
    characters is cut at its first '/', put in title case character by
    character (upper case at the start and after a character that is not a
    letter, lower case after a letter) and stripped of its spaces, so that
    the result holds neither a space nor a '/'; "test column" gives
    "TestColumn", "singleWord" gives "Singleword" and "multi/word column"
    gives "Multi". *)
Theorem clean_column_name_normalizes :
  clean_column_name "ResearchId" = "ResearchId" /\
  (forall name : string,
      is_ascii name ->
      name <> "ResearchId" ->
      exists cut rest titled : string,
        name = cut +:+ rest /\
        (rest = "" \/ exists rest', rest = String "/" rest') /\
        PyStr.has_char "/" cut = false /\
        String.length titled = String.length cut /\
        (forall i c,
            String.get i cut = Some c ->
            exists c',
              String.get i titled = Some c' /\
              title_cased
                match i with
                | O => false
                | S j => match String.get j cut with
                         | Some p => PyStr.is_cased p
                         | None => false
                         end
                end c c') /\
        list_ascii_of_string (clean_column_name name)
        = List.filter (fun c => negb (Ascii.eqb c " "))
                      (list_ascii_of_string titled) /\
        PyStr.has_char " " (clean_column_name name) = false /\
        PyStr.has_char "/" (clean_column_name name) = false) /\
  clean_column_name "test column" = "TestColumn" /\
  clean_column_name "singleWord" = "Singleword" /\
  clean_column_name "multi/word column" = "Multi".
Proof.
  split; [reflexivity|]. split; [|repeat split; reflexivity].
  intros name _ Hne.
  destruct (split_first_prefix "/" name) as (rest & Hname & Hrest).
  exists (PyStr.split_first "/" name), rest,
         (PyStr.title (PyStr.split_first "/" name)).
  split; [exact Hname|]. split; [exact Hrest|].
  split; [apply has_char_split_first|].
  split; [apply length_title_from|]. split; [|split; [|split]].
  - intros i c Hc. unfold PyStr.title. rewrite get_title_from, Hc.
    eexists. split; [reflexivity|]. cbv zeta.
    destruct i as [|j]; [apply title_cased_upper|].
    destruct (String.get j (PyStr.split_first "/" name)) as [p|];
      [|apply title_cased_upper].
    destruct (PyStr.is_cased p);
      [apply title_cased_lower | apply title_cased_upper].
  - unfold clean_column_name.
    destruct (String.eqb name "ResearchId") eqn:E;
      [by apply String.eqb_eq in E|].
    apply remove_char_filter.
  - apply clean_column_name_no_char; auto.
  - apply clean_column_name_no_char; auto.
Qed.

(** A column name of the quiz export. *)
Lemma clean_column_name_normalizes_witness :
  is_ascii "Q 1 /5.00" /\
  "Q 1 /5.00" <> "ResearchId" /\
  clean_column_name "Q 1 /5.00" = "Q1" /\
  PyStr.has_char " " (clean_column_name "Q 1 /5.00") = false.
Proof.
  assert (Hascii : is_ascii "Q 1 /5.00")
    by (unfold is_ascii; simpl; repeat constructor; simpl; lia).
  assert (Hne : "Q 1 /5.00" <> "ResearchId") by discriminate.
  split; [exact Hascii|]. split; [exact Hne|]. split; [reflexivity|].
  destruct clean_column_name_normalizes as (_ & H & _).
  destruct (H "Q 1 /5.00" Hascii Hne)
    as (cut & rest & titled & _ & _ & _ & _ & _ & _ & Hsp & _).
  exact Hsp.
Defined.

(** ** Running the in-place methods *)

Lemma lookup_overwritten (h : list DataFrame) (l : nat) (d d' : DataFrame) :
  h !! l = Some d -> <[l := d']> h !! l = Some d'.
Proof. intros H. apply list_lookup_insert_eq. by eapply lookup_lt_Some. Qed.

Lemma overwrite_twice (h : list DataFrame) (l : nat) (d d' : DataFrame) :
  <[l := d']> (<[l := d]> h) = <[l := d']> h.
Proof. apply list_insert_insert_eq. Qed.

Lemma overwrite_last (h : list DataFrame) (d d' : DataFrame) :
  <[List.length h := d']> (h ++ [d])%list = (h ++ [d'])%list.
Proof.
  rewrite insert_app_r_alt by lia. by rewrite Nat.sub_diag.
Qed.

Lemma lookup_last (h : list DataFrame) (d : DataFrame) :
  (h ++ [d])%list !! List.length h = Some d.
Proof. rewrite lookup_app_r by lia. by rewrite Nat.sub_diag. Qed.

Lemma bind_ok {A B} (m : M A) (k : A -> M B) (h h' : list DataFrame) (a : A) :
  m h = (Ok a, h') -> bind m k h = k a h'.
Proof. intros H. unfold bind. by rewrite H. Qed.

Lemma bind_error {A B} (m : M A) (k : A -> M B) (h h' : list DataFrame) (e : exn) :
  m h = (Error e, h') -> bind m k h = (Error e, h').
Proof. intros H. unfold bind. by rewrite H. Qed.

Lemma inplace_ok (l : nat) f (h : list DataFrame) (d d' : DataFrame) :
  h !! l = Some d -> f d = Ok d' -> inplace l f h = (Ok tt, <[l := d']> h).
Proof. intros Hl Hf. unfold inplace, bind, load. by rewrite Hl, Hf. Qed.

Lemma inplace_error (l : nat) f (h : list DataFrame) (d : DataFrame) (e : exn) :
  h !! l = Some d -> f d = Error e -> inplace l f h = (Error e, h).
Proof. intros Hl Hf. unfold inplace, bind, load. by rewrite Hl, Hf. Qed.

Lemma clean_column_names_run (l : nat) (h : list DataFrame) (d : DataFrame) :
  h !! l = Some d ->
  clean_column_names l h = (Ok l, <[l := normalised d]> h).
Proof.
  intros Hl. unfold clean_column_names, bind.
  by erewrite inplace_ok by eauto.
Qed.

Lemma drop_duplicate_research_ids_run (kind : tie_order (list cell)) (l : nat)
  (h : list DataFrame) (d : DataFrame) :
  h !! l = Some d ->
  runs_in_place (drop_duplicate_research_ids kind l) l l h (dedupe_frame kind d).
Proof.
  intros Hl. unfold runs_in_place, dedupe_frame, drop_duplicate_research_ids, bind.
  destruct (sort_values_desc kind "Grade" d) as [d1|e] eqn:E1; simpl.
  - erewrite inplace_ok by eauto.
    destruct (drop_duplicates_first "ResearchId" d1) as [d2|e] eqn:E2.
    + erewrite inplace_ok by eauto using lookup_overwritten.
      by rewrite overwrite_twice.
    + erewrite inplace_error by eauto using lookup_overwritten. eauto.
  - erewrite inplace_error by eauto.
    exists d. by rewrite list_insert_id.
Qed.

Lemma drop_columns_loop_run (cols : list string) (l : nat)
  (h : list DataFrame) (d : DataFrame) :
  h !! l = Some d ->
  for_each cols (fun col =>
    d <~ load l ;>
    if has_label col (columns d)
    then inplace l (fun d => Ok (drop_column col d))
    else ret tt) h
  = (Ok tt, <[l := drop_columns_frame cols d]> h).
Proof.
  unfold drop_columns_frame.
  revert h d. induction cols as [|c cols IH]; intros h d Hl; simpl.
  - unfold ret. by rewrite list_insert_id.
  - unfold bind at 1. unfold bind at 1. unfold load at 1. rewrite Hl.
    destruct (has_label c (columns d)) eqn:Hc.
    + erewrite inplace_ok by eauto.
      specialize (IH (<[l := drop_column c d]> h) (drop_column c d)
                     (lookup_overwritten _ _ _ _ Hl)).
      rewrite overwrite_twice in IH. exact IH.
    + unfold ret at 1. by apply IH.
Qed.

Lemma drop_unnecessary_columns_run (cols : list string) (l : nat)
  (h : list DataFrame) (d : DataFrame) :
  h !! l = Some d ->
  drop_unnecessary_columns l cols h = (Ok l, <[l := drop_columns_frame cols d]> h).
Proof.
  intros Hl. unfold drop_unnecessary_columns. unfold bind at 1.
  by rewrite (drop_columns_loop_run _ _ _ _ Hl).
Qed.

Section RunCoercion.
Variable parse_number : string -> option Qc.
Variable kind : tie_order (list cell).

Lemma coerce_loop_run (post : cell -> cell) (cols : list string) (l : nat)
  (h : list DataFrame) (d : DataFrame) :
  h !! l = Some d ->
  runs_in_place
    (for_each cols (fun col =>
       inplace l (fun d => Ok (map_column col replace_dash d)) ;>
       inplace l (to_numeric_column parse_number col post)))
    tt l h (coerce_frame parse_number post cols d).
Proof.
  revert h d. induction cols as [|c cols IH]; intros h d Hl; simpl.
  - unfold runs_in_place, ret. by rewrite list_insert_id.
  - unfold coerce_column_frame.
    set (d1 := map_column c replace_dash d).
    assert (H1 : inplace l (fun d => Ok (map_column c replace_dash d)) h
                 = (Ok tt, <[l := d1]> h)) by (by eapply inplace_ok).
    destruct (to_numeric_column parse_number c post d1) as [d2|e] eqn:E; simpl.
    + assert (H2 : inplace l (to_numeric_column parse_number c post) (<[l := d1]> h)
                   = (Ok tt, <[l := d2]> h)).
      { erewrite inplace_ok by eauto using lookup_overwritten.
        by rewrite overwrite_twice. }
      specialize (IH (<[l := d2]> h) d2 (lookup_overwritten _ _ _ _ Hl)).
      unfold runs_in_place in *.
      destruct (coerce_frame parse_number post cols d2) as [out|e'].
      * unfold bind at 1. unfold bind at 1. rewrite H1, H2, IH.
        by rewrite overwrite_twice.
      * destruct IH as [g IH]. exists g.
        unfold bind at 1. unfold bind at 1. rewrite H1, H2, IH.
        by rewrite overwrite_twice.
    + exists d1. unfold bind at 1. unfold bind at 1. rewrite H1.
      by erewrite inplace_error by eauto using lookup_overwritten.
Qed.

Lemma copy_run (l : nat) (h : list DataFrame) (d : DataFrame) :
  h !! l = Some d -> copy l h = (Ok (List.length h), (h ++ [d])%list).
Proof. intros Hl. unfold copy, bind, load, alloc. by rewrite Hl. Qed.

Lemma copy_unbound (l : nat) (h : list DataFrame) :
  h !! l = None -> copy l h = (Error NameError, h).
Proof. intros Hl. unfold copy, bind, load. by rewrite Hl. Qed.

Lemma process_until_dedupe_run (l : nat) (h : list DataFrame) (d : DataFrame) :
  h !! l = Some d ->
  match coerced_frame parse_number d with
  | Ok out =>
      process_until_dedupe parse_number l h = (Ok (List.length h), (h ++ [out])%list)
  | Error e =>
      exists g, process_until_dedupe parse_number l h = (Error e, (h ++ [g])%list)
  end.
Proof.
  intros Hl. unfold process_until_dedupe, coerced_frame.
  pose proof (coerce_loop_run fillna_zero
                (List.filter is_grade_q (columns (normalised d)))
                _ _ _ (lookup_last h (normalised d))) as Hloop.
  unfold runs_in_place in Hloop.
  destruct (coerce_frame parse_number fillna_zero _ (normalised d)) as [out|e];
    [|destruct Hloop as [g Hloop]; exists g];
    rewrite overwrite_last in Hloop;
    (erewrite bind_ok by (by apply copy_run));
    (erewrite bind_ok
       by (rewrite (clean_column_names_run _ _ _ (lookup_last h d)),
             overwrite_last; reflexivity));
    (erewrite bind_ok by (unfold load; rewrite lookup_last; reflexivity));
    unfold coerce_grade_q.
  - by erewrite bind_ok by exact Hloop.
  - by erewrite bind_error by exact Hloop.
Qed.

Lemma process_dataframe_run (l : nat) (h : list DataFrame) (d : DataFrame) :
  h !! l = Some d ->
  match process_frame parse_number kind d with
  | Ok out =>
      process_dataframe parse_number kind l h = (Ok (List.length h), (h ++ [out])%list)
  | Error e =>
      exists g, process_dataframe parse_number kind l h = (Error e, (h ++ [g])%list)
  end.
Proof.
  intros Hl. unfold process_dataframe, process_frame, coerced_frame.
  pose proof (coerce_loop_run fillna_zero
                (List.filter is_grade_q (columns (normalised d)))
                _ _ _ (lookup_last h (normalised d))) as Hloop.
  unfold runs_in_place in Hloop.
  destruct (coerce_frame parse_number fillna_zero _ (normalised d)) as [d1|e];
    simpl.
  - rewrite overwrite_last in Hloop.
    pose proof (drop_duplicate_research_ids_run kind _ _ _ (lookup_last h d1)) as Hdd.
    unfold runs_in_place in Hdd.
    destruct (dedupe_frame kind d1) as [d2|e]; simpl;
      [|destruct Hdd as [g Hdd]; exists g];
      rewrite overwrite_last in Hdd;
      (erewrite bind_ok by (by apply copy_run));
      (erewrite bind_ok
         by (rewrite (clean_column_names_run _ _ _ (lookup_last h d)),
               overwrite_last; reflexivity));
      (erewrite bind_ok by (unfold load; rewrite lookup_last; reflexivity));
      unfold coerce_grade_q;
      (erewrite bind_ok by exact Hloop).
    + erewrite bind_ok by exact Hdd.
      erewrite bind_ok
        by (rewrite (drop_unnecessary_columns_run _ _ _ _ (lookup_last h d2)),
              overwrite_last; reflexivity).
      done.
    + by erewrite bind_error by exact Hdd.
  - destruct Hloop as [g Hloop]. exists g. rewrite overwrite_last in Hloop.
    erewrite bind_ok by (by apply copy_run).
    erewrite bind_ok
      by (rewrite (clean_column_names_run _ _ _ (lookup_last h d)),
            overwrite_last; reflexivity).
    erewrite bind_ok by (unfold load; rewrite lookup_last; reflexivity).
    unfold coerce_grade_q.
    by erewrite bind_error by exact Hloop.
Qed.

Lemma call_process_dataframe (d : DataFrame) :
  call (process_dataframe parse_number kind) d = process_frame parse_number kind d.
Proof.
  unfold call.
  pose proof (process_dataframe_run 0 [d] d eq_refl) as H.
  destruct (process_frame parse_number kind d) as [out|e].
  - by rewrite H.
  - by destruct H as [g ->].
Qed.

Lemma call_process_until_dedupe (d : DataFrame) :
  call (process_until_dedupe parse_number) d = coerced_frame parse_number d.
Proof.
  unfold call.
  pose proof (process_until_dedupe_run 0 [d] d eq_refl) as H.
  destruct (coerced_frame parse_number d) as [out|e].
  - by rewrite H.
  - by destruct H as [g ->].
Qed.
End RunCoercion.

Lemma call_drop_duplicate_research_ids (kind : tie_order (list cell))
  (d : DataFrame) :
  call (drop_duplicate_research_ids kind) d = dedupe_frame kind d.
Proof.
  unfold call.
  pose proof (drop_duplicate_research_ids_run kind 0 [d] d eq_refl) as H.
  unfold runs_in_place in H.
  destruct (dedupe_frame kind d) as [out|e].
  - by rewrite H.
  - by destruct H as [g ->].
Qed.

(** ** Cell-wise updates *)

Lemma map_where_ext_in (s1 s2 : string -> bool) (f : cell -> cell)
  (cols : list string) (r : list cell) :
  (forall c, c ∈ cols -> s1 c = s2 c) ->
  map_where s1 f cols r = map_where s2 f cols r.
Proof.
  revert r. induction cols as [|c cols IH]; intros r H; simpl; [done|].
  destruct r as [|x r]; [done|].
  rewrite (H c) by left. f_equal. apply IH. intros c' Hc'. apply H. by right.
Qed.

Lemma map_where_none (s : string -> bool) (f : cell -> cell)
  (cols : list string) (r : list cell) :
  (forall c, c ∈ cols -> s c = false) -> map_where s f cols r = r.
Proof.
  revert r. induction cols as [|c cols IH]; intros r H; simpl; [done|].
  destruct r as [|x r]; [done|].
  rewrite (H c) by left. f_equal. apply IH. intros c' Hc'. apply H. by right.
Qed.

Lemma map_where_same (s : string -> bool) (f g : cell -> cell)
  (cols : list string) (r : list cell) :
  map_where s f cols (map_where s g cols r) = map_where s (fun x => f (g x)) cols r.
Proof.
  revert r. induction cols as [|c cols IH]; intros r; simpl; [done|].
  destruct r as [|x r]; [done|]. rewrite IH. by destruct (s c).
Qed.

Lemma map_where_union (s1 s2 : string -> bool) (f : cell -> cell)
  (cols : list string) (r : list cell) :
  (forall x, f (f x) = f x) ->
  map_where s2 f cols (map_where s1 f cols r)
  = map_where (fun c => s1 c || s2 c) f cols r.
Proof.
  intros Hf. revert r. induction cols as [|c cols IH]; intros r; simpl; [done|].
  destruct r as [|x r]; [done|]. rewrite IH.
  destruct (s1 c), (s2 c); simpl; by rewrite ?Hf.
Qed.

Lemma map_where_lookup (s : string -> bool) (f : cell -> cell)
  (cols : list string) (r : list cell) (j : nat) :
  map_where s f cols r !! j =
  (fun x => match cols !! j with
            | Some c => if s c then f x else x
            | None => x
            end) <$> r !! j.
Proof.
  revert r j. induction cols as [|c cols IH]; intros r j; simpl.
  - by destruct (r !! j).
  - destruct r as [|x r]; [done|]. destruct j as [|j]; simpl; [done|]. apply IH.
Qed.

Lemma map_where_length (s : string -> bool) (f : cell -> cell)
  (cols : list string) (r : list cell) :
  List.length (map_where s f cols r) = List.length r.
Proof.
  revert r. induction cols as [|c cols IH]; intros r; simpl; [done|].
  destruct r as [|x r]; simpl; [done|]. by rewrite IH.
Qed.

Lemma has_label_elem_of (label : string) (cols : list string) :
  has_label label cols = true <-> label ∈ cols.
Proof.
  unfold has_label. rewrite existsb_exists. split.
  - intros (c & Hc & ->%String.eqb_eq). by apply list_elem_of_In.
  - intros H. exists label. split; [by apply list_elem_of_In | apply String.eqb_refl].
Qed.

Lemma has_label_false (label : string) (cols : list string) :
  has_label label cols = false <-> label ∉ cols.
Proof.
  rewrite <- has_label_elem_of. by destruct (has_label label cols).
Qed.

Lemma count_occ_zero_iff (label : string) (cols : list string) :
  count_occ string_dec cols label = 0%nat <-> label ∉ cols.
Proof.
  rewrite <- count_occ_not_In. by rewrite list_elem_of_In.
Qed.

(** ** The coercion loop *)

Section Coercion.
Variable parse_number : string -> option Qc.

Lemma coerce_cell_number (x : cell) :
  exists q, coerce_cell parse_number x = CNum q /\
    ((x = CNull \/ x = CStr "-" \/
      exists s, x = CStr s /\ parse_number s = None) -> q = 0%Qc).
Proof.
  unfold coerce_cell. destruct x as [|q|s]; simpl.
  - exists 0%Qc. done.
  - exists q. split; [done|]. intros [?|[?|(?&?&?)]]; done.
  - destruct (String.eqb s "-") eqn:E; simpl.
    + exists 0%Qc. done.
    + destruct (parse_number s) as [q|] eqn:P; simpl.
      * exists q. split; [done|]. intros [?|[H|(s'&H&P')]]; [done| |].
        -- injection H as ->. done.
        -- injection H as <-. congruence.
      * exists 0%Qc. done.
Qed.

Lemma coerce_cell_idempotent (x : cell) :
  coerce_cell parse_number (coerce_cell parse_number x)
  = coerce_cell parse_number x.
Proof.
  destruct (coerce_cell_number x) as (q & -> & _). reflexivity.
Qed.

Lemma coerce_column_frame_ok (post : cell -> cell) (c : string)
  (d out : DataFrame) :
  coerce_column_frame parse_number post c d = Ok out ->
  count_occ string_dec (columns d) c = 1%nat /\
  out = {| columns := columns d;
           rows := map (map_where (String.eqb c)
                          (fun x => post (to_numeric parse_number (replace_dash x)))
                          (columns d)) (rows d) |}.
Proof.
  unfold coerce_column_frame, to_numeric_column. simpl.
  destruct (count_occ string_dec (columns d) c) as [|[|n]]; try done.
  intros [= <-]. split; [done|].
  unfold map_column, map_labelled. simpl. f_equal.
  rewrite map_map. apply map_ext. intros r.
  apply (map_where_same _ (fun x => post (to_numeric parse_number x)) replace_dash).
Qed.

Lemma coerce_frame_ok (post : cell -> cell) (cols : list string)
  (d out : DataFrame) :
  let F := fun x => post (to_numeric parse_number (replace_dash x)) in
  (forall x, F (F x) = F x) ->
  coerce_frame parse_number post cols d = Ok out ->
  (forall c, c ∈ cols -> count_occ string_dec (columns d) c = 1%nat) /\
  out = {| columns := columns d;
           rows := map (map_where (fun c => bool_decide (c ∈ cols)) F (columns d))
                       (rows d) |}.
Proof.
  intros F HF. revert d. induction cols as [|c cols IH]; intros d; simpl.
  - intros [= <-]. split; [by intros c ?%elem_of_nil|].
    destruct d as [cs rs]. simpl. f_equal.
    rewrite <- (map_id rs) at 1. apply map_ext. intros r.
    symmetry. apply map_where_none. by intros c _.
  - destruct (coerce_column_frame parse_number post c d) as [d1|e] eqn:E1;
      simpl; [|done].
    apply coerce_column_frame_ok in E1 as [Hc ->].
    intros [Hcols ->]%IH. simpl in *. split.
    + intros c' Hc'. apply elem_of_cons in Hc' as [Heq|Hc']; [by subst|auto].
    + f_equal. rewrite map_map. apply map_ext. intros r.
      rewrite (map_where_union _ _ F) by exact HF.
      apply map_where_ext_in. intros c' _.
      destruct (String.eqb c c') eqn:Ecc'.
      * apply String.eqb_eq in Ecc' as ->. simpl. symmetry.
        apply bool_decide_eq_true_2. by left.
      * simpl. apply String.eqb_neq in Ecc'.
        apply bool_decide_ext. rewrite elem_of_cons.
        split; [by right | by intros [?|?]].
Qed.


Lemma coerced_frame_ok (d out : DataFrame) :
  coerced_frame parse_number d = Ok out ->
  (forall c, c ∈ columns out -> is_grade_q c = true ->
             count_occ string_dec (columns out) c = 1%nat) /\
  out = {| columns := map clean_column_name (columns d);
           rows := map (map_where is_grade_q (coerce_cell parse_number)
                          (map clean_column_name (columns d))) (rows d) |}.
Proof.
  unfold coerced_frame. intros H.
  apply coerce_frame_ok in H as [Hcount ->];
    [|intros x; apply coerce_cell_idempotent].
  simpl in *. split.
  - intros c Hc Hq. apply Hcount.
    apply list_elem_of_In, filter_In. split; [by apply list_elem_of_In|done].
  - f_equal. apply map_ext. intros r. apply map_where_ext_in. intros c Hc.
    destruct (is_grade_q c) eqn:Hq.
    + apply bool_decide_eq_true_2, list_elem_of_In, filter_In.
      split; [by apply list_elem_of_In|done].
    + apply bool_decide_eq_false_2. rewrite list_elem_of_In, filter_In.
      intros [_ ?]. congruence.
Qed.
End Coercion.

(** C7. After the coercion loop of [process_dataframe], every cell of a column
    whose cleaned name holds "Grade" or starts with "Q" is a number: it is
    neither "-" nor null, a "-", a null or a string that does not parse having
    become 0.0. *)
Theorem coercion_leaves_numbers (parse_number : string -> option Qc)
  (df out : DataFrame) :
  call (process_until_dedupe parse_number) df = Ok out ->
  columns out = map clean_column_name (columns df) /\
  rows out = map (map_where is_grade_q (coerce_cell parse_number) (columns out))
                 (rows df) /\
  (forall x, exists q,
      coerce_cell parse_number x = CNum q /\
      ((x = CNull \/ x = CStr "-" \/
        exists s, x = CStr s /\ parse_number s = None) -> q = 0%Qc)) /\
  (forall r j c y,
      r ∈ rows out -> columns out !! j = Some c -> is_grade_q c = true ->
      r !! j = Some y ->
      y <> CStr "-" /\ y <> CNull /\ exists q, y = CNum q).
Proof.
  rewrite call_process_until_dedupe. intros [_ ->]%coerced_frame_ok. simpl.
  split; [done|]. split; [done|]. split; [apply coerce_cell_number|].
  intros r j c y Hr Hc Hq Hy.
  apply list_elem_of_In, in_map_iff in Hr as (r0 & <- & _).
  rewrite map_where_lookup, Hc, Hq in Hy.
  destruct (r0 !! j) as [x|]; [|done]. injection Hy as <-.
  destruct (coerce_cell_number parse_number x) as (q & -> & _).
  repeat split; [done|done|by exists q].
Qed.

Lemma coercion_leaves_numbers_witness :
  call (process_until_dedupe parse_integer) exported_quiz = Ok coerced_quiz /\
  columns coerced_quiz = map clean_column_name (columns exported_quiz).
Proof.
  assert (H : call (process_until_dedupe parse_integer) exported_quiz
              = Ok coerced_quiz) by (vm_compute; reflexivity).
  split; [exact H|].
  exact (proj1 (coercion_leaves_numbers parse_integer exported_quiz coerced_quiz H)).
Defined.

(** ** The frame property of [process_dataframe] *)

(** C10. [process_dataframe] leaves every frame of the caller as it was, the
    one it is given included: what it returns is a new frame, the copy on
    which the helper methods have worked in place. *)
Theorem process_dataframe_leaves_input (parse_number : string -> option Qc)
  (kind : tie_order (list cell)) (h : list DataFrame) (df : nat) :
  let '(res, h') := process_dataframe parse_number kind df h in
  (forall l d, h !! l = Some d -> h' !! l = Some d) /\
  (forall l, res = Ok l -> h !! l = None /\ is_Some (h' !! l) /\ l <> df).
Proof.
  destruct (h !! df) as [d|] eqn:Hdf.
  - pose proof (process_dataframe_run parse_number kind df h d Hdf) as Hrun.
    destruct (process_frame parse_number kind d) as [out|e].
    + rewrite Hrun. split.
      * intros l d' Hl. rewrite lookup_app_l; [done|by eapply lookup_lt_Some].
      * intros l [= <-]. split; [by apply lookup_ge_None|].
        split; [by rewrite lookup_last|].
        apply lookup_lt_Some in Hdf. lia.
    + destruct Hrun as [g ->]. split; [|done].
      intros l d' Hl. rewrite lookup_app_l; [done|by eapply lookup_lt_Some].
  - unfold process_dataframe.
    erewrite bind_error by (by apply copy_unbound). done.
Qed.

(** By contrast the helper methods do change the frame they are given. *)
Lemma clean_column_names_in_place (h : list DataFrame) (l : nat) (d : DataFrame) :
  h !! l = Some d ->
  (clean_column_names l h).2 !! l = Some (normalised d).
Proof.
  intros Hl. rewrite (clean_column_names_run _ _ _ Hl). simpl.
  by eapply lookup_overwritten.
Qed.

(** ** The order of [sort_values] *)

Lemma Qc_ltb_lt (x y : Qc) : Qc_ltb x y = true <-> (x < y)%Qc.
Proof.
  unfold Qc_ltb. rewrite Qclt_alt. by destruct (x ?= y)%Qc.
Qed.

Lemma Qc_ltb_ge (x y : Qc) : Qc_ltb x y = false <-> (y <= x)%Qc.
Proof.
  rewrite Qcle_ngt, <- Qc_ltb_lt. by destruct (Qc_ltb x y).
Qed.

Lemma Qc_leb_le (x y : Qc) : Qc_leb x y = true <-> (x <= y)%Qc.
Proof.
  unfold Qc_leb. rewrite Qcle_alt. by destruct (x ?= y)%Qc.
Qed.

Lemma string_ltb_ge (s t : string) : String.ltb s t = false <-> String.le t s.
Proof.
  unfold String.le, String.leb, String.ltb.
  rewrite (String.compare_antisym s t).
  destruct (String.compare t s); simpl; split; done.
Qed.

Lemma cell_ge_refl (a : cell) : cell_ge a a.
Proof.
  unfold cell_ge. destruct a as [|q|s]; simpl; [done| |].
  - by apply Qc_ltb_ge.
  - by apply string_ltb_ge.
Qed.

Lemma cell_ge_trans (a b c : cell) : cell_ge a b -> cell_ge b c -> cell_ge a c.
Proof.
  unfold cell_ge.
  destruct a as [|x|s], b as [|y|t], c as [|z|u]; simpl; try done.
  - rewrite !Qc_ltb_ge. intros ??. by etrans.
  - rewrite !string_ltb_ge. intros ??. by etrans.
Qed.

Lemma cell_ltb_ge (a b : cell) : cell_ltb a b = true -> cell_ge b a.
Proof.
  unfold cell_ge.
  destruct a as [|x|s], b as [|y|t]; simpl; try done.
  - rewrite Qc_ltb_lt, Qc_ltb_ge. apply Qclt_le_weak.
  - intros H. apply string_ltb_ge.
    destruct (total String.le s t) as [|H']; [done|].
    apply string_ltb_ge in H'. congruence.
Qed.

Lemma cell_ltb_trans (a b c : cell) :
  cell_ltb a b = true -> cell_ltb b c = true -> cell_ltb a c = true.
Proof.
  intros Hab Hbc. destruct (cell_ltb a c) eqn:Hac; [done|].
  (* c <= a <= b would give c <= b *)
  assert (cell_ge b c) as H; [|unfold cell_ge in H; congruence].
  eapply cell_ge_trans; [|exact Hac]. by apply cell_ltb_ge.
Qed.

Lemma cell_ltb_ge_trans (a b c : cell) :
  cell_ltb a b = true -> cell_ge c b -> cell_ltb a c = true.
Proof.
  intros Hab Hcb. destruct (cell_ltb a c) eqn:Hac; [done|].
  assert (cell_ge a b) as H; [|unfold cell_ge in H; congruence].
  by eapply cell_ge_trans.
Qed.

(** ** The descending sort, whatever the order of the rows that tie *)

Section SortFacts.
Context {A : Type}.
Variable grade : A -> cell.
Variable kind : tie_order A.

Lemma insert_behind_perm (n : nat) (r : A) (l : list A) :
  insert_behind grade n r l ≡ₚ r :: l.
Proof.
  revert n. induction l as [|x l IH]; intros n; simpl; [done|].
  destruct (cell_ltb (grade r) (grade x)).
  - rewrite IH. apply Permutation_swap.
  - destruct (cell_ltb (grade x) (grade r)); [done|].
    destruct n as [|n]; [done|]. rewrite IH. apply Permutation_swap.
Qed.

Lemma insert_behind_descending (n : nat) (r : A) (l : list A) :
  descending grade l -> descending grade (insert_behind grade n r l).
Proof.
  unfold descending. intros Hl. revert n.
  induction Hl as [|x l Hl IH Hx]; intros n; simpl.
  - repeat constructor.
  - assert (forall m, cell_ge (grade x) (grade r) ->
              StronglySorted (fun a b => cell_ge (grade a) (grade b))
                (x :: insert_behind grade m r l)) as Hbehind.
    { intros m Hxr. constructor; [apply IH|].
      apply Forall_forall. intros y Hy. rewrite insert_behind_perm in Hy.
      apply elem_of_cons in Hy as [->|Hy]; [done|].
      rewrite Forall_forall in Hx. by apply Hx. }
    assert (cell_ge (grade r) (grade x) ->
            StronglySorted (fun a b => cell_ge (grade a) (grade b))
              (r :: x :: l)) as Hfront.
    { intros Hrx. constructor; [by constructor|].
      constructor; [done|].
      eapply Forall_impl; [exact Hx|]. simpl. intros y Hy.
      by eapply cell_ge_trans. }
    destruct (cell_ltb (grade r) (grade x)) eqn:Hlt.
    + apply Hbehind. by apply cell_ltb_ge.
    + destruct (cell_ltb (grade x) (grade r)) eqn:Hgt; [by apply Hfront|].
      destruct n as [|n]; [by apply Hfront | by apply Hbehind].
Qed.

Lemma sort_desc_perm (l : list A) : sort_desc grade kind l ≡ₚ l.
Proof.
  induction l as [|r l IH]; simpl; [done|].
  unfold insert_desc. by rewrite insert_behind_perm, IH.
Qed.

Lemma sort_desc_descending (l : list A) :
  descending grade (sort_desc grade kind l).
Proof.
  induction l as [|r l IH]; simpl; [constructor|].
  by apply insert_behind_descending.
Qed.

Lemma sort_desc_elem (x : A) (l : list A) :
  x ∈ sort_desc grade kind l <-> x ∈ l.
Proof. by rewrite sort_desc_perm. Qed.

(** The sort of a list asks for the order of ties among shorter lists
    only. *)
Lemma sort_desc_kind_ext (kind' : tie_order A) (l : list A) :
  (forall r s, (List.length s < List.length l)%nat -> kind r s = kind' r s) ->
  sort_desc grade kind l = sort_desc grade kind' l.
Proof.
  induction l as [|x l IH]; intros Hext; simpl; [done|].
  rewrite <- IH by (intros r s Hs; apply Hext; simpl; lia).
  unfold insert_desc. rewrite <- Hext; [done|].
  rewrite (Permutation_length (sort_desc_perm l)). simpl. lia.
Qed.

Lemma descending_without (l1 l2 : list A) (x : A) :
  descending grade (l1 ++ x :: l2) -> descending grade (l1 ++ l2).
Proof.
  unfold descending. induction l1 as [|y l1 IH]; simpl; intros H.
  - by apply StronglySorted_inv in H as [? _].
  - apply StronglySorted_inv in H as [Hl Hy]. constructor; [by apply IH|].
    rewrite Forall_app in *. destruct Hy as [? Hy].
    apply Forall_cons in Hy as [_ ?]. done.
Qed.

(** A row goes back to the place it had in a descending list when it is
    put behind the rows before that place that tie with it. *)
Lemma insert_behind_place (l1 l2 : list A) (x : A) :
  descending grade (l1 ++ x :: l2) ->
  insert_behind grade
    (List.length
       (List.filter (fun y => negb (cell_ltb (grade x) (grade y))) l1))
    x (l1 ++ l2)
  = (l1 ++ x :: l2)%list.
Proof.
  unfold descending. induction l1 as [|y l1 IH]; simpl; intros H.
  - destruct l2 as [|y l2]; simpl; [done|].
    apply StronglySorted_inv in H as [_ Hx].
    apply Forall_cons in Hx as [Hxy _]. unfold cell_ge in Hxy. rewrite Hxy.
    by destruct (cell_ltb (grade y) (grade x)).
  - apply StronglySorted_inv in H as [Hl Hy].
    assert (cell_ltb (grade y) (grade x) = false) as Hyx.
    { rewrite Forall_app in Hy. destruct Hy as [_ Hy].
      by apply Forall_cons in Hy as [? _]. }
    destruct (cell_ltb (grade x) (grade y)) eqn:Hxy; simpl.
    + by rewrite IH.
    + rewrite Hyx. by rewrite IH.
Qed.
End SortFacts.

(** The model leaves the sort as free as the code does: every descending
    arrangement of the rows in which the rows without a value have kept
    their order is what the sort gives for some order of the rows that
    tie. *)
Lemma sort_desc_any_arrangement {A} `{EqDecision A} (grade : A -> cell)
  (l l' : list A) :
  l' ≡ₚ l ->
  descending grade l' ->
  List.filter (fun r => isna (grade r)) l'
  = List.filter (fun r => isna (grade r)) l ->
  exists kind, sort_desc grade kind l = l'.
Proof.
  revert l'. induction l as [|x l IH]; intros l' Hperm Hdesc Hnull.
  - apply Permutation_nil_r in Hperm as ->. by exists stable.
  - assert (x ∈ l') as Hx by (rewrite Hperm; left).
    apply list_elem_of_split_l in Hx as (l1 & l2 & -> & Hx).
    assert (l1 ++ l2 ≡ₚ l) as Hperm'.
    { rewrite <- Permutation_middle in Hperm.
      by apply Permutation_cons_inv in Hperm. }
    rewrite List.filter_app in Hnull. simpl in Hnull.
    assert (List.filter (fun r => isna (grade r)) (l1 ++ l2)
            = List.filter (fun r => isna (grade r)) l /\
            (isna (grade x) = true ->
             List.filter (fun y => negb (cell_ltb (grade x) (grade y))) l1 = []))
      as [Hnull' Hfirst].
    { rewrite List.filter_app. destruct (isna (grade x)) eqn:Hna; [|done].
      destruct (List.filter (fun r => isna (grade r)) l1) as [|y ys] eqn:E1.
      - simpl in Hnull. injection Hnull as ->. split; [done|]. intros _.
        destruct (List.filter
                    (fun y => negb (cell_ltb (grade x) (grade y))) l1)
          as [|z zs] eqn:E2; [done|].
        assert (z ∈ List.filter
                  (fun y => negb (cell_ltb (grade x) (grade y))) l1) as Hz
          by (rewrite E2; left).
        apply list_elem_of_In, filter_In in Hz as [Hz Hzx].
        assert (z ∈ List.filter (fun r => isna (grade r)) l1) as Hz'.
        { apply list_elem_of_In, filter_In. split; [done|].
          destruct (grade x); [|done|done]. by destruct (grade z). }
        rewrite E1 in Hz'. by apply elem_of_nil in Hz'.
      - simpl in Hnull. injection Hnull as -> _. destruct Hx.
        assert (x ∈ List.filter (fun r => isna (grade r)) l1) as Hin
          by (rewrite E1; left).
        by apply list_elem_of_In, filter_In in Hin as [?%list_elem_of_In _]. }
    destruct (IH (l1 ++ l2)%list Hperm' (descending_without grade _ _ _ Hdesc)
                Hnull') as [kind0 Hkind0].
    set (n := List.length
                (List.filter (fun y => negb (cell_ltb (grade x) (grade y))) l1)).
    exists (fun r s => if (List.length s =? List.length l)%nat
                       then n else kind0 r s).
    simpl. rewrite (sort_desc_kind_ext grade _ kind0).
    + rewrite Hkind0. unfold insert_desc.
      rewrite (Permutation_length Hperm'), Nat.eqb_refl.
      assert ((if isna (grade x) then 0%nat else n) = n) as ->.
      { destruct (isna (grade x)) eqn:Hna; [|done].
        unfold n. by rewrite Hfirst. }
      by apply insert_behind_place.
    + intros r s Hs. cbv beta.
      rewrite (proj2 (Nat.eqb_neq (List.length s) (List.length l))); [done|lia].
Qed.

(** ** First row per key *)

Section Dedupe.
Context {A K : Type} `{EqDecision K}.
Variable key : A -> K.
Variable grade : A -> cell.

Lemma keep_first_elem (seen : list K) (l : list A) (x : A) :
  x ∈ keep_first key seen l <-> (key x ∉ seen) /\ first_of key (key x) l = Some x.
Proof.
  revert seen. induction l as [|r l IH]; intros seen; simpl.
  - rewrite elem_of_nil. split; [done|by intros [_ ?]].
  - case_bool_decide as Hseen.
    + rewrite IH. destruct (decide (key r = key x)) as [E|E]; [|done].
      split; [|intros [Hx _]; congruence]. intros [Hx _]. congruence.
    + rewrite elem_of_cons, IH, not_elem_of_cons.
      destruct (decide (key r = key x)) as [E|E].
      * split.
        -- intros [->|[[Hne _] _]]; [done|congruence].
        -- intros [Hx [= ->]]. by left.
      * split.
        -- intros [->|[[_ Hx] Hf]]; [done|done].
        -- intros [Hx Hf]. right. done.
Qed.

Lemma keep_first_keys (seen : list K) (l : list A) (k : K) :
  k ∈ map key (keep_first key seen l) <-> (k ∉ seen) /\ k ∈ map key l.
Proof.
  revert seen. induction l as [|r l IH]; intros seen; simpl.
  - rewrite elem_of_nil. split; [done|by intros [_ ?]].
  - case_bool_decide as Hseen; simpl.
    + rewrite IH, elem_of_cons. split; [by intros [? ?]; auto|].
      intros [Hk [->|Hl]]; done.
    + rewrite !elem_of_cons, IH, not_elem_of_cons. split.
      * intros [->|[[? ?] ?]]; auto.
      * intros [Hk [->|Hl]]; [by left|].
        destruct (decide (k = key r)) as [->|Hne]; [by left|by right].
Qed.

Lemma keep_first_NoDup (seen : list K) (l : list A) :
  NoDup (map key (keep_first key seen l)).
Proof.
  revert seen. induction l as [|r l IH]; intros seen; simpl.
  - constructor.
  - case_bool_decide as Hseen; simpl; [apply IH|].
    constructor; [|apply IH].
    rewrite keep_first_keys, not_elem_of_cons. by intros [[? _] _].
Qed.

Lemma first_of_elem (k : K) (l : list A) (x : A) :
  first_of key k l = Some x -> x ∈ l /\ key x = k.
Proof.
  induction l as [|y l IH]; simpl; [done|].
  destruct (decide (key y = k)) as [E|E].
  - intros [= <-]. split; [by left|done].
  - intros [? ?]%IH. split; [by right|done].
Qed.
End Dedupe.

(** Whatever the order in which a descending sort leaves the rows that tie,
    the row kept for an id has the greatest grade of the rows with that id. *)
Section AnySort.
Context {A K : Type} `{EqDecision K}.
Variable key : A -> K.
Variable grade : A -> cell.
Variable sort : list A -> list A.
Hypothesis sort_elem : forall l x, x ∈ sort l <-> x ∈ l.
Hypothesis sort_descending : forall l, descending grade (sort l).

Lemma first_of_split (k : K) (l : list A) (r : A) :
  first_of key k l = Some r ->
  exists before after,
    l = (before ++ r :: after)%list /\ key r = k /\
    forall x, x ∈ before -> key x <> k.
Proof.
  revert r. induction l as [|x l IH]; intros r; simpl; [done|].
  destruct (decide (key x = k)) as [E|E].
  - intros [= <-]. exists [], l. split; [done|]. split; [done|].
    by intros ? ?%elem_of_nil.
  - intros (before & after & -> & Hk & Hb)%IH.
    exists (x :: before), after. split; [done|]. split; [done|].
    intros y [->|Hy]%elem_of_cons; auto.
Qed.

Lemma keep_first_any_sort (l : list A) (r : A) :
  r ∈ keep_first key [] (sort l) ->
  r ∈ l /\
  forall r', r' ∈ l -> key r' = key r -> cell_ge (grade r) (grade r').
Proof.
  intros [_ Hfirst]%keep_first_elem.
  apply first_of_split in Hfirst as (before & after & Hsort & _ & Hbefore).
  split.
  - apply sort_elem. rewrite Hsort. apply elem_of_app. right. by left.
  - intros r' Hr' Hk. apply sort_elem in Hr'. rewrite Hsort in Hr'.
    apply elem_of_app in Hr' as [Hr'|Hr'];
      [by destruct (Hbefore r' Hr')|].
    apply elem_of_cons in Hr' as [->|Hr']; [apply cell_ge_refl|].
    pose proof (sort_descending l) as Hdesc. unfold descending in Hdesc.
    rewrite Hsort in Hdesc.
    apply StronglySorted_app_1_r in Hdesc.
    apply StronglySorted_inv in Hdesc as [_ Hall].
    rewrite Forall_forall in Hall. by apply Hall.
Qed.
End AnySort.
(** ** Deduplicator: [drop_duplicate_research_ids] *)

Lemma map_sort_desc_elem {A K} (key : A -> K) (grade : A -> cell)
  (kind : tie_order A) (l : list A) (k : K) :
  k ∈ map key (sort_desc grade kind l) <-> k ∈ map key l.
Proof.
  rewrite !list_elem_of_In, !in_map_iff.
  split; intros (x & <- & Hx%list_elem_of_In); exists x; (split; [done|]);
    apply list_elem_of_In.
  - by apply sort_desc_elem in Hx.
  - by apply sort_desc_elem.
Qed.





(** The frame of the unit test keeps the rows graded 90 and 85, whatever the
    kind of sort: no two of its rows tie. *)
Lemma drop_duplicates_test (kind : tie_order (list cell)) :
  call (drop_duplicate_research_ids kind) duplicated_ids =
    Ok {| columns := ["ResearchId"; "Grade"];
          rows := [[num 1; num 90]; [num 2; num 85]] |}.
Proof. vm_compute. reflexivity. Qed.


(** A sort that leaves the rows that tie in their order keeps the attempt
    of Wednesday. *)
Lemma first_tied_attempt_kept_by_stable_sort :
  call (drop_duplicate_research_ids stable) tied_attempts =
    Ok {| columns := ["ResearchId"; "Grade"; "Day"];
          rows := [[num 1; num 60; CStr "Wednesday"];
                   [num 2; num 50; CStr "Monday"];
                   [num 3; num 50; CStr "Tuesday"]] |}.
Proof. vm_compute. reflexivity. Qed.

(** On numbers the order is the usual one, and a null is below any number. *)
Lemma cell_ge_num (a b : Qc) : cell_ge (CNum a) (CNum b) <-> (b <= a)%Qc.
Proof. unfold cell_ge. simpl. apply Qc_ltb_ge. Qed.

Lemma cell_ge_null (a : cell) : cell_ge a CNull.
Proof. by destruct a. Qed.

(** ** Reading a column after a cell-wise update *)

Lemma cells_labelled_map_where (label : string) (sel : string -> bool)
  (f : cell -> cell) (cols : list string) (r : list cell) :
  cells_labelled label cols (map_where sel f cols r)
  = map (fun x => if sel label then f x else x) (cells_labelled label cols r).
Proof.
  unfold cells_labelled.
  revert r. induction cols as [|c cols IH]; intros r; simpl; [by destruct r|].
  destruct r as [|x r]; simpl; [done|].
  destruct (String.eqb label c) eqn:E; simpl; [|apply IH].
  apply String.eqb_eq in E as <-. by rewrite IH.
Qed.

Lemma get_cell_map_where (label : string) (sel : string -> bool)
  (f : cell -> cell) (cols : list string) (r : list cell) :
  get_cell label cols (map_where sel f cols r)
  = match cells_labelled label cols r with
    | x :: _ => if sel label then f x else x
    | [] => CNull
    end.
Proof.
  unfold get_cell. rewrite cells_labelled_map_where.
  by destruct (cells_labelled label cols r).
Qed.

Lemma not_mixed_without_strings (l : list cell) :
  (forall x, x ∈ l -> is_str x = false) -> mixed l = false.
Proof.
  intros H. unfold mixed. apply andb_false_intro2.
  apply not_true_is_false. intros (x & Hx%list_elem_of_In & Hs)%existsb_exists.
  rewrite (H x Hx) in Hs. done.
Qed.


Lemma is_grade_q_Grade : is_grade_q "Grade" = true.
Proof. reflexivity. Qed.

Lemma is_grade_q_ResearchId : is_grade_q "ResearchId" = false.
Proof. reflexivity. Qed.

Section AfterCoercion.
Variable parse_number : string -> option Qc.



End AfterCoercion.

(** ** Missing columns *)



(** The names [process_dataframe] looks for are the cleaned ones: the quiz
    export calls its grade column "Grade/45.00", which the cleaning turns
    into "Grade". *)
Lemma exported_quiz_processed (kind : tie_order (list cell)) :
  map clean_column_name (columns exported_quiz)
  = ["ResearchId"; "State"; "Grade"; "Q1"] /\
  call (process_dataframe parse_integer kind) exported_quiz =
    Ok {| columns := ["ResearchId"; "Grade"; "Q1"];
          rows := [[num 1; num 40; num 5]; [num 2; CNum 0; CNum 0]] |}.
Proof. split; vm_compute; reflexivity. Qed.

Ltac decide_by_computation :=
  lazymatch goal with
  | |- ?a <> ?b => apply (bool_decide_eq_false_1 (a = b)); vm_compute; reflexivity
  | |- ?P => apply (bool_decide_eq_true_1 P); vm_compute; reflexivity
  end.

(** ** Cells by label *)

Lemma cells_where_nil (sel : string -> bool) (cols : list string) :
  cells_where sel cols [] = [].
Proof. by destruct cols. Qed.

Lemma cells_where_lookup (sel : string -> bool) (cols : list string)
  (r : list cell) (j : nat) (c : string) (y : cell) :
  cols !! j = Some c -> sel c = true -> r !! j = Some y ->
  y ∈ cells_where sel cols r.
Proof.
  revert r j. induction cols as [|c' cols IH]; intros r j Hc Hsel Hy; [done|].
  destruct r as [|x r]; [done|]. destruct j as [|j]; simpl in *.
  - injection Hc as ->. injection Hy as ->. rewrite Hsel. by left.
  - destruct (sel c'); [right|]; by eapply IH.
Qed.


Lemma cells_labelled_length (label : string) (cols : list string) (r : list cell) :
  List.length r = List.length cols ->
  List.length (cells_labelled label cols r) = count_occ string_dec cols label.
Proof.
  unfold cells_labelled.
  revert r. induction cols as [|c cols IH]; intros r Hlen; simpl.
  - by destruct r.
  - destruct r as [|x r]; [done|]. simpl in Hlen.
    destruct (string_dec c label) as [->|Hne].
    + rewrite String.eqb_refl. simpl. f_equal. apply IH. lia.
    + apply String.eqb_neq in Hne. rewrite String.eqb_sym, Hne. apply IH. lia.
Qed.

Lemma get_cell_single (label : string) (cols : list string) (r : list cell) :
  List.length r = List.length cols ->
  count_occ string_dec cols label = 1%nat ->
  cells_labelled label cols r = [get_cell label cols r].
Proof.
  intros Hlen Hc. pose proof (cells_labelled_length label cols r Hlen) as H.
  rewrite Hc in H. unfold get_cell.
  destruct (cells_labelled label cols r) as [|x [|y l]]; simpl in *; done.
Qed.

(** ** The order of the coercion, the zero-fill and the deduplication *)

Section OrderOfOperations.
Variable parse_number : string -> option Qc.
Variable kind : tie_order (list cell).

Lemma call_drop_unnecessary_columns (cols : list string) (d : DataFrame) :
  call (fun df => drop_unnecessary_columns df cols) d
  = Ok (drop_columns_frame cols d).
Proof.
  unfold call. by rewrite (drop_unnecessary_columns_run cols 0 [d] d eq_refl).
Qed.

(** The frame handed to the deduplication has a number in every Grade cell,
    and the result of [process_dataframe] is that of deduplicating it and
    dropping the two columns. *)
Lemma process_dataframe_stages (d d1 : DataFrame) :
  call (process_until_dedupe parse_number) d = Ok d1 ->
  (forall r x, r ∈ rows d1 -> x ∈ cells_labelled "Grade" (columns d1) r ->
               exists q, x = CNum q) /\
  call (process_dataframe parse_number kind) d
  = rbind (call (drop_duplicate_research_ids kind) d1) (fun d2 =>
      call (fun df => drop_unnecessary_columns df ["State"; "TimeTaken"]) d2).
Proof.
  rewrite call_process_until_dedupe, call_process_dataframe. intros Hco.
  unfold process_frame. rewrite Hco. simpl.
  rewrite call_drop_duplicate_research_ids. split.
  - apply coerced_frame_ok in Hco as [_ ->]. simpl. intros r x Hr Hx.
    apply list_elem_of_In, in_map_iff in Hr as (r0 & <- & _).
    rewrite cells_labelled_map_where, is_grade_q_Grade in Hx.
    apply list_elem_of_In, in_map_iff in Hx as (x0 & <- & _).
    destruct (coerce_cell_number parse_number x0) as (q & -> & _). by exists q.
  - destruct (dedupe_frame kind d1) as [d2|e]; simpl; [|done].
    by rewrite call_drop_unnecessary_columns.
Qed.
End OrderOfOperations.

(** C1, as the code has it.  [process_dataframe] fills the nulls of the Grade
    and Q columns with 0.0 before it deduplicates.  The frame handed to
    [drop_duplicate_research_ids] is the input with its names cleaned and its
    Grade and Q cells coerced: a cell that is missing, "-" or not a number
    has become 0.0, so that every Grade cell holds a number and a missing
    grade sorts as the grade 0.0.  What [process_dataframe] returns is that
    frame deduplicated, without the two columns it drops. *)
Theorem zero_fill_precedes_dedupe (parse_number : string -> option Qc)
  (kind : tie_order (list cell)) (d d1 : DataFrame) :
  call (process_until_dedupe parse_number) d = Ok d1 ->
  rows d1 = map (map_where is_grade_q (coerce_cell parse_number) (columns d1))
                (rows d) /\
  (forall x,
      x = CNull \/ x = CStr "-" \/
      (exists s, x = CStr s /\ parse_number s = None) ->
      coerce_cell parse_number x = CNum 0) /\
  (forall r x, r ∈ rows d1 -> x ∈ cells_labelled "Grade" (columns d1) r ->
               exists q, x = CNum q) /\
  call (process_dataframe parse_number kind) d
  = rbind (call (drop_duplicate_research_ids kind) d1) (fun d2 =>
      call (fun df => drop_unnecessary_columns df ["State"; "TimeTaken"]) d2).
Proof.
  intros Hd1.
  destruct (process_dataframe_stages parse_number kind d d1 Hd1)
    as [Hnum Hstages].
  split; [|split; [|split; [exact Hnum|exact Hstages]]].
  - rewrite call_process_until_dedupe in Hd1.
    by apply coerced_frame_ok in Hd1 as [_ ->].
  - intros x Hx. destruct (coerce_cell_number parse_number x) as (q & -> & Hq).
    by rewrite (Hq Hx).
Qed.

Lemma zero_fill_precedes_dedupe_witness :
  call (process_until_dedupe parse_integer) exported_quiz = Ok coerced_quiz /\
  call (process_dataframe parse_integer stable) exported_quiz
  = rbind (call (drop_duplicate_research_ids stable) coerced_quiz) (fun d2 =>
      call (fun df => drop_unnecessary_columns df ["State"; "TimeTaken"]) d2).
Proof.
  assert (H : call (process_until_dedupe parse_integer) exported_quiz
              = Ok coerced_quiz) by (vm_compute; reflexivity).
  split; [exact H|].
  exact (proj2 (proj2 (proj2
           (zero_fill_precedes_dedupe parse_integer stable
              exported_quiz coerced_quiz H)))).
Defined.

(** Of two attempts of a student, one without a grade followed by one graded
    0 (or -5), the order coerce, deduplicate, fill keeps the second, a null
    sorting last.  In [process_dataframe] the grade of the first attempt is
    0.0 when the deduplication runs: of the attempts of student 2 the first
    is kept, and of those of student 1, which tie, the first by a sort that
    leaves the rows that tie in their order.  Whatever that order the two
    results differ. *)
Lemma zero_fill_after_dedupe_differs :
  call (process_until_dedupe parse_integer) attempts
  = Ok {| columns := ["ResearchId"; "StartedOn"; "Grade"];
          rows := [[num 1; CStr "Monday"; num 0];
                   [num 1; CStr "Tuesday"; num 0];
                   [num 2; CStr "Wednesday"; num 0];
                   [num 2; CStr "Thursday"; num (-5)]] |} /\
  call (process_dataframe parse_integer stable) attempts
  = Ok {| columns := ["ResearchId"; "StartedOn"; "Grade"];
          rows := [[num 1; CStr "Monday"; num 0];
                   [num 2; CStr "Wednesday"; num 0]] |} /\
  (forall kind,
      call (process_coerce_dedupe_fill parse_integer kind) attempts
      = Ok {| columns := ["ResearchId"; "StartedOn"; "Grade"];
              rows := [[num 1; CStr "Tuesday"; num 0];
                       [num 2; CStr "Thursday"; num (-5)]] |}) /\
  (forall kind kind',
      call (process_dataframe parse_integer kind) attempts
      <> call (process_coerce_dedupe_fill parse_integer kind') attempts).
Proof.
  split; [decide_by_computation|]. split; [decide_by_computation|].
  assert (forall kind,
            call (process_coerce_dedupe_fill parse_integer kind) attempts
            = Ok {| columns := ["ResearchId"; "StartedOn"; "Grade"];
                    rows := [[num 1; CStr "Tuesday"; num 0];
                             [num 2; CStr "Thursday"; num (-5)]] |}) as Href.
  { intros kind. vm_compute. reflexivity. }
  split; [exact Href|].
  intros kind kind' H. rewrite Href in H. vm_compute in H.
  repeat match type of H with
         | context [kind ?r ?l] =>
             destruct (kind r l) as [|[|?]]; vm_compute in H
         end;
    discriminate.
Qed.

(** ** GradeStandardizer: [standardise_grade] *)

Section Standardise.
Variable parse_number : string -> option Qc.

Lemma call_standardise_grade (d : DataFrame) :
  call (standardise_grade parse_number) d = standardise_frame parse_number d.
Proof.
  unfold call, standardise_grade, standardise_frame.
  erewrite bind_ok by (by apply (copy_run 0 [d] d)).
  destruct (to_numeric_column parse_number "Grade" (fun x => x) d) as [d1|e] eqn:E;
    simpl.
  - erewrite bind_ok by (by eapply (inplace_ok 1 _ [d; d]); [reflexivity|exact E]).
    simpl. reflexivity.
  - erewrite bind_error
      by (by eapply (inplace_error 1 _ [d; d]); [reflexivity|exact E]).
    reflexivity.
Qed.
End Standardise.

Lemma Qcinv_pos (m : Qc) : (0 < m)%Qc -> (0 < / m)%Qc.
Proof.
  intros Hm. unfold Qclt in *.
  change (this (/ m)%Qc) with (Qred (/ this m)).
  change (this 0%Qc) with 0%Q in *.
  rewrite Qred_correct. by apply Qinv_lt_0_compat.
Qed.

Lemma Qc_100_nonneg : (0 <= Qc_of_Z 100)%Qc.
Proof. done. Qed.

Lemma scale_mono (m a b : Qc) :
  (0 < m)%Qc -> (a <= b)%Qc ->
  (a / m * Qc_of_Z 100 <= b / m * Qc_of_Z 100)%Qc.
Proof.
  intros Hm Hab. apply Qcmult_le_compat_r; [|apply Qc_100_nonneg].
  unfold Qcdiv. apply Qcmult_le_compat_r; [done|].
  apply Qclt_le_weak. by apply Qcinv_pos.
Qed.

Lemma scale_max (m : Qc) : (0 < m)%Qc -> (m / m * Qc_of_Z 100 = Qc_of_Z 100)%Qc.
Proof.
  intros Hm. unfold Qcdiv. rewrite Qcmult_inv_r.
  - apply Qcmult_1_l.
  - intros ->. by apply Qclt_not_eq in Hm.
Qed.

(** The maximum of a Series commutes with a monotone map of its numbers. *)
Lemma series_max_map (F : cell -> cell) (f : Qc -> Qc) (l : list cell) :
  (forall a, F (CNum a) = CNum (f a)) ->
  F CNull = CNull ->
  (forall s, F (CStr s) = CNull) ->
  (forall a b, (a <= b)%Qc -> (f a <= f b)%Qc) ->
  series_max (map F l) = F (series_max l).
Proof.
  intros Hnum Hnull Hstr Hmono.
  induction l as [|x l IH]; simpl; [by rewrite Hnull|].
  destruct x as [|a|s]; rewrite ?Hnull, ?Hstr, ?Hnum; [done| |done].
  rewrite IH. destruct (series_max l) as [|b|s] eqn:Hmax.
  - by rewrite Hnull, Hnum.
  - rewrite !Hnum. f_equal.
    destruct (Qc_ltb a b) eqn:Hab.
    + apply Qc_ltb_lt, Qclt_le_weak, Hmono in Hab.
      destruct (Qc_ltb (f a) (f b)) eqn:Hfab; [done|].
      apply Qc_ltb_ge in Hfab. by apply Qcle_antisym.
    + apply Qc_ltb_ge, Hmono in Hab. apply Qc_ltb_ge in Hab. by rewrite Hab.
  - by rewrite Hstr, Hnum.
Qed.

Lemma series_max_notna (l : list cell) :
  series_max (List.filter (fun x => negb (isna x)) l) = series_max l.
Proof.
  induction l as [|x l IH]; simpl; [done|].
  destruct x as [|a|s]; simpl; by rewrite ?IH.
Qed.

Lemma map_filter_comm {A B} (g : A -> B) (p : B -> bool) (l : list A) :
  map g (List.filter (fun x => p (g x)) l) = List.filter p (map g l).
Proof.
  induction l as [|x l IH]; simpl; [done|].
  destruct (p (g x)); simpl; by rewrite IH.
Qed.

Lemma get_cell_map_labelled (label : string) (f : cell -> cell)
  (cols : list string) (r : list cell) :
  f CNull = CNull ->
  get_cell label cols (map_labelled label f cols r) = f (get_cell label cols r).
Proof.
  intros Hf. unfold map_labelled. rewrite get_cell_map_where, String.eqb_refl.
  unfold get_cell. by destruct (cells_labelled label cols r).
Qed.

(** C6. On a frame with a Grade column of which at least one grade is a
    number, the greatest being strictly positive, [standardise_grade] drops
    the rows whose grade is null or does not parse, rescales the others, and
    the greatest grade of the frame it returns is exactly 100. *)
Theorem standardise_grade_max (parse_number : string -> option Qc)
  (d : DataFrame) (m : Qc) :
  count_occ string_dec (columns d) "Grade" = 1%nat ->
  series_max (map (to_numeric parse_number) (series "Grade" d)) = CNum m ->
  (0 < m)%Qc ->
  exists out,
    call (standardise_grade parse_number) d = Ok out /\
    columns out = columns d /\
    rows out =
      map (map_labelled "Grade"
             (fun x => mul_cell (div_cell x (CNum m)) (Qc_of_Z 100)) (columns d))
          (List.filter (fun r => negb (isna (get_cell "Grade" (columns d) r)))
             (map (map_labelled "Grade" (to_numeric parse_number) (columns d))
                  (rows d))) /\
    series_max (series "Grade" out) = CNum (Qc_of_Z 100).
Proof.
  intros Hcount Hmax Hm.
  rewrite call_standardise_grade.
  unfold standardise_frame, to_numeric_column. rewrite Hcount. simpl.
  set (cols := columns d) in *.
  set (g := get_cell "Grade" cols).
  set (rows1 := map (map_labelled "Grade" _ cols) (rows d)).
  set (rows2 := List.filter (fun r => negb (isna (g r))) rows1).
  assert (map g rows1 = map (to_numeric parse_number) (series "Grade" d)) as Hs1.
  { unfold rows1, series. rewrite !map_map. apply map_ext. intros r.
    by apply get_cell_map_labelled. }
  assert (series_max (series "Grade" {| columns := cols; rows := rows2 |}) = CNum m)
    as Hmax2.
  { unfold series. simpl. fold g. unfold rows2.
    rewrite (map_filter_comm g (fun x => negb (isna x))).
    by rewrite series_max_notna, Hs1. }
  rewrite Hmax2.
  assert ((0 = m)%Qc -> False) as Hm0.
  { intros <-. by apply Qclt_not_eq in Hm. }
  eexists. split; [reflexivity|]. split; [done|]. split; [done|].
  unfold series, map_column. simpl. fold g. rewrite map_map.
  rewrite (map_ext _ (fun r => mul_cell (div_cell (g r) (CNum m)) (Qc_of_Z 100)))
    by (intros r; by apply get_cell_map_labelled).
  rewrite <- (map_map g (fun x => mul_cell (div_cell x (CNum m)) (Qc_of_Z 100))).
  rewrite (series_max_map _ (fun a => a / m * Qc_of_Z 100)%Qc).
  - unfold series in Hmax2. simpl in Hmax2. fold g in Hmax2. rewrite Hmax2.
    cbn [mul_cell div_cell].
    rewrite bool_decide_eq_false_2 by (intros ->; by apply Hm0).
    unfold mul_cell. by rewrite scale_max.
  - intros a. cbn [mul_cell div_cell].
    by rewrite bool_decide_eq_false_2 by (intros ->; by apply Hm0).
  - done.
  - done.
  - intros a b. by apply scale_mono.
Qed.

Lemma standardise_grade_max_witness :
  exists out,
    call (standardise_grade parse_integer) raw_grades = Ok out /\
    series_max (series "Grade" out) = CNum (Qc_of_Z 100).
Proof.
  destruct (standardise_grade_max parse_integer raw_grades (Qc_of_Z 100)
              eq_refl eq_refl eq_refl) as (out & Hcall & _ & _ & Hmax).
  exists out. split; [exact Hcall|exact Hmax].
Defined.

(** The rows of the sample frame that remain, rescaled. *)
Lemma standardise_grade_sample :
  call (standardise_grade parse_integer) raw_grades
  = Ok {| columns := ["ResearchId"; "Grade"];
          rows := [[num 1; num 50]; [num 2; num 100]; [num 4; num 75]] |}.
Proof. decide_by_computation. Qed.
(** ** ThresholdFilter: [drop_rows_above_threshold] *)




Lemma zip_with_map_map {A B C D} (f : B -> C -> D) (g : A -> B) (h : A -> C)
  (l : list A) :
  zip_with f (map g l) (map h l) = map (fun x => f (g x) (h x)) l.
Proof. induction l as [|x l IH]; simpl; [done|]. by rewrite IH. Qed.

Lemma select_mask_filter {A} (p : A -> bool) (P : A -> Prop)
  `{forall x, Decision (P x)} (l : list A) :
  (forall x, p x = true <-> P x) ->
  select_mask (map p l) l = filter P l.
Proof.
  intros Hp. induction l as [|x l IH]; simpl; [done|].
  rewrite filter_cons. destruct (decide (P x)) as [Hx|Hx].
  - apply Hp in Hx. rewrite Hx. by rewrite IH.
  - destruct (p x) eqn:E; [by apply Hp in E|]. apply IH.
Qed.








(** ** Aggregator: [get_column_grade_and_average] *)

Lemma filter_none {A} (p : A -> bool) (l : list A) :
  (forall x, x ∈ l -> p x = false) -> List.filter p l = [].
Proof.
  induction l as [|x l IH]; intros H; simpl; [done|].
  rewrite (H x) by left. apply IH. intros y Hy. apply H. by right.
Qed.

Lemma filter_first {A} (p : A -> bool) (before after : list A) (x : A) :
  (forall y, y ∈ before -> p y = false) -> p x = true ->
  List.filter p (before ++ x :: after) = x :: List.filter p after.
Proof.
  intros Hbefore Hx. rewrite List.filter_app, (filter_none p before Hbefore).
  simpl. by rewrite Hx.
Qed.

Lemma Qc_of_Z_nonzero (z : Z) : z <> 0%Z -> Qc_of_Z z <> 0%Qc.
Proof. intros Hz H. apply Hz. by injection H. Qed.

(** [AVG] is the arithmetic mean of the values that are not NULL. *)
Lemma sql_avg_mean (l : list (option Qc)) (mean : Qc) :
  sql_avg l = Some mean ->
  (mean * Qc_of_Z (Z.of_nat (List.length (omap id l))) = Qc_sum (omap id l))%Qc.
Proof.
  unfold sql_avg, Qc_sum. destruct (omap id l) as [|x xs] eqn:E; [done|].
  intros [= <-]. rewrite Qcmult_comm. apply Qcmult_div_r.
  apply Qc_of_Z_nonzero. simpl. lia.
Qed.

Lemma sql_avg_some (l : list (option Qc)) (v : Qc) :
  Some v ∈ l -> exists mean, sql_avg l = Some mean.
Proof.
  intros Hv. unfold sql_avg.
  destruct (omap id l) as [|x xs] eqn:E; [|eauto].
  assert (v ∈ omap id l) as Hin by (apply list_elem_of_omap; eauto).
  rewrite E in Hin. by apply elem_of_nil in Hin.
Qed.

(** C8, as the code has it.  [get_column_grade_and_average] returns
    (None, None) when no record has the id; when the first record with the id
    holds a number in the column, it returns that number and the mean of the
    values of the column that are not NULL; for id 1 on the table of the unit
    test, where Q1 is 80, 90 and 75, it returns 80 and 245/3. *)
Theorem grade_and_average :
  (forall (research_id : option Qc) (table_name q_column : string)
          (connection : list (string * SqlTable))
          (t : list (option Qc * option Qc)),
      select_pairs "ResearchId" q_column table_name connection = Some t ->
      ((forall p, p ∈ t -> sql_eq (fst p) research_id = false) ->
       get_column_grade_and_average research_id table_name q_column connection
       = Ok (None, None)) /\
      (forall before rid v after,
          t = (before ++ (rid, Some v) :: after)%list ->
          sql_eq rid research_id = true ->
          (forall p, p ∈ before -> sql_eq (fst p) research_id = false) ->
          exists mean,
            get_column_grade_and_average research_id table_name q_column connection
            = Ok (Some v, Some mean) /\
            (mean * Qc_of_Z (Z.of_nat (List.length (omap id (map snd t))))
             = Qc_sum (omap id (map snd t)))%Qc)) /\
  get_column_grade_and_average (sql 1) "TestTable1" "Q1" [("TestTable1", TestTable1)]
  = Ok (Some (Qc_of_Z 80), Some (Q2Qc (245 # 3))).
Proof.
  split; [|decide_by_computation].
  intros research_id table_name q_column connection t Ht.
  unfold get_column_grade_and_average. rewrite Ht. split.
  - intros Hnone. rewrite filter_none; [done|].
    intros [rid v] Hp. by apply (Hnone (rid, v)).
  - intros before rid v after -> Hrid Hbefore.
    rewrite (filter_first _ before after (rid, Some v));
      [|intros [rid' v'] Hp; by apply (Hbefore (rid', v'))|done].
    simpl.
    destruct (sql_avg_some (map snd (before ++ (rid, Some v) :: after)) v)
      as [mean Hmean].
    { rewrite map_app. apply elem_of_app. right. simpl. by left. }
    exists mean. rewrite Hmean. split; [done|]. by apply sql_avg_mean.
Qed.

Lemma grade_and_average_witness :
  select_pairs "ResearchId" "Q2" "TestTable1" [("TestTable1", TestTable1)]
  = Some [(sql 1, sql 70); (sql 2, sql 85); (sql 3, sql 65)] /\
  exists mean,
    get_column_grade_and_average (sql 2) "TestTable1" "Q2" [("TestTable1", TestTable1)]
    = Ok (Some (Qc_of_Z 85), Some mean).
Proof.
  assert (Ht : select_pairs "ResearchId" "Q2" "TestTable1" [("TestTable1", TestTable1)]
               = Some [(sql 1, sql 70); (sql 2, sql 85); (sql 3, sql 65)])
    by reflexivity.
  split; [exact Ht|].
  destruct (proj1 grade_and_average (sql 2) "TestTable1" "Q2" _ _ Ht) as [_ H].
  destruct (H [(sql 1, sql 70)] (sql 2) (Qc_of_Z 85) [(sql 3, sql 65)]
              eq_refl eq_refl) as (mean & Hcall & _).
  - intros p Hp. apply list_elem_of_singleton in Hp as ->. reflexivity.
  - exists mean. exact Hcall.
Defined.

(** When the record of the student holds NULL in the column, the conversion
    of the value to a float raises. *)
Lemma null_grade_raises :
  select_pairs "ResearchId" "Q1" "T" [("T", TableWithNull)]
  = Some [(sql 1, None); (sql 2, sql 90)] /\
  get_column_grade_and_average (sql 1) "T" "Q1" [("T", TableWithNull)]
  = Error TypeError.
Proof. split; reflexivity. Qed.

(** ** ConsolidatedMatrixBuilder: [create_dataframe] *)

Lemma sql_eq_true (x y : option Qc) :
  sql_eq x y = true <-> exists a, x = Some a /\ y = Some a.
Proof.
  unfold sql_eq. destruct x as [a|], y as [b|];
    try (split; [done|by intros (? & ? & ?)]).
  rewrite bool_decide_eq_true. split.
  - intros ->. by exists b.
  - by intros (c & [= ->] & [= ->]).
Qed.

(** In a table with one row per id the join finds at most one row. *)
Lemma join_matches_unique (rid : option Qc) (t : list (option Qc * option Qc)) :
  NoDup (map fst t) ->
  List.filter (fun '(tid, _) => sql_eq rid tid) t = [] \/
  exists g, List.filter (fun '(tid, _) => sql_eq rid tid) t = [(rid, g)].
Proof.
  induction t as [|[tid g] t IH]; simpl; [by left|].
  intros [Hnotin Hnodup]%NoDup_cons.
  destruct (sql_eq rid tid) eqn:E; [|by apply IH].
  right. exists g. apply sql_eq_true in E as (a & -> & ->).
  f_equal. apply filter_none. intros [tid' g'] Hin.
  apply not_true_is_false. intros (b & [= <-] & ->)%sql_eq_true.
  apply Hnotin. apply list_elem_of_In, in_map_iff.
  exists (Some a, g'). split; [done|by apply list_elem_of_In].
Qed.

Lemma flat_map_single {A B} (h : A -> B) (l : list A) :
  flat_map (fun x => [h x]) l = map h l.
Proof. induction l as [|x l IH]; simpl; [done|]. by rewrite IH. Qed.

Lemma left_join_unique (acc : list (option Qc * list (option Qc)))
  (t : list (option Qc * option Qc)) :
  NoDup (map fst t) ->
  left_join acc t
  = map (fun '(rid, gs) => (rid, (gs ++ [grade_of rid t])%list)) acc.
Proof.
  intros Hnodup. unfold left_join.
  rewrite <- flat_map_single. apply flat_map_ext. intros [rid gs].
  unfold grade_of.
  by destruct (join_matches_unique rid t Hnodup) as [->|[g ->]].
Qed.

Lemma foldl_left_join (ts : list (list (option Qc * option Qc)))
  (acc : list (option Qc * list (option Qc))) :
  Forall (fun t => NoDup (map fst t)) ts ->
  foldl left_join acc ts
  = map (fun '(rid, gs) => (rid, (gs ++ map (grade_of rid) ts)%list)) acc.
Proof.
  intros Hts. revert acc. induction Hts as [|t ts Ht Hts IH]; intros acc; simpl.
  - rewrite <- (map_id acc) at 1. apply map_ext. intros [rid gs].
    by rewrite app_nil_r.
  - rewrite IH, (left_join_unique _ _ Ht), map_map. apply map_ext.
    intros [rid gs]. by rewrite <- app_assoc.
Qed.

Lemma grade_of_none (rid : option Qc) (t : list (option Qc * option Qc)) :
  canonical t -> rid <> None ->
  grade_of rid t = None <-> rid ∉ map fst t.
Proof.
  intros [Hnodup Hcells] Hrid. unfold grade_of.
  destruct rid as [a|]; [|done]. split.
  - intros Hnone Hin.
    apply list_elem_of_In, in_map_iff in Hin as ([tid g] & Htid & Hin).
    simpl in Htid. subst tid.
    assert ((Some a, g) ∈ List.filter (fun '(tid, _) => sql_eq (Some a) tid) t)
      as Hmatch.
    { apply list_elem_of_In, filter_In. split; [done|].
      apply sql_eq_true. by exists a. }
    destruct (List.filter _ t) as [|[tid' g'] l] eqn:E;
      [by apply elem_of_nil in Hmatch|].
    subst g'.
    assert (In (tid', None) t) as Hin'.
    { eapply proj1, filter_In. rewrite E. by left. }
    rewrite Forall_forall in Hcells.
    by destruct (Hcells _ (proj2 (list_elem_of_In _ _) Hin')) as [_ ?].
  - intros Hnotin. rewrite filter_none; [done|].
    intros [tid g] Hin. apply not_true_is_false.
    intros (b & [= <-] & ->)%sql_eq_true.
    apply Hnotin, list_elem_of_In, in_map_iff. exists (Some a, g).
    split; [done|by apply list_elem_of_In].
Qed.

Lemma select_all_Forall2 (names : list string) (db : list (string * SqlTable))
  (ts : list (list (option Qc * option Qc))) :
  select_all names db = Some ts <->
  Forall2 (fun name t => select_pairs "ResearchId" "Grade" name db = Some t)
          names ts.
Proof.
  revert ts. induction names as [|n names IH]; intros ts; simpl.
  - split; [by intros [= <-]; constructor|by intros ->%Forall2_nil_inv_l].
  - split.
    + destruct (select_pairs _ _ n db) as [t|] eqn:Et; [|done].
      destruct (select_all names db) as [ts'|]; [|done].
      intros [= <-]. constructor; [done|]. by apply IH.
    + intros (t & ts' & Ht & Hts & ->)%Forall2_cons_inv_l.
      rewrite Ht. apply IH in Hts. by rewrite Hts.
Qed.

(** C4, as the code has it.  When each of the six test tables has one row per
    ResearchId and no NULL ResearchId or Grade, the frame [create_dataframe]
    returns has one row per id, its ids are those of the six tables together,
    and the cell of a row under [Grade_<Test>] is null exactly when the id of
    the row is not in the table of that test. *)
Theorem consolidated_matrix (db : list (string * SqlTable)) :
  (forall name, name ∈ test_tables ->
     exists t, select_pairs "ResearchId" "Grade" name db = Some t /\ canonical t) ->
  exists out,
    create_dataframe db = Ok out /\
    NoDup (map fst (entries out)) /\
    (forall rid,
        rid ∈ map fst (entries out) <->
        exists name t, name ∈ test_tables /\
                       select_pairs "ResearchId" "Grade" name db = Some t /\
                       rid ∈ map fst t) /\
    (forall rid cells i name t,
        (rid, cells) ∈ entries out ->
        test_tables !! i = Some name ->
        select_pairs "ResearchId" "Grade" name db = Some t ->
        value_columns out !! i = Some ("Grade_" +:+ name) /\
        exists g, cells !! i = Some g /\ (g = None <-> rid ∉ map fst t)).
Proof.
  intros Hdb.
  assert (exists ts, Forall2 (fun name t =>
            select_pairs "ResearchId" "Grade" name db = Some t /\ canonical t)
            test_tables ts) as [ts Hts].
  { clear -Hdb. induction test_tables as [|n names IH].
    - exists []. constructor.
    - destruct (Hdb n) as (t & Ht & Hc); [by left|].
      destruct IH as [ts Hts]; [intros ? ?; apply Hdb; by right|].
      exists (t :: ts). by constructor. }
  assert (select_all test_tables db = Some ts) as Hsel.
  { apply select_all_Forall2. eapply Forall2_impl; [exact Hts|]. by intros ?? [? _]. }
  assert (Forall canonical ts) as Hcan.
  { eapply Forall2_Forall_r; [exact Hts|]. apply Forall_forall. by intros ??? [_ ?]. }
  assert (Forall (fun t => NoDup (map fst t)) ts) as Hnodup.
  { eapply Forall_impl; [exact Hcan|]. by intros ? [? _]. }
  unfold create_dataframe. rewrite Hsel. eexists. split; [reflexivity|].
  cbn [entries value_columns].
  set (ids := sql_distinct (concat (map (map fst) ts))).
  rewrite (foldl_left_join _ _ Hnodup).
  assert (map (fun '(rid, gs) => (rid, (gs ++ map (grade_of rid) ts)%list))
              (map (fun rid : option Qc => (rid, [])) ids)
          = map (fun rid => (rid, map (grade_of rid) ts)) ids) as ->
    by (by rewrite map_map).
  assert (forall rid, rid ∈ ids <-> exists t, t ∈ ts /\ rid ∈ map fst t) as Hids.
  { intros rid. unfold ids, sql_distinct.
    pose proof (keep_first_keys (@id (option Qc)) [] (concat (map (map fst) ts)) rid)
      as Hk.
    rewrite !map_id in Hk. rewrite Hk.
    rewrite !list_elem_of_In, in_concat. split.
    - intros [_ (l & (t & <- & Ht)%in_map_iff & Hl)]. exists t.
      by rewrite !list_elem_of_In.
    - intros (t & Ht & Hrid). split; [by intros []|].
      exists (map fst t). split; [apply in_map; by apply list_elem_of_In|].
      by apply list_elem_of_In. }
  split; [|split].
  - rewrite map_map. simpl. rewrite map_id. unfold ids, sql_distinct.
    pose proof (keep_first_NoDup (@id (option Qc)) [] (concat (map (map fst) ts)))
      as Hk.
    by rewrite map_id in Hk.
  - intros rid. rewrite map_map. simpl. rewrite map_id, Hids. split.
    + intros (t & Ht & Hrid).
      apply list_elem_of_lookup in Ht as [i Hi].
      destruct (Forall2_lookup_r _ _ _ _ _ Hts Hi) as (name & Hname & Hsel' & _).
      exists name, t. split; [by eapply list_elem_of_lookup_2|done].
    + intros (name & t & Hname & Hsel' & Hrid). exists t. split; [|done].
      apply list_elem_of_lookup in Hname as [i Hi].
      destruct (Forall2_lookup_l _ _ _ _ _ Hts Hi) as (t' & Ht' & Hsel'' & _).
      assert (t' = t) as -> by congruence. by eapply list_elem_of_lookup_2.
  - intros rid cells i name t Hin Hname Hsel'.
    apply list_elem_of_In, in_map_iff in Hin as (rid' & [= <- <-] & Hrid).
    apply list_elem_of_In, Hids in Hrid as (t0 & Ht0 & Hrid).
    destruct (Forall2_lookup_l _ _ _ _ _ Hts Hname) as (t' & Ht' & Hsel'' & Hc).
    assert (t' = t) as -> by congruence.
    split.
    { change (map (String.append "Grade_") test_tables)
        with (String.append "Grade_" <$> test_tables).
      by rewrite list_lookup_fmap, Hname. }
    exists (grade_of rid' t). split.
    + change (map (grade_of rid') ts) with (grade_of rid' <$> ts).
      by rewrite list_lookup_fmap, Ht'.
    + apply grade_of_none; [done|].
      rewrite Forall_forall in Hcan. destruct (Hcan t0 Ht0) as [_ Hcells].
      apply list_elem_of_In, in_map_iff in Hrid as (p & <- & Hp).
      rewrite Forall_forall in Hcells.
      by destruct (Hcells p (proj2 (list_elem_of_In _ _) Hp)) as [? _].
Qed.

Lemma consolidated_matrix_witness :
  exists out,
    create_dataframe six_tests = Ok out /\
    NoDup (map fst (entries out)) /\
    map fst (entries out) = [sql 1; sql 2; sql 3; sql 4].
Proof.
  destruct (consolidated_matrix six_tests) as (out & Hout & Hnodup & _).
  - intros name Hname. unfold test_tables in Hname.
    repeat (apply elem_of_cons in Hname as [->|Hname];
            [eexists; split; [reflexivity|decide_by_computation]|]).
    by apply elem_of_nil in Hname.
  - exists out. split; [exact Hout|]. split; [exact Hnodup|].
    assert (create_dataframe six_tests = Ok out -> 
            map fst (entries out) = [sql 1; sql 2; sql 3; sql 4]) as H.
    { intros [= <-]. reflexivity. }
    exact (H Hout).
Defined.

(** A row of a test table that holds an id without a grade: the id is in the
    table, and the cell of the consolidated frame is null. *)
Lemma null_grade_in_table :
  (forall name, name ∈ test_tables ->
     exists t, select_pairs "ResearchId" "Grade" name six_tests_null_grade = Some t /\
               NoDup (map fst t)) /\
  select_pairs "ResearchId" "Grade" "Test1" six_tests_null_grade
  = Some [(sql 1, sql 80); (sql 3, None)] /\
  create_dataframe six_tests_null_grade
  = Ok {| index_name := "ResearchId";
          value_columns := ["Grade_Test1"; "Grade_Test2"; "Grade_Test3";
                            "Grade_Test4"; "Grade_Mocktest"; "Grade_Sumtest"];
          entries :=
            [(sql 1, [sql 80; sql 75; sql 85; sql 90; sql 70; sql 88]);
             (sql 3, [None; None; None; None; None; None]);
             (sql 2, [None; sql 65; sql 50; sql 40; sql 45; sql 47]);
             (sql 4, [None; None; None; None; None; sql 30])] |}.
Proof.
  split; [|split; [reflexivity|decide_by_computation]].
  intros name Hname. unfold test_tables in Hname.
  repeat (apply elem_of_cons in Hname as [->|Hname];
          [eexists; split; [reflexivity|decide_by_computation]|]).
  by apply elem_of_nil in Hname.
Qed.

(** ** The cells of the processed frame *)

(** The frame [process_dataframe] returns holds a number in every cell of a
    Grade or Q column. *)
Section ProcessedCells.
Variable parse_number : string -> option Qc.
Variable kind : tie_order (list cell).

Lemma cells_where_drop_labelled (sel : string -> bool) (label : string)
  (cols : list string) (r : list cell) :
  sel label = false ->
  cells_where sel (List.filter (fun c => negb (String.eqb c label)) cols)
    (drop_labelled label cols r)
  = cells_where sel cols r.
Proof.
  intros Hsel. revert r. induction cols as [|c cols IH]; intros r; simpl.
  - by destruct r.
  - destruct r as [|x r]; simpl.
    + apply cells_where_nil.
    + destruct (String.eqb c label) eqn:E; simpl.
      * apply String.eqb_eq in E as ->. by rewrite Hsel.
      * by rewrite IH.
Qed.

Lemma drop_columns_frame_cells (sel : string -> bool) (labels : list string)
  (d : DataFrame) :
  (forall c, c ∈ labels -> sel c = false) ->
  map (cells_where sel (columns (drop_columns_frame labels d)))
      (rows (drop_columns_frame labels d))
  = map (cells_where sel (columns d)) (rows d).
Proof.
  unfold drop_columns_frame.
  revert d. induction labels as [|c labels IH]; intros d Hsel; simpl; [done|].
  rewrite IH by (intros c' Hc'; apply Hsel; by right).
  destruct (has_label c (columns d)); [|done].
  unfold drop_column. simpl. rewrite map_map. apply map_ext. intros r.
  apply cells_where_drop_labelled. apply Hsel. by left.
Qed.

Lemma process_dataframe_numbers (d out : DataFrame) (r : list cell) (x : cell) :
  call (process_dataframe parse_number kind) d = Ok out ->
  r ∈ rows out -> x ∈ cells_where is_grade_q (columns out) r ->
  exists q, x = CNum q.
Proof.
  rewrite call_process_dataframe. unfold process_frame.
  destruct (coerced_frame parse_number d) as [d1|e] eqn:Hco; simpl; [|done].
  destruct (dedupe_frame kind d1) as [d2|e] eqn:Hdd; simpl; [|done].
  intros [= <-] Hr Hx.
  assert (cells_where is_grade_q (columns (drop_columns_frame ["State"; "TimeTaken"] d2)) r
          ∈ map (cells_where is_grade_q (columns d2)) (rows d2)) as Hcells.
  { rewrite <- (drop_columns_frame_cells is_grade_q ["State"; "TimeTaken"] d2).
    - apply list_elem_of_In, in_map. by apply list_elem_of_In.
    - intros c Hc. repeat (apply elem_of_cons in Hc as [->|Hc]; [reflexivity|]).
      by apply elem_of_nil in Hc. }
  apply list_elem_of_In, in_map_iff in Hcells as (r2 & Heq & Hr2).
  rewrite <- Heq in Hx. clear Heq Hr.
  (* the rows of [d2] are rows of [d1] *)
  unfold dedupe_frame, sort_values_desc in Hdd.
  destruct (count_occ _ _ _) as [|[|n]]; [done| |done].
  destruct (mixed _); [done|]. simpl in Hdd.
  unfold drop_duplicates_first in Hdd. simpl in Hdd.
  destruct (has_label _ _); [|done]. injection Hdd as <-. simpl in *.
  apply list_elem_of_In, keep_first_elem in Hr2 as [_ Hr2].
  apply first_of_elem in Hr2 as [Hr2 _]. apply sort_desc_elem in Hr2.
  apply coerced_frame_ok in Hco as [_ ->]. simpl in *.
  apply list_elem_of_In, in_map_iff in Hr2 as (r0 & <- & _).
  clear -Hx. revert r0 Hx.
  induction (map clean_column_name (columns d)) as [|c cols IH]; intros r0 Hx.
  - by destruct r0; apply elem_of_nil in Hx.
  - destruct r0 as [|x0 r0]; simpl in Hx; [by apply elem_of_nil in Hx|].
    destruct (is_grade_q c); [|by apply (IH r0)].
    apply elem_of_cons in Hx as [->|Hx]; [|by apply (IH r0)].
    destruct (coerce_cell_number parse_number x0) as (q & -> & _). by exists q.
Qed.
End ProcessedCells.

(** * Properties of the other methods *)

(** ** Loops of in-place updates *)

Lemma for_each_inplace_run (step : string -> DataFrame -> result DataFrame)
  (cols : list string) (l : nat) (h : list DataFrame) (d : DataFrame) :
  h !! l = Some d ->
  for_each cols (fun c => inplace l (step c)) h
  = (match (fold_columns step cols d).1 with
     | None => Ok tt
     | Some e => Error e
     end, <[l := (fold_columns step cols d).2]> h).
Proof.
  revert h d. induction cols as [|c cols IH]; intros h d Hl; simpl.
  - unfold ret. by rewrite list_insert_id.
  - destruct (step c d) as [d1|e] eqn:E; simpl.
    + erewrite bind_ok by (by eapply inplace_ok).
      rewrite (IH _ d1) by (by eapply lookup_overwritten).
      by rewrite overwrite_twice.
    + erewrite bind_error by (by eapply inplace_error).
      by rewrite list_insert_id.
Qed.

Lemma fold_columns_app (step : string -> DataFrame -> result DataFrame)
  (before rest : list string) (d : DataFrame) :
  fold_columns step (before ++ rest)%list d
  = match fold_columns step before d with
    | (None, d') => fold_columns step rest d'
    | (Some e, d') => (Some e, d')
    end.
Proof.
  revert d. induction before as [|c before IH]; intros d; simpl; [done|].
  destruct (step c d) as [d1|e]; [apply IH|done].
Qed.

Lemma map_columns_nil (f : cell -> cell) (d : DataFrame) :
  map_columns [] f d = d.
Proof.
  destruct d as [cs rs]. unfold map_columns. simpl. f_equal.
  rewrite <- (map_id rs) at 2. apply map_ext. intros r.
  apply map_where_none. by intros c _.
Qed.

Lemma map_columns_cons (c : string) (cols : list string) (f : cell -> cell)
  (d : DataFrame) :
  (forall x, f (f x) = f x) ->
  map_columns cols f (map_column c f d) = map_columns (c :: cols) f d.
Proof.
  intros Hf. unfold map_columns, map_column, map_labelled. simpl. f_equal.
  rewrite map_map. apply map_ext. intros r.
  rewrite (map_where_union _ _ f) by exact Hf.
  apply map_where_ext_in. intros c' _.
  destruct (String.eqb c c') eqn:Ecc'; simpl.
  - apply String.eqb_eq in Ecc' as ->. symmetry.
    apply bool_decide_eq_true_2. by left.
  - apply String.eqb_neq in Ecc'.
    apply bool_decide_ext. rewrite elem_of_cons.
    split; [by right | by intros [?|?]].
Qed.

(** A loop whose update of a column is [f] on its cells, [f] idempotent. *)
Lemma fold_columns_map (step : string -> DataFrame -> result DataFrame)
  (f : cell -> cell) (cols : list string) (d : DataFrame) :
  (forall x, f (f x) = f x) ->
  (forall c d', c ∈ cols -> columns d' = columns d ->
                step c d' = Ok (map_column c f d')) ->
  fold_columns step cols d = (None, map_columns cols f d).
Proof.
  intros Hf. revert d. induction cols as [|c cols IH]; intros d Hstep; simpl.
  - by rewrite map_columns_nil.
  - rewrite Hstep by (done || by left).
    rewrite IH.
    + by rewrite map_columns_cons.
    + intros c' d' Hc' Hd'. apply Hstep; [by right|done].
Qed.

Lemma to_numeric_idempotent (parse_number : string -> option Qc) (x : cell) :
  to_numeric parse_number (to_numeric parse_number x) = to_numeric parse_number x.
Proof. destruct x as [|q|s]; simpl; try done. by destruct (parse_number s). Qed.

Lemma to_numeric_not_str (parse_number : string -> option Qc) (x : cell) :
  is_str (to_numeric parse_number x) = false.
Proof. destruct x as [|q|s]; simpl; try done. by destruct (parse_number s). Qed.

Lemma to_numeric_column_ok (parse_number : string -> option Qc) (c : string)
  (d : DataFrame) :
  count_occ string_dec (columns d) c = 1%nat ->
  to_numeric_column parse_number c (fun x => x) d
  = Ok (map_column c (to_numeric parse_number) d).
Proof. intros H. unfold to_numeric_column. by rewrite H. Qed.

Lemma fold_columns_to_numeric (parse_number : string -> option Qc)
  (cols : list string) (d : DataFrame) :
  (forall c, c ∈ cols -> count_occ string_dec (columns d) c = 1%nat) ->
  fold_columns (fun c => to_numeric_column parse_number c (fun x => x)) cols d
  = (None, map_columns cols (to_numeric parse_number) d).
Proof.
  intros Hcols. apply fold_columns_map.
  - apply to_numeric_idempotent.
  - intros c d' Hc Hd'. apply to_numeric_column_ok. rewrite Hd'. by apply Hcols.
Qed.

(** ** [replace_nan_with_zero] *)

(** X1. [replace_nan_with_zero] works on the frame it is given and returns
    that same frame: afterwards the caller's frame has the same labels and
    the same shape, a 0 in the place of every null, every other cell as it
    was, and so no null at all. *)
Theorem replace_nan_with_zero_in_place (h : list DataFrame) (df : nat)
  (d : DataFrame) :
  h !! df = Some d ->
  exists out,
    replace_nan_with_zero df h = (Ok df, <[df := out]> h) /\
    columns out = columns d /\
    Forall2 (Forall2 (fun x y => if isna x then y = CNum 0 else y = x))
            (rows d) (rows out) /\
    (forall r x, r ∈ rows out -> x ∈ r -> isna x = false).
Proof.
  intros Hdf. exists (fillna_frame d). split; [|split; [done|split]].
  - unfold replace_nan_with_zero.
    by erewrite bind_ok by (by eapply inplace_ok).
  - simpl. apply Forall2_fmap_r, Forall_Forall2_diag, Forall_forall.
    intros r _. apply Forall2_fmap_r, Forall_Forall2_diag, Forall_forall.
    intros x _. by destruct x.
  - simpl. intros r x Hr Hx.
    apply list_elem_of_In, in_map_iff in Hr as (r0 & <- & _).
    apply list_elem_of_In, in_map_iff in Hx as (x0 & <- & _).
    by destruct x0.
Qed.

(** The frame of the unit test, the second grade missing. *)
Lemma replace_nan_with_zero_in_place_witness :
  [ {| columns := ["Grade_Test1"]; rows := [[num 80]; [CNull]; [num 60]] |} ] !! 0%nat
  = Some {| columns := ["Grade_Test1"]; rows := [[num 80]; [CNull]; [num 60]] |} /\
  exists out,
    replace_nan_with_zero 0
      [ {| columns := ["Grade_Test1"]; rows := [[num 80]; [CNull]; [num 60]] |} ]
    = (Ok 0%nat, [out]) /\
    forall r x, r ∈ rows out -> x ∈ r -> isna x = false.
Proof.
  split; [reflexivity|].
  destruct (replace_nan_with_zero_in_place
              [ {| columns := ["Grade_Test1"];
                   rows := [[num 80]; [CNull]; [num 60]] |} ] 0 _ eq_refl)
    as (out & Hrun & _ & _ & Hnull).
  exists out. split; [exact Hrun|exact Hnull].
Defined.

(** ** [convert_columns_to_numeric] *)

Lemma convert_columns_to_numeric_run (parse_number : string -> option Qc)
  (cols : list string) (l : nat) (h : list DataFrame) (d : DataFrame) :
  h !! l = Some d ->
  let step := fun c => to_numeric_column parse_number c (fun x => x) in
  convert_columns_to_numeric parse_number l cols h
  = (match (fold_columns step cols d).1 with
     | None => Ok l
     | Some e => Error e
     end, <[l := (fold_columns step cols d).2]> h).
Proof.
  intros Hl step. unfold convert_columns_to_numeric, bind.
  pose proof (for_each_inplace_run step cols l h d Hl) as Hloop.
  unfold step in Hloop at 1. cbv beta in Hloop. rewrite Hloop.
  by destruct (fold_columns step cols d).1.
Qed.

(** X2. When each of the listed labels names one column of the frame,
    [convert_columns_to_numeric] converts in place and returns the frame it
    was given: the cells of the listed columns are what [to_numeric] makes of
    them, none of them a string, and the cells of the other columns are as
    they were. *)
Theorem convert_columns_to_numeric_converts (parse_number : string -> option Qc)
  (h : list DataFrame) (df : nat) (d : DataFrame) (cols : list string) :
  h !! df = Some d ->
  (forall c, c ∈ cols -> count_occ string_dec (columns d) c = 1%nat) ->
  exists out,
    convert_columns_to_numeric parse_number df cols h = (Ok df, <[df := out]> h) /\
    columns out = columns d /\
    List.length (rows out) = List.length (rows d) /\
    (forall i j r x c,
        rows d !! i = Some r -> r !! j = Some x -> columns d !! j = Some c ->
        exists r' y,
          rows out !! i = Some r' /\ r' !! j = Some y /\
          (c ∈ cols -> y = to_numeric parse_number x /\ is_str y = false) /\
          (c ∉ cols -> y = x)).
Proof.
  intros Hdf Hcols. exists (map_columns cols (to_numeric parse_number) d).
  split; [|split; [done|split]].
  - rewrite (convert_columns_to_numeric_run _ _ _ _ _ Hdf).
    by rewrite fold_columns_to_numeric.
  - simpl. by rewrite length_map.
  - intros i j r x c Hr Hx Hc. simpl.
    exists (map_where (fun c => bool_decide (c ∈ cols)) (to_numeric parse_number)
              (columns d) r).
    change (map ?f ?l) with (f <$> l). rewrite list_lookup_fmap, Hr. simpl.
    rewrite map_where_lookup, Hc, Hx. simpl.
    eexists. split; [done|]. split; [done|]. split; intros Hin.
    + rewrite bool_decide_eq_true_2 by done.
      split; [done|apply to_numeric_not_str].
    + by rewrite bool_decide_eq_false_2.
Qed.

(** The frame of the unit test: "invalid" does not parse and becomes null. *)
Lemma convert_columns_to_numeric_converts_witness :
  exists out,
    convert_columns_to_numeric parse_integer 0 ["Grade"]
      [ {| columns := ["ResearchId"; "Grade"];
           rows := [[num 1; CStr "80"]; [num 2; CStr "invalid"]] |} ]
    = (Ok 0%nat, [out]) /\
    columns out = ["ResearchId"; "Grade"].
Proof.
  destruct (convert_columns_to_numeric_converts parse_integer
              [ {| columns := ["ResearchId"; "Grade"];
                   rows := [[num 1; CStr "80"]; [num 2; CStr "invalid"]] |} ]
              0 _ ["Grade"] eq_refl) as (out & Hrun & Hcols & _).
  - intros c Hc. apply list_elem_of_singleton in Hc as ->. reflexivity.
  - exists out. split; [exact Hrun|exact Hcols].
Defined.

(** X3. When a listed label is not a column of the frame,
    [convert_columns_to_numeric] raises [KeyError] at that label, and the
    columns listed before it stay converted in the caller's frame: the loop
    has worked in place up to there. *)
Theorem convert_columns_to_numeric_stops (parse_number : string -> option Qc)
  (h : list DataFrame) (df : nat) (d : DataFrame)
  (before after : list string) (col : string) :
  h !! df = Some d ->
  (forall c, c ∈ before -> count_occ string_dec (columns d) c = 1%nat) ->
  col ∉ columns d ->
  convert_columns_to_numeric parse_number df (before ++ col :: after)%list h
  = (Error KeyError,
     <[df := map_columns before (to_numeric parse_number) d]> h).
Proof.
  intros Hdf Hbefore Hcol.
  rewrite (convert_columns_to_numeric_run _ _ _ _ _ Hdf).
  rewrite fold_columns_app, fold_columns_to_numeric by done. simpl.
  unfold to_numeric_column. simpl.
  apply count_occ_zero_iff in Hcol. by rewrite Hcol.
Qed.

(** "Grade" is converted before the missing "Total" is met. *)
Lemma convert_columns_to_numeric_stops_witness :
  convert_columns_to_numeric parse_integer 0 ["Grade"; "Total"; "Q1"]
    [ {| columns := ["Grade"; "Q1"]; rows := [[CStr "80"; CStr "5"]] |} ]
  = (Error KeyError,
     [ {| columns := ["Grade"; "Q1"]; rows := [[num 80; CStr "5"]] |} ]).
Proof.
  refine (convert_columns_to_numeric_stops parse_integer
            [ {| columns := ["Grade"; "Q1"]; rows := [[CStr "80"; CStr "5"]] |} ]
            0 _ ["Grade"] ["Q1"] "Total" eq_refl _ _).
  - intros c Hc. apply list_elem_of_singleton in Hc as ->. reflexivity.
  - decide_by_computation.
Defined.

(** ** [drop_unnecessary_columns] *)

Lemma cells_where_ext_in (s1 s2 : string -> bool) (cols : list string)
  (r : list cell) :
  (forall c, c ∈ cols -> s1 c = s2 c) ->
  cells_where s1 cols r = cells_where s2 cols r.
Proof.
  revert r. induction cols as [|c cols IH]; intros r H; simpl; [done|].
  destruct r as [|x r]; [done|].
  rewrite (H c) by left.
  rewrite (IH r) by (intros c' Hc'; apply H; by right). done.
Qed.

Lemma cells_where_all (sel : string -> bool) (cols : list string) (r : list cell) :
  (forall c, c ∈ cols -> sel c = true) ->
  List.length r = List.length cols ->
  cells_where sel cols r = r.
Proof.
  revert r. induction cols as [|c cols IH]; intros r H Hlen.
  - by destruct r.
  - destruct r as [|x r]; [done|]. simpl in *.
    rewrite (H c) by left. f_equal. apply IH; [|lia].
    intros c' Hc'. apply H. by right.
Qed.

Lemma cells_where_length (sel : string -> bool) (cols : list string)
  (r : list cell) :
  List.length r = List.length cols ->
  List.length (cells_where sel cols r) = List.length (List.filter sel cols).
Proof.
  revert r. induction cols as [|c cols IH]; intros r Hlen.
  - by destruct r.
  - destruct r as [|x r]; [done|]. simpl in *.
    destruct (sel c); simpl; rewrite IH by lia; done.
Qed.

Lemma cells_where_drop_labelled_and (sel : string -> bool) (label : string)
  (cols : list string) (r : list cell) :
  cells_where sel (List.filter (fun c => negb (String.eqb c label)) cols)
    (drop_labelled label cols r)
  = cells_where (fun c => negb (String.eqb c label) && sel c) cols r.
Proof.
  revert r. induction cols as [|c cols IH]; intros r; simpl.
  - by destruct r.
  - destruct r as [|x r]; simpl.
    + apply cells_where_nil.
    + destruct (String.eqb c label) eqn:E; simpl; [apply IH|].
      by rewrite IH.
Qed.

Lemma cells_where_cells_where (sel keep : string -> bool) (cols : list string)
  (r : list cell) :
  cells_where sel (List.filter keep cols) (cells_where keep cols r)
  = cells_where (fun c => keep c && sel c) cols r.
Proof.
  revert r. induction cols as [|c cols IH]; intros r; simpl; [done|].
  destruct r as [|x r]; simpl.
  - apply cells_where_nil.
  - destruct (keep c); simpl; by rewrite IH.
Qed.

Lemma drop_labelled_where (label : string) (cols : list string) (r : list cell) :
  List.length r = List.length cols ->
  drop_labelled label cols r
  = cells_where (fun c => negb (String.eqb c label)) cols r.
Proof.
  revert r. induction cols as [|c cols IH]; intros r Hlen.
  - by destruct r.
  - destruct r as [|x r]; [done|]. simpl in *.
    destruct (String.eqb c label); simpl; rewrite IH by lia; done.
Qed.

Lemma filter_filter_andb {A} (p q : A -> bool) (l : list A) :
  List.filter p (List.filter q l) = List.filter (fun x => q x && p x) l.
Proof.
  induction l as [|x l IH]; simpl; [done|].
  destruct (q x); simpl; [|done]. destruct (p x); by rewrite IH.
Qed.

Lemma filter_ext_elem_of {A} (p q : A -> bool) (l : list A) :
  (forall x, x ∈ l -> p x = q x) -> List.filter p l = List.filter q l.
Proof.
  intros H. apply filter_ext_in. intros x Hx. apply H. by apply list_elem_of_In.
Qed.

Lemma filter_all {A} (p : A -> bool) (l : list A) :
  (forall x, x ∈ l -> p x = true) -> List.filter p l = l.
Proof.
  induction l as [|x l IH]; intros H; simpl; [done|].
  rewrite (H x) by left. f_equal. apply IH. intros y Hy. apply H. by right.
Qed.

Lemma rectangular_drop_column (c : string) (d : DataFrame) :
  rectangular d -> rectangular (drop_column c d).
Proof.
  unfold rectangular, drop_column. simpl. intros H.
  apply Forall_forall. intros r Hr%list_elem_of_In.
  apply in_map_iff in Hr as (r0 & <- & Hr0%list_elem_of_In).
  rewrite Forall_forall in H. specialize (H r0 Hr0).
  rewrite drop_labelled_where by done. by apply cells_where_length.
Qed.

Lemma without_columns_drop_column (c : string) (cols : list string)
  (d : DataFrame) :
  without_columns cols (drop_column c d) = without_columns (c :: cols) d.
Proof.
  unfold without_columns, drop_column. simpl. f_equal.
  - rewrite filter_filter_andb. apply filter_ext. intros c'.
    by rewrite negb_orb.
  - rewrite map_map. apply map_ext. intros r.
    rewrite cells_where_drop_labelled_and. apply cells_where_ext_in.
    intros c' _. by rewrite negb_orb.
Qed.

Lemma without_columns_absent (c : string) (cols : list string) (d : DataFrame) :
  has_label c (columns d) = false ->
  without_columns cols d = without_columns (c :: cols) d.
Proof.
  intros Hc%has_label_false. unfold without_columns. simpl.
  assert (forall c', c' ∈ columns d ->
            negb (has_label c' cols)
            = negb (String.eqb c' c || has_label c' cols)) as Hsel.
  { intros c' Hc'. destruct (String.eqb c' c) eqn:E; [|done].
    apply String.eqb_eq in E as ->. done. }
  f_equal.
  - by apply filter_ext_elem_of.
  - apply map_ext. intros r. by apply cells_where_ext_in.
Qed.

(** The loop of [drop_unnecessary_columns] in closed form. *)
Lemma drop_columns_frame_without (cols : list string) (d : DataFrame) :
  rectangular d -> drop_columns_frame cols d = without_columns cols d.
Proof.
  unfold drop_columns_frame.
  revert d. induction cols as [|c cols IH]; intros d Hrect; simpl.
  - destruct d as [cs rs]. unfold without_columns. simpl. f_equal.
    + symmetry. by apply filter_all.
    + rewrite <- (map_id rs) at 1. apply map_ext_in.
      intros r Hr%list_elem_of_In. symmetry. apply cells_where_all; [done|].
      unfold rectangular in Hrect. rewrite Forall_forall in Hrect.
      by apply Hrect.
  - destruct (has_label c (columns d)) eqn:Hc.
    + rewrite IH by (by apply rectangular_drop_column).
      apply without_columns_drop_column.
    + rewrite IH by done. by apply without_columns_absent.
Qed.



(** X4. [drop_unnecessary_columns] never raises: a listed label that is not
    a column of the frame is passed over.  It works on the frame it is given
    and returns it; what stays are the columns whose label is not listed, in
    their order and with their cells, so that no listed label is left. *)
Theorem drop_unnecessary_columns_drops (h : list DataFrame) (df : nat)
  (d : DataFrame) (columns_to_drop : list string) :
  h !! df = Some d ->
  rectangular d ->
  drop_unnecessary_columns df columns_to_drop h
  = (Ok df, <[df := without_columns columns_to_drop d]> h) /\
  (forall c, c ∈ columns (without_columns columns_to_drop d) <->
             c ∈ columns d /\ c ∉ columns_to_drop).
Proof.
  intros Hdf Hrect. split.
  - rewrite (drop_unnecessary_columns_run _ _ _ _ Hdf).
    by rewrite drop_columns_frame_without.
  - intros c. unfold without_columns. simpl.
    rewrite list_elem_of_In, filter_In, <- list_elem_of_In.
    rewrite negb_true_iff, has_label_false. done.
Qed.

(** The frame of the unit test; "TimeTaken" is not one of its columns. *)
Lemma drop_unnecessary_columns_drops_witness :
  drop_unnecessary_columns 0 ["State"; "TimeTaken"]
    [ {| columns := ["ResearchId"; "State"; "Grade"];
         rows := [[num 1; CStr "Finished"; num 7]] |} ]
  = (Ok 0%nat,
     [ {| columns := ["ResearchId"; "Grade"]; rows := [[num 1; num 7]] |} ]).
Proof.
  refine (proj1 (drop_unnecessary_columns_drops
            [ {| columns := ["ResearchId"; "State"; "Grade"];
                 rows := [[num 1; CStr "Finished"; num 7]] |} ]
            0 _ ["State"; "TimeTaken"] eq_refl _)).
  repeat constructor.
Defined.

(** ** The frame [process_dataframe] returns *)

Section Processed.
Variable parse_number : string -> option Qc.
Variable kind : tie_order (list cell).

Lemma dedupe_frame_inv (d1 d2 : DataFrame) :
  dedupe_frame kind d1 = Ok d2 ->
  count_occ string_dec (columns d1) "Grade" = 1%nat /\
  has_label "ResearchId" (columns d1) = true /\
  d2 = {| columns := columns d1;
          rows := keep_first (cells_labelled "ResearchId" (columns d1)) []
                    (sort_desc (get_cell "Grade" (columns d1)) kind (rows d1)) |}.
Proof.
  unfold dedupe_frame, sort_values_desc.
  destruct (count_occ _ _ _) as [|[|n]]; [done| |done].
  destruct (mixed _); [done|]. simpl.
  unfold drop_duplicates_first. simpl.
  destruct (has_label _ _); [|done]. by intros [= <-].
Qed.

(** The three stages of [process_dataframe], on the frame. *)
Lemma process_frame_ok (d out : DataFrame) :
  process_frame parse_number kind d = Ok out ->
  let cols := map clean_column_name (columns d) in
  count_occ string_dec cols "Grade" = 1%nat /\
  has_label "ResearchId" cols = true /\
  out = drop_columns_frame ["State"; "TimeTaken"]
          {| columns := cols;
             rows := keep_first (cells_labelled "ResearchId" cols) []
                       (sort_desc (get_cell "Grade" cols) kind
                          (map (map_where is_grade_q (coerce_cell parse_number) cols)
                               (rows d))) |}.
Proof.
  unfold process_frame.
  destruct (coerced_frame parse_number d) as [d1|e] eqn:Hco; simpl; [|done].
  destruct (dedupe_frame kind d1) as [d2|e] eqn:Hdd; simpl; [|done].
  intros [= <-]. apply coerced_frame_ok in Hco as [_ ->].
  apply dedupe_frame_inv in Hdd as (Hgrade & Hid & ->). done.
Qed.


Lemma rectangular_map_rows (f : list cell -> list cell) (cols : list string)
  (rs : list (list cell)) :
  (forall r, List.length (f r) = List.length r) ->
  rectangular {| columns := cols; rows := rs |} ->
  rectangular {| columns := cols; rows := map f rs |}.
Proof.
  intros Hf. unfold rectangular. simpl. rewrite !Forall_forall.
  intros H r Hr%list_elem_of_In. apply in_map_iff in Hr as (r0 & <- & Hr0).
  rewrite Hf. by apply H, list_elem_of_In.
Qed.

Lemma rectangular_subset (cols : list string) (rs rs' : list (list cell)) :
  (forall r, r ∈ rs' -> r ∈ rs) ->
  rectangular {| columns := cols; rows := rs |} ->
  rectangular {| columns := cols; rows := rs' |}.
Proof.
  unfold rectangular. simpl. rewrite !Forall_forall. intros Hsub H r Hr. auto.
Qed.

Lemma kept_row_elem (cols : list string) (rs : list (list cell)) (r : list cell) :
  r ∈ keep_first (cells_labelled "ResearchId" cols) []
        (sort_desc (get_cell "Grade" cols) kind rs) ->
  r ∈ rs.
Proof.
  intros [_ Hr]%keep_first_elem.
  apply first_of_elem in Hr as [Hr _]. by apply sort_desc_elem in Hr.
Qed.

End Processed.



(** X6. The frame [process_dataframe] returns has one row per ResearchId of
    the input, no two of its rows sharing the id, and each of its rows is a
    row of the input with its Grade and Q cells coerced and without the cells
    of the dropped columns: no row is made up. *)
Theorem process_dataframe_one_row_per_id (parse_number : string -> option Qc)
  (kind : tie_order (list cell)) (d out : DataFrame) :
  call (process_dataframe parse_number kind) d = Ok out ->
  rectangular d ->
  let cols := map clean_column_name (columns d) in
  let id_in := cells_labelled "ResearchId" cols in
  let id_out := cells_labelled "ResearchId" (columns out) in
  NoDup (map id_out (rows out)) /\
  (forall k, k ∈ map id_out (rows out) <-> k ∈ map id_in (rows d)) /\
  (forall r, r ∈ rows out ->
     exists r0, r0 ∈ rows d /\ id_out r = id_in r0 /\
       r = cells_where (fun c => negb (has_label c ["State"; "TimeTaken"])) cols
             (map_where is_grade_q (coerce_cell parse_number) cols r0)).
Proof.
  rewrite call_process_dataframe. intros (Hgrade & Hid & ->)%process_frame_ok Hrect.
  cbv zeta.
  set (cols := map clean_column_name (columns d)) in *.
  set (id_in := cells_labelled "ResearchId" cols).
  set (coerce := map_where is_grade_q (coerce_cell parse_number) cols).
  set (d2 := {| columns := cols;
                rows := keep_first id_in []
                          (sort_desc (get_cell "Grade" cols) kind (map coerce (rows d))) |}).
  assert (forall r0, id_in (coerce r0) = id_in r0) as Hkey.
  { intros r0. unfold id_in, coerce. rewrite cells_labelled_map_where.
    rewrite is_grade_q_ResearchId. apply map_id. }
  assert (rectangular d2) as Hrect2.
  { eapply rectangular_subset; [apply kept_row_elem|].
    apply (rectangular_map_rows _ cols (rows d)).
    - intros r. apply map_where_length.
    - unfold rectangular, cols in *. simpl. by rewrite length_map. }
  assert (map (cells_labelled "ResearchId"
                 (columns (drop_columns_frame ["State"; "TimeTaken"] d2)))
              (rows (drop_columns_frame ["State"; "TimeTaken"] d2))
          = map id_in (rows d2)) as Hids.
  { apply (drop_columns_frame_cells (String.eqb "ResearchId")).
    intros c Hc. repeat (apply elem_of_cons in Hc as [->|Hc]; [reflexivity|]).
    by apply elem_of_nil in Hc. }
  split; [|split].
  - rewrite Hids. apply keep_first_NoDup.
  - intros k. rewrite Hids. simpl. rewrite keep_first_keys, map_sort_desc_elem.
    rewrite map_map. rewrite (map_ext _ id_in) by exact Hkey.
    split; [by intros [_ ?]|]. intros Hk. split; [apply not_elem_of_nil|done].
  - rewrite drop_columns_frame_without by done. simpl.
    intros r Hr%list_elem_of_In. apply in_map_iff in Hr as (r2 & <- & Hr2).
    apply list_elem_of_In, kept_row_elem in Hr2.
    apply list_elem_of_In, in_map_iff in Hr2 as (r0 & <- & Hr0).
    exists r0. split; [by apply list_elem_of_In|]. split; [|done].
    unfold cells_labelled. rewrite cells_where_cells_where.
    rewrite <- Hkey. unfold id_in, cells_labelled.
    apply cells_where_ext_in. intros c _.
    destruct (String.eqb "ResearchId" c) eqn:E; [|by rewrite andb_false_r].
    by apply String.eqb_eq in E as <-.
Qed.

Lemma process_dataframe_one_row_per_id_witness :
  exists out,
    call (process_dataframe parse_integer stable) attempts = Ok out /\
    NoDup (map (cells_labelled "ResearchId" (columns out)) (rows out)).
Proof.
  assert (H : call (process_dataframe parse_integer stable) attempts
              = Ok {| columns := ["ResearchId"; "StartedOn"; "Grade"];
                      rows := [[num 1; CStr "Monday"; CNum 0];
                               [num 2; CStr "Wednesday"; CNum 0]] |})
    by (vm_compute; reflexivity).
  eexists. split; [exact H|].
  refine (proj1 (process_dataframe_one_row_per_id parse_integer stable attempts _ H _)).
  repeat constructor.
Defined.

(** ** [standardise_grade] on a store *)

Section StandardiseRun.
Variable parse_number : string -> option Qc.

Lemma alloc_run (h : list DataFrame) (d : DataFrame) :
  alloc d h = (Ok (List.length h), (h ++ [d])%list).
Proof. reflexivity. Qed.

Lemma load_run (l : nat) (h : list DataFrame) (d : DataFrame) :
  h !! l = Some d -> load l h = (Ok d, h).
Proof. intros H. unfold load. by rewrite H. Qed.

Lemma lookup_last_but_one (h : list DataFrame) (d1 d2 : DataFrame) :
  (h ++ [d1; d2])%list !! S (List.length h) = Some d2.
Proof.
  rewrite lookup_app_r by lia.
  by replace (S (List.length h) - List.length h)%nat with 1%nat by lia.
Qed.

Lemma overwrite_last_of_two (h : list DataFrame) (d1 d2 d : DataFrame) :
  <[S (List.length h) := d]> (h ++ [d1; d2])%list = (h ++ [d1; d])%list.
Proof.
  rewrite insert_app_r_alt by lia.
  by replace (S (List.length h) - List.length h)%nat with 1%nat by lia.
Qed.

(** [standardise_grade] makes two frames, the copy it converts and the
    frame of the rows it keeps, and returns the second. *)
Lemma standardise_grade_run (l : nat) (h : list DataFrame) (d : DataFrame) :
  h !! l = Some d ->
  match standardise_frame parse_number d with
  | Ok out =>
      exists mid, standardise_grade parse_number l h
                  = (Ok (S (List.length h)), (h ++ [mid; out])%list)
  | Error e =>
      standardise_grade parse_number l h = (Error e, (h ++ [d])%list)
  end.
Proof.
  intros Hl. unfold standardise_grade, standardise_frame.
  erewrite bind_ok by (by apply copy_run).
  destruct (to_numeric_column parse_number "Grade" (fun x => x) d) as [d1|e] eqn:E;
    simpl.
  - exists d1.
    erewrite bind_ok
      by (erewrite inplace_ok by (apply lookup_last || exact E);
          rewrite overwrite_last; reflexivity).
    erewrite bind_ok by (apply load_run, lookup_last).
    erewrite bind_ok by apply alloc_run.
    rewrite length_app, Nat.add_1_r, <- app_assoc. simpl.
    erewrite bind_ok by (apply load_run, lookup_last_but_one).
    erewrite bind_ok
      by (erewrite inplace_ok by (apply lookup_last_but_one || reflexivity);
          rewrite overwrite_last_of_two; reflexivity).
    reflexivity.
  - erewrite bind_error
      by (eapply inplace_error; [apply lookup_last|exact E]).
    reflexivity.
Qed.

End StandardiseRun.

(** X7. [standardise_grade] leaves every frame of the caller as it was, the
    one it is given included, also when it raises; the frame it returns is a
    new one. *)
Theorem standardise_grade_leaves_input (parse_number : string -> option Qc)
  (h : list DataFrame) (df : nat) :
  let '(res, h') := standardise_grade parse_number df h in
  (forall l d, h !! l = Some d -> h' !! l = Some d) /\
  (forall l, res = Ok l -> h !! l = None /\ is_Some (h' !! l) /\ l <> df).
Proof.
  destruct (h !! df) as [d|] eqn:Hdf.
  - pose proof (standardise_grade_run parse_number df h d Hdf) as Hrun.
    destruct (standardise_frame parse_number d) as [out|e].
    + destruct Hrun as [mid ->]. split.
      * intros l d' Hl. rewrite lookup_app_l; [done|by eapply lookup_lt_Some].
      * intros l [= <-]. split; [apply lookup_ge_None; lia|].
        split; [by rewrite lookup_last_but_one|].
        apply lookup_lt_Some in Hdf. lia.
    + rewrite Hrun. split; [|done].
      intros l d' Hl. rewrite lookup_app_l; [done|by eapply lookup_lt_Some].
  - unfold standardise_grade.
    erewrite bind_error by (by apply copy_unbound). done.
Qed.

(** ** [standardise_grade] when no grade is positive *)

Lemma series_max_zeros (l : list cell) :
  (forall x, x ∈ l -> x = CNum 0) ->
  series_max l = CNull \/ series_max l = CNum 0.
Proof.
  induction l as [|x l IH]; intros H; simpl; [by left|].
  rewrite (H x) by left. right.
  destruct IH as [->| ->]; [intros y Hy; apply H; by right|done|done].
Qed.

(** X8. When "Grade" names one column and every grade that is a number is 0,
    [standardise_grade] divides 0 by 0: the frame it returns holds the rows
    whose grade is a number (none, when no grade is one), each with a null
    Grade. *)
Theorem standardise_grade_all_zero (parse_number : string -> option Qc)
  (d : DataFrame) :
  count_occ string_dec (columns d) "Grade" = 1%nat ->
  (forall r, r ∈ rows d ->
     let g := to_numeric parse_number (get_cell "Grade" (columns d) r) in
     g = CNull \/ g = CNum 0) ->
  exists out,
    call (standardise_grade parse_number) d = Ok out /\
    columns out = columns d /\
    List.length (rows out)
    = List.length
        (List.filter
           (fun r => negb (isna (to_numeric parse_number
                                   (get_cell "Grade" (columns d) r))))
           (rows d)) /\
    (forall r, r ∈ rows out -> get_cell "Grade" (columns out) r = CNull).
Proof.
  intros Hcount Hzero.
  rewrite call_standardise_grade.
  unfold standardise_frame, to_numeric_column. rewrite Hcount. simpl.
  set (cols := columns d) in *.
  set (g := get_cell "Grade" cols).
  set (num1 := map_labelled "Grade" (to_numeric parse_number) cols).
  set (rows2 := List.filter (fun r => negb (isna (g r))) (map num1 (rows d))).
  assert (forall r, g (num1 r) = to_numeric parse_number (g r)) as Hg.
  { intros r. by apply get_cell_map_labelled. }
  set (m := series_max (series "Grade" {| columns := cols; rows := rows2 |})).
  assert (m = CNull \/ m = CNum 0) as Hm.
  { apply series_max_zeros. unfold series. simpl. fold g.
    intros x Hx%list_elem_of_In. apply in_map_iff in Hx as (r & <- & Hr).
    apply filter_In in Hr as [Hr Hna].
    apply in_map_iff in Hr as (r0 & <- & Hr0%list_elem_of_In).
    rewrite Hg in *. destruct (Hzero r0 Hr0) as [H|H]; fold cols g in H; [|done].
    by rewrite H in Hna. }
  eexists. split; [reflexivity|]. split; [done|]. split.
  - unfold map_column. simpl. rewrite length_map. unfold rows2.
    rewrite <- (map_filter_comm num1 (fun r => negb (isna (g r)))).
    rewrite length_map. f_equal. apply filter_ext. intros r. by rewrite Hg.
  - unfold map_column. simpl.
    intros r Hr%list_elem_of_In. apply in_map_iff in Hr as (r2 & <- & _).
    unfold cols at 1. rewrite get_cell_map_labelled by done. fold cols g.
    destruct Hm as [-> | ->]; destruct (g r2); done.
Qed.

(** Two students who scored 0 and one whose grade is missing. *)
Lemma standardise_grade_all_zero_witness :
  exists out,
    call (standardise_grade parse_integer)
      {| columns := ["ResearchId"; "Grade"];
         rows := [[num 1; num 0]; [num 2; CStr "-"]; [num 3; CStr "0"]] |}
    = Ok out /\
    (forall r, r ∈ rows out -> get_cell "Grade" (columns out) r = CNull).
Proof.
  destruct (standardise_grade_all_zero parse_integer
              {| columns := ["ResearchId"; "Grade"];
                 rows := [[num 1; num 0]; [num 2; CStr "-"]; [num 3; CStr "0"]] |}
              eq_refl) as (out & Hcall & _ & _ & Hnull).
  - intros r Hr.
    repeat (apply elem_of_cons in Hr as [->|Hr];
            [cbv zeta; (by left) || (right; decide_by_computation)|]).
    by apply elem_of_nil in Hr.
  - exists out. split; [exact Hcall|exact Hnull].
Defined.

(** ** [standardise_and_rename] *)

Lemma dict_set_new {V} (d : dict V) (key : string) (value : V) :
  key ∉ map fst d -> dict_set d key value = (d ++ [(key, value)])%list.
Proof.
  induction d as [|[k v] d IH]; simpl; [done|].
  rewrite not_elem_of_cons. intros [Hne Hd].
  destruct (String.eqb k key) eqn:E.
  - apply String.eqb_eq in E. congruence.
  - by rewrite IH.
Qed.

Lemma dict_get_elem {V} (d : dict V) (key : string) (value : V) :
  NoDup (map fst d) -> (key, value) ∈ d -> dict_get d key = Some value.
Proof.
  induction d as [|[k v] d IH]; simpl; [by intros _ ?%elem_of_nil|].
  rewrite NoDup_cons, elem_of_cons. intros [Hk Hd] [[= <- <-]|Hin].
  - by rewrite String.eqb_refl.
  - destruct (String.eqb k key) eqn:E; [|by apply IH].
    apply String.eqb_eq in E as ->. destruct Hk.
    apply list_elem_of_In, in_map_iff. exists (key, value).
    split; [done|by apply list_elem_of_In].
Qed.

Lemma append_inj (p s t : string) : (p ++ s = p ++ t)%string -> s = t.
Proof. induction p as [|c p IH]; simpl; [done|]. intros [= H]. by apply IH. Qed.

Section RenamingRun.
Variable parse_number : string -> option Qc.

Lemma standardise_frame_ok (d : DataFrame) :
  count_occ string_dec (columns d) "Grade" = 1%nat ->
  exists out, standardise_frame parse_number d = Ok out /\ columns out = columns d.
Proof.
  intros H. unfold standardise_frame, to_numeric_column. rewrite H. simpl.
  eexists. split; reflexivity.
Qed.

Lemma standardise_and_rename_items_run (items : list (string * nat))
  (acc : dict nat) (h : list DataFrame) :
  NoDup (map fst items) ->
  (forall item, item ∈ items ->
     exists d, h !! item.2 = Some d /\
               count_occ string_dec (columns d) "Grade" = 1%nat) ->
  (forall item, item ∈ items -> ("df_Clean" ++ item.1)%string ∉ map fst acc) ->
  exists new h',
    standardise_and_rename_items parse_number items acc h
    = (Ok (acc ++ new)%list, (h ++ h')%list) /\
    Forall2 (renamed parse_number h (h ++ h')%list) items new.
Proof.
  revert acc h. induction items as [|[key df] items IH]; intros acc h Hnd Hbound Hnew.
  - exists [], []. simpl. unfold ret. rewrite !app_nil_r. split; [done|constructor].
  - apply NoDup_cons in Hnd as [Hkey Hnd]. simpl.
    destruct (Hbound (key, df)) as (d & Hdf & Hgrade); [by left|]. simpl in Hdf.
    destruct (standardise_frame_ok d Hgrade) as (out & Hout & _).
    pose proof (standardise_grade_run parse_number (List.length h) (h ++ [d])%list d
                  (lookup_last h d)) as Hrun.
    rewrite Hout in Hrun. destruct Hrun as [mid Hrun].
    erewrite bind_ok by (by apply copy_run).
    erewrite bind_ok by exact Hrun.
    rewrite dict_set_new by (apply (Hnew (key, df)); by left).
    rewrite length_app, Nat.add_1_r, <- app_assoc. simpl.
    set (l := S (S (List.length h))).
    set (h1 := (h ++ [d; mid; out])%list).
    assert (forall l0 d0, h !! l0 = Some d0 -> h1 !! l0 = Some d0) as Hkeep.
    { intros l0 d0 Hl0. unfold h1.
      rewrite lookup_app_l; [done|by eapply lookup_lt_Some]. }
    destruct (IH (acc ++ [(("df_Clean" ++ key)%string, l)])%list h1 Hnd)
      as (new & h' & Hitems & Hall).
    + intros item Hitem. destruct (Hbound item) as (d0 & Hd0 & Hg0); [by right|].
      exists d0. split; [by apply Hkeep|done].
    + intros item Hitem. rewrite map_app. simpl.
      rewrite elem_of_app, list_elem_of_singleton. intros [Hin|Heq].
      * by apply (Hnew item); [right|].
      * apply append_inj in Heq. apply Hkey. rewrite <- Heq.
        apply list_elem_of_In, in_map_iff. exists item.
        split; [done|by apply list_elem_of_In].
    + exists ((("df_Clean" ++ key)%string, l) :: new), ([d; mid; out] ++ h')%list.
      rewrite Hitems. unfold h1. rewrite <- !app_assoc. simpl.
      split; [done|]. constructor.
      * split; [done|]. exists d, out. simpl.
        split; [done|]. split; [done|]. split; [|unfold l; lia].
        rewrite lookup_app_r by (unfold l; lia).
        by replace (l - List.length h)%nat with 2%nat by (unfold l; lia).
      * apply Forall2_same_length_lookup.
        apply Forall2_same_length_lookup in Hall as [Hlength Hall].
        split; [done|]. intros i item c Hitem Hc.
        destruct (Hall i item c Hitem Hc)
          as (Hck & d0 & out0 & Hd0 & Hout0 & Hc0 & Hlen).
        split; [done|]. exists d0, out0.
        destruct (Hbound item) as (d1 & Hd1 & _);
          [right; by eapply list_elem_of_lookup_2|].
        rewrite (Hkeep _ _ Hd1) in Hd0. injection Hd0 as <-.
        split; [done|]. split; [done|]. split.
        -- unfold h1 in Hc0. by rewrite <- app_assoc in Hc0.
        -- unfold h1 in Hlen. rewrite length_app in Hlen. lia.
Qed.

End RenamingRun.

(** X9. On a dict whose frames each have one Grade column,
    [standardise_and_rename] returns a dict with one item per item of the
    input, in the same order: the key is the input's key after "df_Clean",
    the value a new frame that holds what [standardise_grade] makes of the
    input's frame, so that [get] finds it under that key.  The frames of the
    caller are as they were. *)
Theorem standardise_and_rename_renames (parse_number : string -> option Qc)
  (h : list DataFrame) (dataframes : dict nat) :
  NoDup (map fst dataframes) ->
  (forall item, item ∈ dataframes ->
     exists d, h !! item.2 = Some d /\
               count_occ string_dec (columns d) "Grade" = 1%nat) ->
  exists cleaned h',
    standardise_and_rename parse_number dataframes h
    = (Ok cleaned, (h ++ h')%list) /\
    Forall2 (renamed parse_number h (h ++ h')%list) dataframes cleaned /\
    NoDup (map fst cleaned) /\
    (forall key df, (key, df) ∈ dataframes ->
       exists df_clean d out,
         dict_get cleaned ("df_Clean" ++ key) = Some df_clean /\
         h !! df = Some d /\
         standardise_frame parse_number d = Ok out /\
         (h ++ h')%list !! df_clean = Some out).
Proof.
  intros Hnd Hbound.
  destruct (standardise_and_rename_items_run parse_number dataframes [] h Hnd Hbound)
    as (cleaned & h' & Hrun & Hall).
  { intros item _. apply not_elem_of_nil. }
  exists cleaned, h'. split; [exact Hrun|]. split; [exact Hall|].
  assert (NoDup (map fst cleaned)) as Hkeys.
  { assert (map fst cleaned = map (String.append "df_Clean") (map fst dataframes))
      as ->.
    { clear -Hall.
      induction Hall as [|item c items cs [Hc _] _ IH]; simpl; [done|].
      by rewrite Hc, IH. }
    clear -Hnd. induction Hnd as [|k ks Hk Hks IH]; simpl; constructor; [|done].
    rewrite list_elem_of_In, in_map_iff. intros (k' & Heq%append_inj & Hk').
    subst. by apply Hk, list_elem_of_In. }
  split; [exact Hkeys|].
  intros key df [i Hi]%list_elem_of_lookup.
  destruct (Forall2_lookup_l _ _ _ _ _ Hall Hi)
    as ([ck l] & Hc & Hck & d & out & Hd & Hout & Hl & _).
  simpl in *. subst ck. exists l, d, out.
  split; [|done]. apply dict_get_elem; [done|].
  by eapply list_elem_of_lookup_2.
Qed.

(** Two frames of grades, under the keys "Test1" and "Test2". *)
Lemma standardise_and_rename_renames_witness :
  exists cleaned h',
    standardise_and_rename parse_integer [("Test1", 0%nat); ("Test2", 1%nat)]
      [raw_grades; duplicated_ids]
    = (Ok cleaned, ([raw_grades; duplicated_ids] ++ h')%list) /\
    map fst cleaned = ["df_CleanTest1"; "df_CleanTest2"].
Proof.
  destruct (standardise_and_rename_renames parse_integer
              [raw_grades; duplicated_ids] [("Test1", 0%nat); ("Test2", 1%nat)])
    as (cleaned & h' & Hrun & Hall & _).
  - decide_by_computation.
  - intros item Hitem.
    repeat (apply elem_of_cons in Hitem as [->|Hitem];
            [eexists; split; reflexivity|]).
    by apply elem_of_nil in Hitem.
  - exists cleaned, h'. split; [exact Hrun|].
    apply Forall2_cons_inv_l in Hall as (c1 & cs & [H1 _] & Hall & ->).
    apply Forall2_cons_inv_l in Hall as (c2 & cs' & [H2 _] & Hall & ->).
    apply Forall2_nil_inv_l in Hall as ->. simpl. by rewrite H1, H2.
Defined.

(** * [underperformingStudent] *)

(** ** [convert_grades_to_numeric] *)

Lemma cells_where_map_where (sel : string -> bool) (f : cell -> cell)
  (cols : list string) (r : list cell) :
  cells_where sel cols (map_where sel f cols r) = map f (cells_where sel cols r).
Proof.
  revert r. induction cols as [|c cols IH]; intros r; simpl; [by destruct r|].
  destruct r as [|x r]; simpl; [done|].
  destruct (sel c); simpl; by rewrite IH.
Qed.

Lemma elem_of_filter_bool {A} (p : A -> bool) (l : list A) (x : A) :
  x ∈ List.filter p l <-> x ∈ l /\ p x = true.
Proof. by rewrite !list_elem_of_In, filter_In. Qed.

(** The loop over the columns that [df.filter(like=...)] selects. *)
Lemma for_each_selected_run (sel : string -> bool)
  (step : string -> DataFrame -> result DataFrame)
  (l : nat) (h : list DataFrame) (d : DataFrame) :
  h !! l = Some d ->
  (d <~ load l ;>
   for_each (List.filter sel (columns d)) (fun c => inplace l (step c)) ;>
   ret l) h
  = (match (fold_columns step (List.filter sel (columns d)) d).1 with
     | None => Ok l
     | Some e => Error e
     end, <[l := (fold_columns step (List.filter sel (columns d)) d).2]> h).
Proof.
  intros Hl. erewrite bind_ok by (by apply load_run).
  unfold bind. rewrite (for_each_inplace_run step _ l h d Hl).
  by destruct (fold_columns step _ d).1.
Qed.

(** X10. [convert_grades_to_numeric] takes its columns from the frame, those
    whose label holds "Grade", so that no label can be missing: on a frame in
    which none of these labels is repeated it does not raise.  It converts in
    place; the grade cells are what [to_numeric] makes of them, none of them
    a string, and the other cells are as they were. *)
Theorem convert_grades_to_numeric_converts (parse_number : string -> option Qc)
  (h : list DataFrame) (df : nat) (d : DataFrame) :
  h !! df = Some d ->
  (forall c, c ∈ columns d -> PyStr.contains "Grade" c = true ->
             count_occ string_dec (columns d) c = 1%nat) ->
  exists out,
    convert_grades_to_numeric parse_number df h = (Ok df, <[df := out]> h) /\
    columns out = columns d /\
    rows out = map (map_where (PyStr.contains "Grade") (to_numeric parse_number)
                      (columns d)) (rows d) /\
    (forall r x, r ∈ rows out ->
       x ∈ cells_where (PyStr.contains "Grade") (columns d) r ->
       is_str x = false).
Proof.
  intros Hdf Hcols.
  set (sel := PyStr.contains "Grade").
  assert (rows (map_columns (List.filter sel (columns d))
                  (to_numeric parse_number) d)
          = map (map_where sel (to_numeric parse_number) (columns d)) (rows d))
    as Hrows.
  { simpl. apply map_ext. intros r. apply map_where_ext_in. intros c Hc.
    destruct (sel c) eqn:E.
    - apply bool_decide_eq_true_2. by apply elem_of_filter_bool.
    - apply bool_decide_eq_false_2. rewrite elem_of_filter_bool.
      intros [_ ?]. congruence. }
  exists (map_columns (List.filter sel (columns d)) (to_numeric parse_number) d).
  split; [|split; [done|split; [exact Hrows|]]].
  - unfold convert_grades_to_numeric. fold sel.
    rewrite (for_each_selected_run sel
               (fun c => to_numeric_column parse_number c (fun x => x)) _ _ _ Hdf).
    rewrite fold_columns_to_numeric; [done|].
    intros c [Hc Hsel]%elem_of_filter_bool. by apply Hcols.
  - rewrite Hrows. intros r x Hr%list_elem_of_In Hx.
    apply in_map_iff in Hr as (r0 & <- & _).
    rewrite cells_where_map_where in Hx.
    apply list_elem_of_In, in_map_iff in Hx as (x0 & <- & _).
    apply to_numeric_not_str.
Qed.

(** The frame of the unit test. *)
Lemma convert_grades_to_numeric_converts_witness :
  exists out,
    convert_grades_to_numeric parse_integer 0
      [ {| columns := ["Grade_Test1"];
           rows := [[CStr "80"]; [CStr "90"]; [CStr "invalid"]] |} ]
    = (Ok 0%nat, [out]) /\
    rows out = [[num 80]; [num 90]; [CNull]].
Proof.
  destruct (convert_grades_to_numeric_converts parse_integer
              [ {| columns := ["Grade_Test1"];
                   rows := [[CStr "80"]; [CStr "90"]; [CStr "invalid"]] |} ]
              0 _ eq_refl) as (out & Hrun & _ & Hrows & _).
  - intros c Hc _. apply list_elem_of_singleton in Hc as ->. reflexivity.
  - exists out. split; [exact Hrun|]. rewrite Hrows. decide_by_computation.
Defined.

(** ** [sort_dataframe] *)

Lemma cell_before_asym (a b : cell) :
  cell_before a b = true -> ascending a b.
Proof.
  unfold ascending. destruct a as [|x|s], b as [|y|t]; simpl; try done.
  - intros H%Qc_ltb_lt. apply Qc_ltb_ge. by apply Qclt_le_weak.
  - intros H. apply (cell_ltb_ge (CStr s) (CStr t)). exact H.
Qed.

Lemma ascending_trans (a b c : cell) :
  ascending a b -> ascending b c -> ascending a c.
Proof.
  unfold ascending.
  destruct a as [|x|s], b as [|y|t], c as [|z|u]; simpl; try done.
  - intros H1 H2. exact (cell_ge_trans (CNum z) (CNum y) (CNum x) H2 H1).
  - intros H1 H2. exact (cell_ge_trans (CStr u) (CStr t) (CStr s) H2 H1).
Qed.

Lemma ascending_num (a b : Qc) : ascending (CNum a) (CNum b) <-> (a <= b)%Qc.
Proof. unfold ascending. simpl. apply Qc_ltb_ge. Qed.

Lemma ascending_null (b : cell) : ascending CNull b -> b = CNull.
Proof. unfold ascending. by destruct b. Qed.

Section SortAscFacts.
Context {A : Type} (key : A -> cell).
Variable kind : tie_order A.

Lemma insert_behind_asc_perm (n : nat) (r : A) (l : list A) :
  insert_behind_asc key n r l ≡ₚ r :: l.
Proof.
  revert n. induction l as [|x l IH]; intros n; simpl; [done|].
  destruct (cell_before (key x) (key r)).
  - rewrite IH. apply Permutation_swap.
  - destruct (cell_before (key r) (key x)); [done|].
    destruct n as [|n]; [done|]. rewrite IH. apply Permutation_swap.
Qed.

Lemma sort_asc_perm (l : list A) : sort_asc key kind l ≡ₚ l.
Proof.
  induction l as [|x l IH]; simpl; [done|].
  unfold insert_asc. by rewrite insert_behind_asc_perm, IH.
Qed.

Lemma insert_behind_asc_sorted (n : nat) (r : A) (l : list A) :
  StronglySorted (fun a b => ascending (key a) (key b)) l ->
  StronglySorted (fun a b => ascending (key a) (key b))
    (insert_behind_asc key n r l).
Proof.
  intros Hl. revert n.
  induction Hl as [|x l Hl IH Hx]; intros n; simpl; [repeat constructor|].
  assert (forall m, ascending (key x) (key r) ->
            StronglySorted (fun a b => ascending (key a) (key b))
              (x :: insert_behind_asc key m r l)) as Hbehind.
  { intros m Hxr. constructor; [apply IH|].
    rewrite Forall_forall in *. intros y Hy.
    rewrite insert_behind_asc_perm in Hy.
    apply elem_of_cons in Hy as [->|Hy]; [done|]. by apply Hx. }
  assert (ascending (key r) (key x) ->
          StronglySorted (fun a b => ascending (key a) (key b))
            (r :: x :: l)) as Hfront.
  { intros Hrx. constructor; [by constructor|]. constructor; [exact Hrx|].
    rewrite Forall_forall in *. intros y Hy.
    eapply ascending_trans; [exact Hrx|]. by apply Hx. }
  destruct (cell_before (key x) (key r)) eqn:E1.
  - apply Hbehind. by apply cell_before_asym.
  - destruct (cell_before (key r) (key x)) eqn:E2; [by apply Hfront|].
    destruct n as [|n]; [by apply Hfront | by apply Hbehind].
Qed.

Lemma sort_asc_sorted (l : list A) :
  StronglySorted (fun a b => ascending (key a) (key b)) (sort_asc key kind l).
Proof.
  induction l as [|x l IH]; simpl; [constructor|].
  by apply insert_behind_asc_sorted.
Qed.

Lemma StronglySorted_lookup_lt (R : A -> A -> Prop) (l : list A)
  (i j : nat) (x y : A) :
  StronglySorted R l -> (i < j)%nat ->
  l !! i = Some x -> l !! j = Some y -> R x y.
Proof.
  intros Hl. revert i j. induction Hl as [|z l Hl IH Hz]; intros i j Hij Hi Hj.
  - done.
  - destruct j as [|j]; [lia|]. simpl in Hj. destruct i as [|i]; simpl in Hi.
    + injection Hi as <-. rewrite Forall_forall in Hz.
      by eapply Hz, list_elem_of_lookup_2.
    + apply (IH i j); [lia|done|done].
Qed.
End SortAscFacts.

(** X11. On a frame in which "Grade_Sumtest" names one column, of numbers and
    nulls or of strings, [sort_dataframe] returns a new frame and leaves the
    one it is given as it was: the new frame has the same rows in another
    order, the grades that are numbers ascending and every null after them. *)
Theorem sort_dataframe_sorts (kind : tie_order (list cell))
  (h : list DataFrame) (df : nat) (d : DataFrame) :
  h !! df = Some d ->
  count_occ string_dec (columns d) "Grade_Sumtest" = 1%nat ->
  mixed (series "Grade_Sumtest" d) = false ->
  exists out,
    underperformingStudent.sort_dataframe kind df h
    = (Ok (List.length h), (h ++ [out])%list) /\
    columns out = columns d /\
    rows out ≡ₚ rows d /\
    let grade := get_cell "Grade_Sumtest" (columns d) in
    (forall i j r r' a b,
        (i <= j)%nat -> rows out !! i = Some r -> rows out !! j = Some r' ->
        grade r = CNum a -> grade r' = CNum b -> (a <= b)%Qc) /\
    (forall i j r r',
        (i <= j)%nat -> rows out !! i = Some r -> rows out !! j = Some r' ->
        grade r = CNull -> grade r' = CNull).
Proof.
  intros Hdf Hcount Hmixed.
  set (grade := get_cell "Grade_Sumtest" (columns d)).
  exists {| columns := columns d; rows := sort_asc grade kind (rows d) |}.
  split; [|split; [done|split; [apply sort_asc_perm|]]].
  - unfold underperformingStudent.sort_dataframe.
    erewrite bind_ok by (by apply load_run).
    unfold sort_values_asc. by rewrite Hcount, Hmixed.
  - simpl. pose proof (sort_asc_sorted grade kind (rows d)) as Hsorted.
    assert (forall i j r r', (i <= j)%nat ->
              sort_asc grade kind (rows d) !! i = Some r ->
              sort_asc grade kind (rows d) !! j = Some r' ->
              ascending (grade r) (grade r') \/ r = r') as Hpair.
    { intros i j r r' Hij Hi Hj.
      destruct (decide (i = j)) as [->|Hne]; [right; congruence|left].
      apply (StronglySorted_lookup_lt
               (fun a b => ascending (grade a) (grade b)) _ i j r r' Hsorted);
        [lia|done|done]. }
    split.
    + intros i j r r' a b Hij Hi Hj Ha Hb.
      destruct (Hpair i j r r' Hij Hi Hj) as [Hasc| <-].
      * rewrite Ha, Hb in Hasc. by apply ascending_num.
      * rewrite Ha in Hb. injection Hb as <-. apply Qcle_refl.
    + intros i j r r' Hij Hi Hj Hnull.
      destruct (Hpair i j r r' Hij Hi Hj) as [Hasc| <-]; [|done].
      rewrite Hnull in Hasc. by apply ascending_null.
Qed.

(** The frame of the unit test: 70 comes first. *)
Lemma sort_dataframe_sorts_witness :
  exists out,
    underperformingStudent.sort_dataframe stable 0
      [ {| columns := ["Grade_Sumtest"; "Grade_Test1"];
           rows := [[num 70; num 50]; [num 90; num 60]; [num 85; num 55]] |} ]
    = (Ok 1%nat,
       [ {| columns := ["Grade_Sumtest"; "Grade_Test1"];
            rows := [[num 70; num 50]; [num 90; num 60]; [num 85; num 55]] |};
         out ]) /\
    rows out ≡ₚ [[num 70; num 50]; [num 90; num 60]; [num 85; num 55]].
Proof.
  destruct (sort_dataframe_sorts stable
              [ {| columns := ["Grade_Sumtest"; "Grade_Test1"];
                   rows := [[num 70; num 50]; [num 90; num 60]; [num 85; num 55]] |} ]
              0 _ eq_refl eq_refl eq_refl) as (out & Hrun & _ & Hperm & _).
  exists out. split; [exact Hrun|exact Hperm].
Defined.

(** ** [highlight_test_grades] *)

Lemma Qc_leb_gt (x y : Qc) : Qc_leb x y = false <-> (y < x)%Qc.
Proof.
  rewrite <- not_true_iff_false, Qc_leb_le. split.
  - apply Qcnot_le_lt.
  - apply Qclt_not_le.
Qed.

(** Comparisons of numbers with the constants of the code, by linear
    arithmetic on the rationals. *)
Ltac qc_order :=
  repeat match goal with
         | H : Qc_leb _ _ = true |- _ => apply Qc_leb_le in H
         | H : Qc_leb _ _ = false |- _ => apply Qc_leb_gt in H
         | H : Qc_ltb _ _ = true |- _ => apply Qc_ltb_lt in H
         | H : Qc_ltb _ _ = false |- _ => apply Qc_ltb_ge in H
         end;
  unfold Qcle, Qclt in *; simpl in *; rewrite ?Qred_correct in *;
  unfold inject_Z in *; lra.

Lemma colour_of_number (is_none : bool) (v : Qc) :
  exists colour,
    underperformingStudent.colour_of is_none (CNum v) = Ok colour /\
    ((0 <= v)%Qc -> (v < Qc_of_Z 50)%Qc -> colour = "yellow") /\
    ((Qc_of_Z 50 <= v)%Qc -> (v < Qc_of_Z 70)%Qc -> colour = "grey") /\
    ((Qc_of_Z 70 <= v)%Qc -> colour = "green") /\
    ((v < 0)%Qc -> colour = "").
Proof.
  unfold underperformingStudent.colour_of.
  destruct (Qc_leb 0 v) eqn:E0, (Qc_ltb v (Qc_of_Z 50)) eqn:E50,
    (Qc_leb (Qc_of_Z 50) v) eqn:E50', (Qc_ltb v (Qc_of_Z 70)) eqn:E70,
    (Qc_leb (Qc_of_Z 70) v) eqn:E70';
    simpl; eexists; (split; [reflexivity|]);
    repeat split; intros; try reflexivity; exfalso; qc_order.
Qed.

(** X12. [none] tells under which columns a null of the row is [None] rather
    than NaN.  On a row that holds, under the four formative tests, neither a
    string nor a [None], [highlight_test_grades] gives one style per cell:
    the style is empty for every column other than the four tests,
    "Grade_Mocktest" and "Grade_Sumtest" included; under a test it is yellow
    from 0 up to 50, grey from 50 up to 70 and green from 70 on, with no
    colour for a negative value or a NaN.  On a row that holds a string or a
    [None] under one of the four tests it raises [TypeError]. *)
Theorem highlight_test_grades_styles (none : string -> bool)
  (row : list (string * cell)) :
  ((forall col val, (col, val) ∈ row ->
      col ∈ underperformingStudent.test_grade_columns ->
      ~ not_comparable none col val) ->
   exists styles,
     underperformingStudent.highlight_test_grades none row = Ok styles /\
     List.length styles = List.length row /\
     (forall i col val,
         row !! i = Some (col, val) ->
         exists style,
           styles !! i = Some style /\
           (col ∉ underperformingStudent.test_grade_columns -> style = "") /\
           (col ∈ underperformingStudent.test_grade_columns ->
              (val = CNull -> style = "background-color: ") /\
              (forall v, val = CNum v ->
                 ((0 <= v)%Qc -> (v < Qc_of_Z 50)%Qc ->
                    style = "background-color: yellow") /\
                 ((Qc_of_Z 50 <= v)%Qc -> (v < Qc_of_Z 70)%Qc ->
                    style = "background-color: grey") /\
                 ((Qc_of_Z 70 <= v)%Qc -> style = "background-color: green") /\
                 ((v < 0)%Qc -> style = "background-color: "))))) /\
  ((exists col val,
      (col, val) ∈ row /\ col ∈ underperformingStudent.test_grade_columns /\
      not_comparable none col val) ->
   underperformingStudent.highlight_test_grades none row = Error TypeError).
Proof.
  split.
  - induction row as [|[col val] row IH]; intros Hrow.
    { exists []. split; [done|]. split; [done|]. by intros i col val. }
    destruct IH as (styles & Hstyles & Hlen & Hall).
    { intros c x Hin. apply Hrow. by right. }
    assert (exists style,
              (if bool_decide (col ∈ underperformingStudent.test_grade_columns)
               then rbind (underperformingStudent.colour_of (none col) val)
                          (fun color => Ok ("background-color: " ++ color))
               else Ok "") = Ok style /\
              (col ∉ underperformingStudent.test_grade_columns -> style = "") /\
              (col ∈ underperformingStudent.test_grade_columns ->
                 (val = CNull -> style = "background-color: ") /\
                 (forall v, val = CNum v ->
                    ((0 <= v)%Qc -> (v < Qc_of_Z 50)%Qc ->
                       style = "background-color: yellow") /\
                    ((Qc_of_Z 50 <= v)%Qc -> (v < Qc_of_Z 70)%Qc ->
                       style = "background-color: grey") /\
                    ((Qc_of_Z 70 <= v)%Qc -> style = "background-color: green") /\
                    ((v < 0)%Qc -> style = "background-color: "))))
      as (style & Hstyle & Hout & Hin).
    { case_bool_decide as Hcol.
      - assert ((col, val) ∈ (col, val) :: row) as Hhere by left.
        specialize (Hrow col val Hhere Hcol). unfold not_comparable in Hrow.
        destruct val as [|v|s].
        + destruct (none col) eqn:Hnone; [destruct Hrow; by right|].
          eexists. simpl. split; [reflexivity|]. split; [done|].
          intros _. split; done.
        + destruct (colour_of_number (none col) v)
            as (colour & -> & Hy & Hg & Hgr & Hn).
          eexists. split; [reflexivity|]. split; [done|]. intros _.
          split; [done|]. intros v' [= <-].
          repeat split; intros;
            [rewrite Hy|rewrite Hg|rewrite Hgr|rewrite Hn]; done.
        + destruct Hrow. by left.
      - eexists. split; [reflexivity|]. split; [done|]. done. }
    exists (style :: styles). split; [|split].
    + simpl. rewrite Hstyle. simpl. by rewrite Hstyles.
    + simpl. by rewrite Hlen.
    + intros [|i] c x Hi; simpl in Hi.
      * injection Hi as <- <-. exists style. by split.
      * by apply Hall.
  - induction row as [|[col val] row IH]; intros (c & x & Hin & Hc & Hbad).
    { by apply elem_of_nil in Hin. }
    assert ((c, x) = (col, val) \/
            underperformingStudent.highlight_test_grades none row
            = Error TypeError) as Htail.
    { apply elem_of_cons in Hin as [Hhere|Hin]; [by left|right].
      apply IH. by exists c, x. }
    simpl. case_bool_decide as Hcol.
    + destruct val as [|v|s].
      * destruct (none col) eqn:Hnone; simpl; [done|].
        destruct Htail as [[= -> ->]| ->]; [|done].
        destruct Hbad as [?|[_ ?]]; [done|congruence].
      * destruct (colour_of_number (none col) v) as (colour & -> & _). simpl.
        destruct Htail as [[= -> ->]| ->]; [|done].
        by destruct Hbad as [?|[? _]].
      * done.
    + simpl. destruct Htail as [[= -> ->]| ->]; done.
Qed.

(** The student has failed the first test and passed the next two; the
    fourth is missing, its column holding floats, and the mock test is not
    coloured.  With a fourth column that holds objects the missing grade is
    a [None], and the function raises. *)
Lemma highlight_test_grades_styles_witness :
  (exists styles,
     underperformingStudent.highlight_test_grades (fun _ => false)
       [("Grade_Test1", num 30); ("Grade_Test2", num 55); ("Grade_Test3", num 70);
        ("Grade_Test4", CNull); ("Grade_Mocktest", num 20)]
     = Ok styles /\
     List.length styles = 5%nat) /\
  underperformingStudent.highlight_test_grades
    (fun col => String.eqb col "Grade_Test4")
    [("Grade_Test1", num 30); ("Grade_Test2", num 55); ("Grade_Test3", num 70);
     ("Grade_Test4", CNull); ("Grade_Mocktest", num 20)]
  = Error TypeError.
Proof.
  split.
  - destruct (proj1 (highlight_test_grades_styles (fun _ => false)
                [("Grade_Test1", num 30); ("Grade_Test2", num 55);
                 ("Grade_Test3", num 70); ("Grade_Test4", CNull);
                 ("Grade_Mocktest", num 20)])) as (styles & Hrun & Hlen & _).
    + intros col val Hin _ [Hstr|[_ Hnone]]; [|done].
      repeat (apply elem_of_cons in Hin as [[= -> ->]|Hin]; [done|]).
      by apply elem_of_nil in Hin.
    + exists styles. split; [exact Hrun|exact Hlen].
  - apply (proj2 (highlight_test_grades_styles
                    (fun col => String.eqb col "Grade_Test4") _)).
    exists "Grade_Test4", CNull.
    split; [do 3 right; left|]. split; [do 3 right; left|].
    right. split; reflexivity.
Defined.

(** The styles of that row. *)
Lemma highlight_test_grades_sample :
  underperformingStudent.highlight_test_grades (fun _ => false)
    [("Grade_Test1", num 30); ("Grade_Test2", num 55); ("Grade_Test3", num 70);
     ("Grade_Test4", CNull); ("Grade_Mocktest", num 20)]
  = Ok ["background-color: yellow"; "background-color: grey";
        "background-color: green"; "background-color: "; ""].
Proof. vm_compute. reflexivity. Qed.

(** ** [standardise_grades] *)

Lemma round_half_even_mono (a b : Qc) :
  (a <= b)%Qc -> (round_half_even a <= round_half_even b)%Z.
Proof.
  intros Hab. unfold Qcle in Hab. unfold round_half_even.
  pose proof (Qfloor_le a) as Ha1. pose proof (Qlt_floor a) as Ha2.
  pose proof (Qfloor_le b) as Hb1. pose proof (Qlt_floor b) as Hb2.
  pose proof (Qfloor_resp_le _ _ Hab) as Hf.
  set (fa := Qfloor a) in *. set (fb := Qfloor b) in *.
  rewrite inject_Z_plus in Ha2, Hb2.
  change (inject_Z 1) with 1%Q in *.
  destruct (Z.eq_dec fa fb) as [Heq|Hne].
  - rewrite <- Heq in *.
    destruct (Qcompare_spec (a - inject_Z fa) (1 # 2)),
             (Qcompare_spec (b - inject_Z fa) (1 # 2));
      try destruct (Z.even fa); try lia; exfalso; lra.
  - destruct (Qcompare_spec (a - inject_Z fa) (1 # 2)),
             (Qcompare_spec (b - inject_Z fb) (1 # 2));
      try destruct (Z.even fa); try destruct (Z.even fb); lia.
Qed.

Lemma scale_le_100 (x m : Qc) :
  (0 < m)%Qc -> (x <= m)%Qc -> (x / m * Qc_of_Z 100 <= Qc_of_Z 100)%Qc.
Proof.
  intros Hm Hx. rewrite <- (scale_max m Hm) at 2. by apply scale_mono.
Qed.

Lemma Qc_of_Z_mono (x y : Z) : (x <= y)%Z -> (Qc_of_Z x <= Qc_of_Z y)%Qc.
Proof.
  intros H. unfold Qcle. simpl. by rewrite <- Zle_Qle.
Qed.

(** The rounding of the exact value is one of the roundings the properties
    are stated for. *)
Lemma round1_exact_ok : rounds_to_one_decimal round1_exact.
Proof.
  split; [|decide_by_computation].
  intros a b Hab. unfold round1_exact, Qcdiv.
  apply Qcmult_le_compat_r; [|done].
  apply Qc_of_Z_mono, round_half_even_mono.
  by apply Qcmult_le_compat_r.
Qed.

Lemma series_max_ge (l : list cell) (m a : Qc) :
  series_max l = CNum m -> CNum a ∈ l -> (a <= m)%Qc.
Proof.
  revert m. induction l as [|x l IH]; intros m Hmax Hin;
    [by apply elem_of_nil in Hin|].
  simpl in Hmax. destruct x as [|b|s].
  - apply elem_of_cons in Hin as [?|Hin]; [done|]. by apply IH.
  - destruct (series_max l) as [|c|?] eqn:Hl.
    + injection Hmax as <-.
      apply elem_of_cons in Hin as [[= ->]|Hin]; [apply Qcle_refl|].
      clear IH. exfalso. induction l as [|y l IHl];
        [by apply elem_of_nil in Hin|].
      simpl in Hl. destruct y as [|y|?]; [|by destruct (series_max l)|].
      * apply elem_of_cons in Hin as [?|Hin]; [done|]. by apply IHl.
      * apply elem_of_cons in Hin as [?|Hin]; [done|]. by apply IHl.
    + injection Hmax as <-.
      destruct (Qc_ltb b c) eqn:Hbc.
      * apply elem_of_cons in Hin as [[= ->]|Hin]; [|by apply IH].
        apply Qclt_le_weak. by apply Qc_ltb_lt.
      * apply Qc_ltb_ge in Hbc.
        apply elem_of_cons in Hin as [[= ->]|Hin]; [apply Qcle_refl|].
        etrans; [by apply IH|done].
    + exfalso. clear -Hl. induction l as [|y l IHl]; [done|].
      simpl in Hl. destruct y as [|y|?]; [done| |done].
      by destruct (series_max l).
  - apply elem_of_cons in Hin as [?|Hin]; [done|]. by apply IH.
Qed.

Section Percent.
Variable round1 : Qc -> Qc.
Hypothesis round1_ok : rounds_to_one_decimal round1.

Lemma to_percent_num (m a : Qc) :
  (0 < m)%Qc ->
  to_percent round1 (CNum m) (CNum a) = CNum (round1 (a / m * Qc_of_Z 100)).
Proof.
  intros Hm. unfold to_percent. cbn [div_cell].
  rewrite bool_decide_eq_false_2; [done|].
  intros ->. by apply Qclt_not_eq in Hm.
Qed.

(** The greatest value of a column, strictly positive, becomes 100. *)
Lemma series_max_to_percent (l : list cell) (m : Qc) :
  series_max l = CNum m -> (0 < m)%Qc ->
  series_max (map (to_percent round1 (CNum m)) l) = CNum (Qc_of_Z 100).
Proof.
  intros Hmax Hm. destruct round1_ok as [Hmono H100].
  rewrite (series_max_map _ (fun a => round1 (a / m * Qc_of_Z 100))%Qc).
  - rewrite Hmax, to_percent_num by done. by rewrite scale_max, H100.
  - intros a. by apply to_percent_num.
  - done.
  - done.
  - intros a b Hab. by apply Hmono, scale_mono.
Qed.

(** What a column holds after the scaling, cell by cell. *)
Lemma to_percent_of (l : list cell) (m : Qc) :
  series_max l = CNum m -> (0 < m)%Qc ->
  Forall2 (percent_of m) l (map (to_percent round1 (CNum m)) l).
Proof.
  intros Hmax Hm. destruct round1_ok as [Hmono H100].
  apply Forall2_fmap_r, Forall_Forall2_diag, Forall_forall.
  intros x Hx. destruct x as [|a|s]; [done| |done].
  unfold percent_of. exists (round1 (a / m * Qc_of_Z 100))%Qc.
  split; [by apply to_percent_num|]. split.
  - rewrite <- H100 at 2. apply Hmono, scale_le_100; [done|].
    by eapply series_max_ge.
  - intros ->. by rewrite scale_max.
Qed.

Lemma to_percent_order (l : list cell) (m : Qc) (i j : nat) (a a' b b' : Qc) :
  (0 < m)%Qc ->
  l !! i = Some (CNum a) -> l !! j = Some (CNum a') ->
  map (to_percent round1 (CNum m)) l !! i = Some (CNum b) ->
  map (to_percent round1 (CNum m)) l !! j = Some (CNum b') ->
  (a <= a')%Qc -> (b <= b')%Qc.
Proof.
  intros Hm Hi Hj Hi' Hj' Hle. destruct round1_ok as [Hmono _].
  change (map ?f ?l) with (f <$> l) in Hi', Hj'.
  rewrite list_lookup_fmap, Hi in Hi'. rewrite list_lookup_fmap, Hj in Hj'.
  simpl in Hi', Hj'. rewrite to_percent_num in Hi', Hj' by done.
  injection Hi' as <-. injection Hj' as <-.
  by apply Hmono, scale_mono.
Qed.

Lemma map_cols_ext_in (f g : string -> cell -> cell) (cols : list string)
  (r : list cell) :
  (forall c x, c ∈ cols -> f c x = g c x) ->
  map_cols f cols r = map_cols g cols r.
Proof.
  revert r. induction cols as [|c cols IH]; intros r H; simpl; [done|].
  destruct r as [|x r]; [done|].
  rewrite (H c x) by left. f_equal. apply IH. intros c' x' Hc'. apply H. by right.
Qed.

Lemma map_cols_id (cols : list string) (r : list cell) :
  map_cols (fun _ x => x) cols r = r.
Proof.
  revert r. induction cols as [|c cols IH]; intros r; simpl; [done|].
  destruct r as [|x r]; [done|]. by rewrite IH.
Qed.

Lemma map_where_map_cols (sel : string -> bool) (F : cell -> cell)
  (f : string -> cell -> cell) (cols : list string) (r : list cell) :
  map_where sel F cols (map_cols f cols r)
  = map_cols (fun c x => if sel c then F (f c x) else f c x) cols r.
Proof.
  revert r. induction cols as [|c cols IH]; intros r; simpl; [done|].
  destruct r as [|x r]; simpl; [done|]. by rewrite IH.
Qed.

Lemma cells_labelled_map_cols (label : string) (f : string -> cell -> cell)
  (cols : list string) (r : list cell) :
  cells_labelled label cols (map_cols f cols r)
  = map (f label) (cells_labelled label cols r).
Proof.
  unfold cells_labelled.
  revert r. induction cols as [|c cols IH]; intros r; simpl; [by destruct r|].
  destruct r as [|x r]; simpl; [done|].
  destruct (String.eqb label c) eqn:E; simpl; [|apply IH].
  apply String.eqb_eq in E as <-. by rewrite IH.
Qed.

Lemma get_cell_map_cols (label : string) (f : string -> cell -> cell)
  (cols : list string) (r : list cell) :
  f label CNull = CNull ->
  get_cell label cols (map_cols f cols r) = f label (get_cell label cols r).
Proof.
  intros Hnull. unfold get_cell. rewrite cells_labelled_map_cols.
  by destruct (cells_labelled label cols r).
Qed.

Lemma series_percent_frame (done : list string) (d : DataFrame) (c : string) :
  series c (percent_frame round1 done d)
  = map (fun x => if bool_decide (c ∈ done)
                  then to_percent round1 (series_max (series c d)) x else x)
        (series c d).
Proof.
  unfold series, percent_frame. simpl. rewrite !map_map. apply map_ext.
  intros r. apply (get_cell_map_cols c). by case_bool_decide.
Qed.

Lemma percent_frame_nil (d : DataFrame) : percent_frame round1 [] d = d.
Proof.
  destruct d as [cs rs]. unfold percent_frame. simpl. f_equal.
  rewrite <- (map_id rs) at 2. apply map_ext. intros r.
  rewrite <- (map_cols_id cs r) at 2. apply map_cols_ext_in. intros c x _.
  done.
Qed.

(** One turn of the loop, on a frame of which the columns [done] have been
    scaled. *)
Lemma standardise_column_percent (done : list string) (c : string)
  (d : DataFrame) :
  c ∉ done ->
  count_occ string_dec (columns d) c = 1%nat ->
  (forall x, x ∈ series c d -> is_str x = false) ->
  underperformingStudent.standardise_column round1 c (percent_frame round1 done d)
  = Ok (percent_frame round1 (done ++ [c]) d).
Proof.
  intros Hc Hcount Hstr. unfold underperformingStudent.standardise_column.
  assert (series c (percent_frame round1 done d) = series c d) as Hseries.
  { rewrite series_percent_frame. rewrite <- (map_id (series c d)) at 2.
    apply map_ext. intros x. by rewrite bool_decide_eq_false_2. }
  rewrite Hseries. simpl columns. rewrite Hcount.
  assert (existsb is_str (series c d) = false) as ->.
  { apply not_true_is_false. intros (x & Hx & Hs)%existsb_exists.
    rewrite Hstr in Hs; [done|by apply list_elem_of_In]. }
  f_equal. unfold map_column, map_labelled, percent_frame. simpl. f_equal.
  rewrite map_map. apply map_ext. intros r.
  rewrite map_where_map_cols. apply map_cols_ext_in. intros c' x _.
  cbv beta. destruct (String.eqb c c') eqn:E.
  - apply String.eqb_eq in E as <-.
    rewrite bool_decide_eq_false_2 by done.
    rewrite bool_decide_eq_true_2; [done|].
    apply elem_of_app. right. by left.
  - apply String.eqb_neq in E.
    apply (f_equal (fun b : bool =>
             if b then to_percent round1 (series_max (series c' d)) x else x)).
    apply bool_decide_ext. rewrite elem_of_app, list_elem_of_singleton.
    split; [by left|]. intros [?|?]; [done|congruence].
Qed.

Lemma fold_columns_percent (cols done : list string) (d : DataFrame) :
  NoDup cols ->
  (forall c, c ∈ cols -> c ∉ done) ->
  (forall c, c ∈ cols -> count_occ string_dec (columns d) c = 1%nat) ->
  (forall c x, c ∈ cols -> x ∈ series c d -> is_str x = false) ->
  fold_columns (underperformingStudent.standardise_column round1) cols
    (percent_frame round1 done d)
  = (None, percent_frame round1 (done ++ cols) d).
Proof.
  revert done. induction cols as [|c cols IH]; intros done Hnd Hdone Hcount Hstr.
  - simpl. by rewrite app_nil_r.
  - apply NoDup_cons in Hnd as [Hc Hnd]. simpl.
    rewrite standardise_column_percent;
      [|apply Hdone; by left|apply Hcount; by left
       |intros x; apply Hstr; by left].
    rewrite (IH (done ++ [c])%list); [by rewrite <- app_assoc|done| | |].
    + intros c' Hc'. rewrite elem_of_app, list_elem_of_singleton.
      intros [Hin | ->]; [|done]. by apply (Hdone c'); [right|].
    + intros c' Hc'. apply Hcount. by right.
    + intros c' x Hc'. apply Hstr. by right.
Qed.

Lemma NoDup_filter_count (sel : string -> bool) (cols : list string) :
  (forall c, c ∈ cols -> sel c = true ->
             count_occ string_dec cols c = 1%nat) ->
  NoDup (List.filter sel cols).
Proof.
  induction cols as [|c cols IH]; intros H; simpl; [constructor|].
  assert (forall c', c' ∈ cols -> sel c' = true ->
                     count_occ string_dec cols c' = 1%nat /\ c' <> c) as Hrest.
  { intros c' Hc' Hsel.
    assert (c' ∈ c :: cols) as Hin by (by right).
    specialize (H c' Hin Hsel). simpl in H. destruct (string_dec c c') as [->|Hne].
    - injection H as H. apply count_occ_zero_iff in H. done.
    - split; [done|congruence]. }
  destruct (sel c) eqn:Hc.
  - constructor.
    + intros [Hin _]%elem_of_filter_bool.
      destruct (Hrest c Hin Hc) as [_ ?]. done.
    + apply IH. intros c' Hc' Hsel. by apply Hrest.
  - apply IH. intros c' Hc' Hsel. by apply Hrest.
Qed.

End Percent.

(** X13. The rounding to one decimal being monotone and leaving 100 as it
    is: on a frame in which no label that holds "Grade" is repeated and no
    grade column holds a string, [standardise_grades] works in place and
    returns the frame it was given.  In a grade column whose greatest value
    is strictly positive a null stays a null and a number becomes a number
    that does not exceed 100, the greatest value becoming 100, which is the
    greatest value of the column afterwards; the order of the grades is kept.
    The other columns are as they were. *)
Theorem standardise_grades_percent (round1 : Qc -> Qc) (h : list DataFrame)
  (df : nat) (d : DataFrame) :
  rounds_to_one_decimal round1 ->
  h !! df = Some d ->
  (forall c, c ∈ columns d -> PyStr.contains "Grade" c = true ->
             count_occ string_dec (columns d) c = 1%nat) ->
  (forall c x, c ∈ columns d -> PyStr.contains "Grade" c = true ->
               x ∈ series c d -> is_str x = false) ->
  exists out,
    underperformingStudent.standardise_grades round1 df h
    = (Ok df, <[df := out]> h) /\
    columns out = columns d /\
    (forall c m,
        c ∈ columns d -> PyStr.contains "Grade" c = true ->
        series_max (series c d) = CNum m -> (0 < m)%Qc ->
        Forall2 (percent_of m) (series c d) (series c out) /\
        series_max (series c out) = CNum (Qc_of_Z 100) /\
        (forall i j a a' b b',
            series c d !! i = Some (CNum a) ->
            series c d !! j = Some (CNum a') ->
            series c out !! i = Some (CNum b) ->
            series c out !! j = Some (CNum b') ->
            (a <= a')%Qc -> (b <= b')%Qc)) /\
    (forall c, PyStr.contains "Grade" c = false -> series c out = series c d).
Proof.
  intros Hround Hdf Hcount Hstr.
  set (sel := PyStr.contains "Grade") in *.
  exists (percent_frame round1 (List.filter sel (columns d)) d).
  split; [|split; [done|split]].
  - unfold underperformingStudent.standardise_grades. fold sel.
    rewrite (for_each_selected_run sel
               (underperformingStudent.standardise_column round1) _ _ _ Hdf).
    rewrite <- (percent_frame_nil round1 d) at 2 4.
    rewrite fold_columns_percent; [done| | | |].
    + by apply NoDup_filter_count.
    + intros c _. apply not_elem_of_nil.
    + intros c [Hc Hsel]%elem_of_filter_bool. by apply Hcount.
    + intros c x [Hc Hsel]%elem_of_filter_bool. by apply Hstr.
  - intros c m Hc Hsel Hmax Hm.
    assert (series c (percent_frame round1 (List.filter sel (columns d)) d)
            = map (to_percent round1 (CNum m)) (series c d)) as Hseries.
    { rewrite series_percent_frame. apply map_ext. intros x.
      rewrite bool_decide_eq_true_2 by (by apply elem_of_filter_bool).
      by rewrite Hmax. }
    rewrite Hseries. split; [by apply to_percent_of|].
    split; [by apply series_max_to_percent|].
    intros i j a a' b b'. by apply to_percent_order.
  - intros c Hsel. rewrite series_percent_frame.
    rewrite <- (map_id (series c d)) at 2. apply map_ext. intros x.
    rewrite bool_decide_eq_false_2; [done|].
    rewrite elem_of_filter_bool. intros [_ ?]. congruence.
Qed.

(** The frame of the unit test, to which a test out of 40 is added. *)
Lemma standardise_grades_percent_witness :
  rounds_to_one_decimal round1_exact /\
  exists out,
    underperformingStudent.standardise_grades round1_exact 0
      [ {| columns := ["Grade_Test1"; "Grade_Test2"];
           rows := [[num 80; num 10]; [num 90; num 40]; [num 100; CNull]] |} ]
    = (Ok 0%nat, [out]) /\
    series_max (series "Grade_Test2" out) = CNum (Qc_of_Z 100).
Proof.
  split; [exact round1_exact_ok|].
  destruct (standardise_grades_percent round1_exact
              [ {| columns := ["Grade_Test1"; "Grade_Test2"];
                   rows := [[num 80; num 10]; [num 90; num 40];
                            [num 100; CNull]] |} ]
              0 _ round1_exact_ok eq_refl) as (out & Hrun & _ & Hmax & _).
  - intros c Hc _.
    repeat (apply elem_of_cons in Hc as [->|Hc]; [reflexivity|]).
    by apply elem_of_nil in Hc.
  - intros c x Hc _ Hx.
    repeat (apply elem_of_cons in Hc as [->|Hc];
            [repeat (apply elem_of_cons in Hx as [->|Hx]; [reflexivity|]);
             by apply elem_of_nil in Hx|]).
    by apply elem_of_nil in Hc.
  - exists out. split; [exact Hrun|].
    refine (proj1 (proj2 (Hmax "Grade_Test2" (Qc_of_Z 40) _ eq_refl _ _))).
    + decide_by_computation.
    + decide_by_computation.
    + reflexivity.
Defined.

(** The frame of the unit test: 80, 90 and 100 of a greatest 100. *)
Lemma standardise_grades_test :
  underperformingStudent.standardise_grades round1_exact 0
    [ {| columns := ["Grade_Test1"];
         rows := [[num 80]; [num 90]; [num 100]] |} ]
  = (Ok 0%nat,
     [ {| columns := ["Grade_Test1"];
          rows := [[num 80]; [num 90]; [num 100]] |} ]).
Proof. decide_by_computation. Qed.

(** * [studentPerformance] *)

(** ** [get_max_grade] *)

Lemma Qc_max_ge_l (a b : Qc) : (a <= Qc_max a b)%Qc.
Proof.
  unfold Qc_max. destruct (Qc_ltb a b) eqn:E.
  - apply Qc_ltb_lt in E. by apply Qclt_le_weak.
  - apply Qcle_refl.
Qed.

Lemma Qc_max_ge_r (a b : Qc) : (b <= Qc_max a b)%Qc.
Proof.
  unfold Qc_max. destruct (Qc_ltb a b) eqn:E.
  - apply Qcle_refl.
  - by apply Qc_ltb_ge in E.
Qed.

Lemma foldr_Qc_max_ge (x : Qc) (xs : list Qc) (v : Qc) :
  v ∈ x :: xs -> (v <= foldr Qc_max x xs)%Qc.
Proof.
  induction xs as [|y xs IH]; simpl.
  - intros ->%list_elem_of_singleton. apply Qcle_refl.
  - rewrite elem_of_cons, elem_of_cons. intros [->|[->|Hv]].
    + eapply Qcle_trans; [apply IH; by left|apply Qc_max_ge_r].
    + apply Qc_max_ge_l.
    + eapply Qcle_trans; [apply IH; by right|apply Qc_max_ge_r].
Qed.

Lemma foldr_Qc_max_elem (x : Qc) (xs : list Qc) :
  foldr Qc_max x xs ∈ x :: xs.
Proof.
  induction xs as [|y xs IH]; simpl; [by left|].
  unfold Qc_max at 1. destruct (Qc_ltb y (foldr Qc_max x xs)).
  - apply elem_of_cons in IH as [->|IH]; [by left|by right; right].
  - right. by left.
Qed.

Lemma elem_of_omap_id (l : list (option Qc)) (v : Qc) :
  v ∈ omap id l <-> Some v ∈ l.
Proof.
  rewrite list_elem_of_omap. split.
  - intros (x & Hx & Heq). simpl in Heq. by subst.
  - intros H. by exists (Some v).
Qed.

(** [MAX] is attained, and no value that is not NULL is greater. *)
Lemma sql_max_spec (l : list (option Qc)) (m : Qc) :
  sql_max l = Some m <->
  Some m ∈ l /\ (forall v, Some v ∈ l -> (v <= m)%Qc).
Proof.
  unfold sql_max. destruct (omap id l) as [|x xs] eqn:E.
  - split; [done|]. intros [Hm _]. apply elem_of_omap_id in Hm.
    rewrite E in Hm. by apply elem_of_nil in Hm.
  - split.
    + intros [= <-]. split.
      * apply elem_of_omap_id. rewrite E. apply foldr_Qc_max_elem.
      * intros v Hv%elem_of_omap_id. rewrite E in Hv.
        by apply foldr_Qc_max_ge.
    + intros [Hm Hle]. f_equal. apply Qcle_antisym.
      * apply Hle, elem_of_omap_id. rewrite E. apply foldr_Qc_max_elem.
      * apply foldr_Qc_max_ge. rewrite <- E. by apply elem_of_omap_id.
Qed.

Lemma sql_max_none (l : list (option Qc)) :
  sql_max l = None <-> (forall x, x ∈ l -> x = None).
Proof.
  unfold sql_max. destruct (omap id l) as [|x xs] eqn:E.
  - split; [|done]. intros _ [v|] Hv; [|done].
    apply elem_of_omap_id in Hv. rewrite E in Hv. by apply elem_of_nil in Hv.
  - split; [done|]. intros H.
    assert (Some x ∈ l) as Hx by (apply elem_of_omap_id; rewrite E; by left).
    by apply H in Hx.
Qed.

(** X14. When the table has the column, [get_max_grade] returns the greatest
    of its values that are not NULL, a value of the column which none
    exceeds, and [None] exactly when the column holds nothing but NULLs (no
    row at all included). *)
Theorem get_max_grade_greatest (table_name q_column : string)
  (connection : list (string * SqlTable)) (values : list (option Qc)) :
  select_column q_column table_name connection = Some values ->
  exists max_grade,
    studentPerformance.get_max_grade table_name q_column connection
    = Ok max_grade /\
    (max_grade = None <-> forall x, x ∈ values -> x = None) /\
    (forall m, max_grade = Some m ->
       Some m ∈ values /\ forall v, Some v ∈ values -> (v <= m)%Qc).
Proof.
  intros Hcol. exists (sql_max values).
  unfold studentPerformance.get_max_grade. rewrite Hcol.
  split; [done|]. split; [apply sql_max_none|].
  intros m Hm. by apply sql_max_spec.
Qed.

(** The table of the unit test, where Q1 is 80, 90 and 75. *)
Lemma get_max_grade_greatest_witness :
  exists max_grade,
    studentPerformance.get_max_grade "TestTable1" "Q1"
      [("TestTable1", TestTable1)] = Ok max_grade /\
    (forall m, max_grade = Some m ->
       forall v, Some v ∈ [sql 80; sql 90; sql 75] -> (v <= m)%Qc).
Proof.
  destruct (get_max_grade_greatest "TestTable1" "Q1" [("TestTable1", TestTable1)]
              [sql 80; sql 90; sql 75] eq_refl) as (m & Hrun & _ & Hm).
  exists m. split; [exact Hrun|]. intros m' Hm'. exact (proj2 (Hm m' Hm')).
Defined.

(** ** [retrieve_and_standardise_q_column_data] *)

Lemma select_pairs_column (a b name : string) (db : list (string * SqlTable))
  (t : list (option Qc * option Qc)) :
  select_pairs a b name db = Some t ->
  select_column b name db = Some (map snd t).
Proof.
  unfold select_pairs, select_column.
  destruct (find_table name db) as [tbl|]; [|done].
  destruct (column_index a (table_columns tbl)) as [i|]; [|done].
  destruct (column_index b (table_columns tbl)) as [j|]; [|done].
  intros [= <-]. by rewrite map_map.
Qed.

Lemma filter_first_inv {A} (p : A -> bool) (l : list A) (x : A) (rest : list A) :
  List.filter p l = x :: rest ->
  exists before after,
    l = (before ++ x :: after)%list /\ p x = true /\
    (forall y, y ∈ before -> p y = false).
Proof.
  induction l as [|y l IH]; simpl; [done|].
  destruct (p y) eqn:E.
  - intros [= -> <-]. exists [], l. split; [done|]. split; [done|].
    by intros z ?%elem_of_nil.
  - intros (before & after & -> & Hx & Hbefore)%IH.
    exists (y :: before), after. split; [done|]. split; [done|].
    intros z [->|Hz]%elem_of_cons; [done|by apply Hbefore].
Qed.

Lemma get_column_grade_and_average_found (research_id : option Qc)
  (table_name q_column : string) (connection : list (string * SqlTable))
  (t : list (option Qc * option Qc)) (v : Qc) :
  select_pairs "ResearchId" q_column table_name connection = Some t ->
  first_record research_id t v ->
  exists mean,
    get_column_grade_and_average research_id table_name q_column connection
    = Ok (Some v, Some mean) /\
    sql_avg (map snd t) = Some mean.
Proof.
  intros Ht (before & rid & after & -> & Hrid & Hbefore).
  unfold get_column_grade_and_average. rewrite Ht.
  rewrite (filter_first _ before after (rid, Some v));
    [|intros [rid' v'] Hp; by apply (Hbefore (rid', v'))|done].
  simpl.
  destruct (sql_avg_some (map snd (before ++ (rid, Some v) :: after)) v)
    as [mean Hmean].
  { rewrite map_app. apply elem_of_app. right. simpl. by left. }
  exists mean. by rewrite Hmean.
Qed.

Lemma scale_pos (x m : Qc) :
  (0 < m)%Qc ->
  studentPerformance.scale x m = PyFloat (x / m * Qc_of_Z 100).
Proof.
  intros Hm. unfold studentPerformance.scale.
  rewrite bool_decide_eq_false_2; [done|].
  intros ->. by apply Qclt_not_eq in Hm.
Qed.

(** X15. When the first record of the student holds a number and the
    greatest value of the column is strictly positive,
    [retrieve_and_standardise_q_column_data] returns the grade and the mean
    of the column, each divided by the greatest value and multiplied by 100;
    the grade so standardised does not exceed 100, and is 100 when the
    student holds the greatest value.  The table is read from the connection
    of the object; the connection passed to the method is not used. *)
Theorem retrieve_and_standardise_bounds
  (self_conn connection : list (string * SqlTable)) (research_id : option Qc)
  (table_name q_column : string) (t : list (option Qc * option Qc))
  (v m : Qc) :
  select_pairs "ResearchId" q_column table_name self_conn = Some t ->
  first_record research_id t v ->
  Some m ∈ map snd t ->
  (forall v', Some v' ∈ map snd t -> (v' <= m)%Qc) ->
  (0 < m)%Qc ->
  exists grade average mean,
    studentPerformance.retrieve_and_standardise_q_column_data
      self_conn research_id table_name q_column connection
    = (PyFloat grade, PyFloat average) /\
    grade = (v / m * Qc_of_Z 100)%Qc /\
    sql_avg (map snd t) = Some mean /\
    average = (mean / m * Qc_of_Z 100)%Qc /\
    (grade <= Qc_of_Z 100)%Qc /\
    (v = m -> grade = Qc_of_Z 100).
Proof.
  intros Ht Hfirst Hm Hle Hpos.
  destruct (get_column_grade_and_average_found _ _ _ _ _ _ Ht Hfirst)
    as (mean & Hcall & Hmean).
  exists (v / m * Qc_of_Z 100)%Qc, (mean / m * Qc_of_Z 100)%Qc, mean.
  split; [|split; [done|split; [done|split; [done|split]]]].
  - unfold studentPerformance.retrieve_and_standardise_q_column_data,
      studentPerformance.get_max_grade.
    rewrite (select_pairs_column _ _ _ _ _ Ht), Hcall.
    assert (sql_max (map snd t) = Some m) as -> by (by apply sql_max_spec).
    simpl. by rewrite !scale_pos.
  - apply scale_le_100; [done|]. apply Hle.
    destruct Hfirst as (before & rid & after & -> & _).
    rewrite map_app. apply elem_of_app. right. by left.
  - intros ->. by apply scale_max.
Qed.

(** Student 1 on the table of the unit test: 80 of a greatest 90. *)
Lemma retrieve_and_standardise_bounds_witness :
  exists grade average,
    studentPerformance.retrieve_and_standardise_q_column_data
      [("TestTable1", TestTable1)] (sql 1) "TestTable1" "Q1" []
    = (PyFloat grade, PyFloat average) /\
    (grade <= Qc_of_Z 100)%Qc.
Proof.
  destruct (retrieve_and_standardise_bounds [("TestTable1", TestTable1)] []
              (sql 1) "TestTable1" "Q1"
              [(sql 1, sql 80); (sql 2, sql 90); (sql 3, sql 75)]
              (Qc_of_Z 80) (Qc_of_Z 90) eq_refl)
    as (grade & average & mean & Hrun & _ & _ & _ & Hg & _).
  - exists [], (sql 1), [(sql 2, sql 90); (sql 3, sql 75)].
    split; [reflexivity|]. split; [reflexivity|]. by intros p ?%elem_of_nil.
  - right. by left.
  - intros v' Hv'.
    repeat (apply elem_of_cons in Hv' as [[= ->]|Hv']; [done|]).
    by apply elem_of_nil in Hv'.
  - done.
  - exists grade, average. split; [exact Hrun|exact Hg].
Defined.

(** X16. [retrieve_and_standardise_q_column_data] never raises.  It returns
    the pair of [None] exactly when the first record of the student does not
    hold a number: the table or one of the two columns is missing, no record
    has the id, or the record holds NULL, in which case the [TypeError] of
    [get_column_grade_and_average] is caught. *)
Theorem retrieve_and_standardise_none
  (self_conn connection : list (string * SqlTable)) (research_id : option Qc)
  (table_name q_column : string) :
  studentPerformance.retrieve_and_standardise_q_column_data
    self_conn research_id table_name q_column connection = (PyNone, PyNone)
  <->
  ~ exists t v,
      select_pairs "ResearchId" q_column table_name self_conn = Some t /\
      first_record research_id t v.
Proof.
  unfold studentPerformance.retrieve_and_standardise_q_column_data,
    studentPerformance.get_max_grade.
  split.
  - intros Hnone (t & v & Ht & Hfirst).
    destruct (get_column_grade_and_average_found _ _ _ _ _ _ Ht Hfirst)
      as (mean & Hcall & Hmean).
    rewrite (select_pairs_column _ _ _ _ _ Ht), Hcall in Hnone.
    destruct (sql_max (map snd t)) as [m|] eqn:Hmax.
    + simpl in Hnone. unfold studentPerformance.scale in Hnone.
      by destruct (bool_decide (m = 0%Qc)).
    + apply sql_max_none with (x := Some v) in Hmax; [done|].
      destruct Hfirst as (before & rid & after & -> & _).
      rewrite map_app. apply elem_of_app. right. by left.
  - intros Hnot.
    destruct (select_column q_column table_name self_conn) as [values|]; [|done].
    unfold get_column_grade_and_average.
    destruct (select_pairs "ResearchId" q_column table_name self_conn)
      as [t|] eqn:Ht; [|done].
    destruct (List.filter _ t) as [|[rid [v|]] rest] eqn:Hfilter; [done| |done].
    destruct Hnot. exists t, v. split; [done|].
    apply filter_first_inv in Hfilter as (before & after & -> & Hrid & Hbefore).
    exists before, rid, after. split; [done|]. split; [done|].
    intros [rid' v'] Hp. by apply (Hbefore (rid', v')).
Qed.

(** * [hardworkingStudents] *)

Lemma hardworking_reflect (cols : list string) (r : list cell) :
  isin ["Below Beginner"; "Beginner"] (get_cell "Ratings" cols r)
  && gt_scalar (Qc_of_Z 60) (get_cell "Grade_SumTest" cols r) = true
  <-> hardworking cols r.
Proof.
  unfold hardworking. rewrite andb_true_iff. split.
  - intros [Hr Hg].
    destruct (get_cell "Ratings" cols r) as [|q|rating]; try done.
    destruct (get_cell "Grade_SumTest" cols r) as [|grade|s]; try done.
    exists rating, grade. split; [done|]. split; [|split; [done|]].
    + by apply bool_decide_eq_true_1 in Hr.
    + by apply Qc_ltb_lt.
  - intros (rating & grade & -> & Hr & -> & Hg). simpl. split.
    + by apply bool_decide_eq_true_2.
    + by apply Qc_ltb_lt.
Qed.

Global Instance hardworking_dec (cols : list string) (r : list cell) :
  Decision (hardworking cols r).
Proof.
  destruct (isin ["Below Beginner"; "Beginner"] (get_cell "Ratings" cols r)
            && gt_scalar (Qc_of_Z 60) (get_cell "Grade_SumTest" cols r)) eqn:E.
  - left. by apply hardworking_reflect.
  - right. intros H%hardworking_reflect. congruence.
Defined.

(** X17. On a frame in which "Ratings" and "Grade_SumTest" each name one
    column, the second without a string, [generate_hardworking_students_list]
    returns a new frame of the two columns "Grade_SumTest" and "Ratings".
    Its rows are those of the beginners whose grade exceeds 60, each as often
    as the input has it and no other row, and the grades descend. *)
Theorem generate_hardworking_students_list_selects
  (kind : tie_order (list cell)) (h : list DataFrame) (df : nat)
  (d : DataFrame) :
  h !! df = Some d ->
  count_occ string_dec (columns d) "Ratings" = 1%nat ->
  count_occ string_dec (columns d) "Grade_SumTest" = 1%nat ->
  (forall x, x ∈ series "Grade_SumTest" d -> is_str x = false) ->
  exists out,
    hardworkingStudents.generate_hardworking_students_list kind df h
    = (Ok (List.length h), (h ++ [out])%list) /\
    columns out = ["Grade_SumTest"; "Ratings"] /\
    rows out ≡ₚ
      map (fun r => [get_cell "Grade_SumTest" (columns d) r;
                     get_cell "Ratings" (columns d) r])
          (filter (hardworking (columns d)) (rows d)) /\
    (forall r, r ∈ rows out ->
       exists grade rating,
         r = [CNum grade; CStr rating] /\ (Qc_of_Z 60 < grade)%Qc /\
         rating ∈ ["Below Beginner"; "Beginner"]) /\
    (forall i j a b ra rb,
        (i <= j)%nat ->
        rows out !! i = Some [CNum a; ra] -> rows out !! j = Some [CNum b; rb] ->
        (b <= a)%Qc).
Proof.
  intros Hdf Hratings Hgrades Hstr.
  set (cols := columns d).
  set (g := get_cell "Grade_SumTest" cols).
  set (proj := fun r : list cell => [g r; get_cell "Ratings" cols r]).
  set (passing := filter (hardworking cols) (rows d)).
  exists {| columns := ["Grade_SumTest"; "Ratings"];
            rows := map proj (sort_desc g kind passing) |}.
  assert (forall r, r ∈ sort_desc g kind passing -> hardworking cols r) as Hpass.
  { intros r Hr%sort_desc_elem. unfold passing in Hr.
    by apply list_elem_of_filter in Hr as [? _]. }
  split; [|split; [done|split; [|split]]].
  - unfold hardworkingStudents.generate_hardworking_students_list.
    erewrite bind_ok by (by apply load_run).
    rewrite Hratings, Hgrades.
    assert (existsb is_str (series "Grade_SumTest" d) = false) as ->.
    { apply not_true_is_false. intros (x & Hx & Hs)%existsb_exists.
      rewrite Hstr in Hs; [done|by apply list_elem_of_In]. }
    unfold series. rewrite !map_map.
    rewrite (zip_with_map_map andb
               (fun r => isin ["Below Beginner"; "Beginner"]
                           (get_cell "Ratings" (columns d) r))
               (fun r => gt_scalar (Qc_of_Z 60)
                           (get_cell "Grade_SumTest" (columns d) r))).
    rewrite (select_mask_filter _ (hardworking (columns d)))
      by (intros r; apply hardworking_reflect).
    unfold sort_values_desc. cbn [columns rows]. rewrite Hgrades.
    assert (mixed (series "Grade_SumTest"
                     {| columns := columns d;
                        rows := filter (hardworking (columns d)) (rows d) |})
            = false) as ->.
    { apply not_mixed_without_strings. unfold series. simpl.
      intros x Hx%list_elem_of_In. apply in_map_iff in Hx as (r & <- & Hr).
      apply list_elem_of_In, list_elem_of_filter in Hr as [_ Hr].
      apply Hstr. unfold series.
      apply list_elem_of_In, in_map. by apply list_elem_of_In. }
    reflexivity.
  - simpl. by rewrite sort_desc_perm.
  - simpl. intros r Hr%list_elem_of_In.
    apply in_map_iff in Hr as (r0 & <- & Hr0%list_elem_of_In).
    destruct (Hpass r0 Hr0) as (rating & grade & Hrating & Hin & Hgrade & Hgt).
    exists grade, rating. unfold proj, g. by rewrite Hrating, Hgrade.
  - simpl. intros i j a b ra rb Hij Hi Hj.
    change (map proj ?l) with (proj <$> l) in Hi, Hj.
    rewrite list_lookup_fmap in Hi, Hj.
    destruct (sort_desc g kind passing !! i) as [ri|] eqn:Eri; [|done].
    destruct (sort_desc g kind passing !! j) as [rj|] eqn:Erj; [|done].
    injection Hi as Hgi _. injection Hj as Hgj _.
    destruct (decide (i = j)) as [->|Hne].
    + rewrite Eri in Erj. injection Erj as ->. rewrite Hgi in Hgj.
      injection Hgj as ->. apply Qcle_refl.
    + pose proof (sort_desc_descending g kind passing) as Hsorted.
      unfold descending in Hsorted.
      pose proof (StronglySorted_lookup_lt
                    (fun a b => cell_ge (g a) (g b)) _ i j ri rj Hsorted
                    ltac:(lia) Eri Erj) as Hge.
      cbv beta in Hge. rewrite Hgi, Hgj in Hge. by apply cell_ge_num.
Qed.

(** The frame of the unit test: the beginners graded 80 and 65 are listed,
    the expert is not. *)
Lemma generate_hardworking_students_list_selects_witness :
  exists out,
    hardworkingStudents.generate_hardworking_students_list stable 0
      [ {| columns := ["Ratings"; "Grade_SumTest"];
           rows := [[CStr "Beginner"; num 65]; [CStr "Expert"; num 50];
                    [CStr "Beginner"; num 80]] |} ]
    = (Ok 1%nat,
       [ {| columns := ["Ratings"; "Grade_SumTest"];
            rows := [[CStr "Beginner"; num 65]; [CStr "Expert"; num 50];
                     [CStr "Beginner"; num 80]] |}; out ]) /\
    columns out = ["Grade_SumTest"; "Ratings"].
Proof.
  destruct (generate_hardworking_students_list_selects stable
              [ {| columns := ["Ratings"; "Grade_SumTest"];
                   rows := [[CStr "Beginner"; num 65]; [CStr "Expert"; num 50];
                            [CStr "Beginner"; num 80]] |} ]
              0 _ eq_refl eq_refl eq_refl) as (out & Hrun & Hcols & _).
  - intros x Hx.
    repeat (apply elem_of_cons in Hx as [->|Hx]; [reflexivity|]).
    by apply elem_of_nil in Hx.
  - exists out. split; [exact Hrun|exact Hcols].
Defined.

(** The list of the unit test, in which no two grades tie. *)
Lemma generate_hardworking_students_list_test (kind : tie_order (list cell)) :
  hardworkingStudents.generate_hardworking_students_list kind 0
    [ {| columns := ["Ratings"; "Grade_SumTest"];
         rows := [[CStr "Beginner"; num 65]; [CStr "Expert"; num 50];
                  [CStr "Beginner"; num 80]] |} ]
  = (Ok 1%nat,
     [ {| columns := ["Ratings"; "Grade_SumTest"];
          rows := [[CStr "Beginner"; num 65]; [CStr "Expert"; num 50];
                   [CStr "Beginner"; num 80]] |};
       {| columns := ["Grade_SumTest"; "Ratings"];
          rows := [[num 80; CStr "Beginner"]; [num 65; CStr "Beginner"]] |} ]).
Proof. vm_compute. reflexivity. Qed.

(** * The consolidated frame, whatever the tables hold *)

Lemma left_join_elem (acc : list (option Qc * list (option Qc)))
  (t : list (option Qc * option Qc)) (rid : option Qc) (cells : list (option Qc)) :
  (rid, cells) ∈ left_join acc t <->
  exists gs g, (rid, gs) ∈ acc /\ cells = (gs ++ [g])%list /\
    match List.filter (fun '(tid, _) => sql_eq rid tid) t with
    | [] => g = None
    | matches => g ∈ map snd matches
    end.
Proof.
  unfold left_join. rewrite list_elem_of_In, in_flat_map. split.
  - intros ([rid' gs] & Hacc%list_elem_of_In & Hin).
    destruct (List.filter _ t) as [|m ms] eqn:E.
    + destruct Hin as [[= <- <-]|[]]. exists gs, None. by rewrite E.
    + apply in_map_iff in Hin as ([tid g] & [= <- <-] & Hg).
      exists gs, g. rewrite E. split; [done|]. split; [done|].
      apply list_elem_of_In, in_map_iff. by exists (tid, g).
  - intros (gs & g & Hacc & -> & Hg). exists (rid, gs).
    split; [by apply list_elem_of_In|].
    destruct (List.filter _ t) as [|m ms] eqn:E.
    + subst g. by left.
    + apply list_elem_of_In, in_map_iff in Hg as ([tid g'] & <- & Hin).
      apply in_map_iff. by exists (tid, g').
Qed.

Lemma left_join_ids (acc : list (option Qc * list (option Qc)))
  (t : list (option Qc * option Qc)) (rid : option Qc) :
  rid ∈ map fst (left_join acc t) <-> rid ∈ map fst acc.
Proof.
  rewrite !list_elem_of_In, !in_map_iff. split.
  - intros ([rid' cells] & <- & Hin%list_elem_of_In).
    apply left_join_elem in Hin as (gs & g & Hacc & _).
    exists (rid', gs). split; [done|by apply list_elem_of_In].
  - intros ([rid' gs] & <- & Hacc%list_elem_of_In). simpl.
    destruct (List.filter (fun '(tid, _) => sql_eq rid' tid) t)
      as [|[tid g] ms] eqn:E.
    + exists (rid', (gs ++ [None])%list). split; [done|].
      apply list_elem_of_In, left_join_elem. exists gs, None. by rewrite E.
    + exists (rid', (gs ++ [g])%list). split; [done|].
      apply list_elem_of_In, left_join_elem. exists gs, g. rewrite E.
      split; [done|]. split; [done|]. by left.
Qed.

Lemma foldl_left_join_ids (ts : list (list (option Qc * option Qc)))
  (acc : list (option Qc * list (option Qc))) (rid : option Qc) :
  rid ∈ map fst (foldl left_join acc ts) <-> rid ∈ map fst acc.
Proof.
  revert acc. induction ts as [|t ts IH]; intros acc; simpl; [done|].
  by rewrite IH, left_join_ids.
Qed.

Lemma foldl_left_join_length (ts : list (list (option Qc * option Qc)))
  (acc : list (option Qc * list (option Qc))) (n : nat) :
  (forall p, p ∈ acc -> List.length p.2 = n) ->
  forall p, p ∈ foldl left_join acc ts ->
            List.length p.2 = (n + List.length ts)%nat.
Proof.
  revert acc n. induction ts as [|t ts IH]; intros acc n Hacc p Hp; simpl in *.
  - rewrite Nat.add_0_r. by apply Hacc.
  - rewrite <- Nat.add_succ_comm. apply (IH (left_join acc t)); [|done].
    intros [rid cells] (gs & g & Hin & -> & _)%left_join_elem. simpl.
    rewrite length_app, Nat.add_1_r. f_equal. by apply (Hacc (rid, gs)).
Qed.

Lemma select_all_None (names : list string) (db : list (string * SqlTable)) :
  select_all names db = None ->
  exists name, name ∈ names /\ select_pairs "ResearchId" "Grade" name db = None.
Proof.
  induction names as [|n names IH]; simpl; [done|].
  destruct (select_pairs "ResearchId" "Grade" n db) as [t|] eqn:Et.
  - destruct (select_all names db) as [ts|]; [done|]. intros _.
    destruct IH as (name & Hin & Hnone); [done|]. exists name. split; [by right|done].
  - intros _. exists n. split; [by left|done].
Qed.

(** X18. [create_dataframe] raises pandas' [DatabaseError] exactly when one
    of the six test tables, or its ResearchId or Grade column, is missing.
    Otherwise the frame is indexed by "ResearchId", has the six columns
    "Grade_Test1" to "Grade_Sumtest", six cells in every row, and as ids those
    that occur in the six tables, whatever the tables hold. *)
Theorem create_dataframe_shape (db : list (string * SqlTable)) :
  match create_dataframe db with
  | Ok out =>
      (forall name, name ∈ test_tables ->
         is_Some (select_pairs "ResearchId" "Grade" name db)) /\
      index_name out = "ResearchId" /\
      value_columns out
      = ["Grade_Test1"; "Grade_Test2"; "Grade_Test3"; "Grade_Test4";
         "Grade_Mocktest"; "Grade_Sumtest"] /\
      (forall rid cells, (rid, cells) ∈ entries out -> List.length cells = 6%nat) /\
      (forall rid,
          rid ∈ map fst (entries out) <->
          exists name t, name ∈ test_tables /\
                         select_pairs "ResearchId" "Grade" name db = Some t /\
                         rid ∈ map fst t)
  | Error e =>
      e = DatabaseError /\
      exists name, name ∈ test_tables /\
                   select_pairs "ResearchId" "Grade" name db = None
  end.
Proof.
  unfold create_dataframe.
  destruct (select_all test_tables db) as [ts|] eqn:Hsel.
  - apply select_all_Forall2 in Hsel.
    split; [|split; [done|split; [done|split]]].
    + intros name Hname. apply list_elem_of_lookup in Hname as [i Hi].
      destruct (Forall2_lookup_l _ _ _ _ _ Hsel Hi) as (t & _ & ->). by eexists.
    + simpl. intros rid cells Hin.
      pose proof (Forall2_length _ _ _ Hsel) as Hlen.
      change 6%nat with (0 + List.length test_tables)%nat. rewrite Hlen.
      refine (foldl_left_join_length ts _ 0 _ (rid, cells) Hin).
      intros p Hp%list_elem_of_In. by apply in_map_iff in Hp as (x & <- & _).
    + simpl. intros rid. rewrite foldl_left_join_ids, map_map. simpl.
      rewrite map_id. unfold sql_distinct.
      rewrite <- (map_id (keep_first id [] _)), keep_first_keys, map_id.
      rewrite (list_elem_of_In (concat _)), in_concat. split.
      * intros [_ (ids & Hids & Hrid)].
        apply in_map_iff in Hids as (t & <- & Ht%list_elem_of_In).
        apply list_elem_of_lookup in Ht as [i Hi].
        destruct (Forall2_lookup_r _ _ _ _ _ Hsel Hi) as (name & Hname & Hsome).
        exists name, t. split; [by eapply list_elem_of_lookup_2|].
        split; [done|by apply list_elem_of_In].
      * intros (name & t & Hname & Hsome & Hrid). split; [apply not_elem_of_nil|].
        exists (map fst t). split; [|by apply list_elem_of_In].
        apply in_map. apply list_elem_of_lookup in Hname as [i Hi].
        destruct (Forall2_lookup_l _ _ _ _ _ Hsel Hi) as (t' & Ht' & Hsome').
        rewrite Hsome in Hsome'. injection Hsome' as <-.
        by eapply list_elem_of_In, list_elem_of_lookup_2.
  - split; [done|]. by apply select_all_None.
Qed.

(** * More on the cleaning pipeline *)

(** ** [drop_duplicate_research_ids] works in place *)



(** The frame above: the row graded 90 has come first. *)
Lemma drop_duplicate_research_ids_sample (kind : tie_order (list cell)) :
  drop_duplicate_research_ids kind 0
    [ {| columns := ["Student"; "Grade"];
         rows := [[num 1; num 70]; [num 2; num 90]] |} ]
  = (Error KeyError,
     [ {| columns := ["Student"; "Grade"];
          rows := [[num 2; num 90]; [num 1; num 70]] |} ]).
Proof. vm_compute. reflexivity. Qed.

(** ** When [process_dataframe] succeeds *)

Section ProcessSucceeds.
Variable parse_number : string -> option Qc.
Variable kind : tie_order (list cell).


End ProcessSucceeds.


(** ** The cells of the frame [process_dataframe] returns *)

(** X21. In the frame [process_dataframe] returns, every cell of a column
    whose label holds "Grade" or starts with "Q" is a number: no null and no
    text is left in these columns. *)
Theorem process_dataframe_grades_are_numbers
  (parse_number : string -> option Qc) (kind : tie_order (list cell))
  (d out : DataFrame) :
  call (process_dataframe parse_number kind) d = Ok out ->
  forall r j c y,
    r ∈ rows out -> columns out !! j = Some c -> is_grade_q c = true ->
    r !! j = Some y ->
    exists q, y = CNum q.
Proof.
  intros Hout r j c y Hr Hc Hq Hy.
  eapply (process_dataframe_numbers parse_number kind d out r y Hout Hr).
  by eapply cells_where_lookup.
Qed.

Lemma process_dataframe_grades_are_numbers_witness :
  exists out,
    call (process_dataframe parse_integer stable) exported_quiz = Ok out /\
    forall r j c y,
      r ∈ rows out -> columns out !! j = Some c -> is_grade_q c = true ->
      r !! j = Some y -> exists q, y = CNum q.
Proof.
  assert (H : call (process_dataframe parse_integer stable) exported_quiz
              = Ok {| columns := ["ResearchId"; "Grade"; "Q1"];
                      rows := [[num 1; num 40; num 5]; [num 2; CNum 0; CNum 0]] |})
    by (vm_compute; reflexivity).
  eexists. split; [exact H|].
  exact (process_dataframe_grades_are_numbers parse_integer stable exported_quiz _ H).
Defined.

(** ** The attempt [process_dataframe] keeps *)

Lemma cells_labelled_present (label : string) (cols : list string)
  (r : list cell) :
  label ∈ cols -> List.length r = List.length cols ->
  exists x rest, cells_labelled label cols r = x :: rest.
Proof.
  unfold cells_labelled.
  revert r. induction cols as [|c cols IH]; intros r Hin Hlen.
  - by apply elem_of_nil in Hin.
  - destruct r as [|x r]; [done|]. simpl in *.
    destruct (String.eqb label c) eqn:E; [eauto|].
    apply String.eqb_neq in E.
    apply elem_of_cons in Hin as [->|Hin]; [done|].
    apply IH; [done|lia].
Qed.

(** X22. For each ResearchId, [process_dataframe] keeps an attempt with the
    greatest grade, the grades being compared as the coercion leaves them,
    with 0 for a "-", a null or a text that is no number: the Grade of a row
    of the output is the coerced Grade of the input row it comes from, and no
    input row with the same id has a greater one. *)
Theorem process_dataframe_keeps_best (parse_number : string -> option Qc)
  (kind : tie_order (list cell)) (d out : DataFrame) :
  call (process_dataframe parse_number kind) d = Ok out ->
  rectangular d ->
  let cols := map clean_column_name (columns d) in
  let id_in := cells_labelled "ResearchId" cols in
  let grade_in := fun r0 => coerce_cell parse_number (get_cell "Grade" cols r0) in
  forall r, r ∈ rows out ->
    exists r0 q,
      r0 ∈ rows d /\
      r = cells_where (fun c => negb (has_label c ["State"; "TimeTaken"])) cols
            (map_where is_grade_q (coerce_cell parse_number) cols r0) /\
      get_cell "Grade" (columns out) r = CNum q /\
      grade_in r0 = CNum q /\
      (forall r1 q1, r1 ∈ rows d -> id_in r1 = id_in r0 ->
                     grade_in r1 = CNum q1 -> (q1 <= q)%Qc).
Proof.
  rewrite call_process_dataframe. intros (Hgrade & Hid & ->)%process_frame_ok Hrect.
  cbv zeta.
  set (cols := map clean_column_name (columns d)) in *.
  set (id_in := cells_labelled "ResearchId" cols).
  set (coerce := map_where is_grade_q (coerce_cell parse_number) cols).
  set (g := get_cell "Grade" cols).
  set (d2 := {| columns := cols;
                rows := keep_first id_in [] (sort_desc g kind (map coerce (rows d))) |}).
  assert (forall r0, id_in (coerce r0) = id_in r0) as Hkey.
  { intros r0. unfold id_in, coerce. rewrite cells_labelled_map_where.
    rewrite is_grade_q_ResearchId. apply map_id. }
  assert ("Grade" ∈ cols) as Hin.
  { apply list_elem_of_In, (count_occ_In string_dec). rewrite Hgrade. lia. }
  assert (forall r0, r0 ∈ rows d ->
            g (coerce r0) = coerce_cell parse_number (g r0)) as Hg.
  { intros r0 Hr0. unfold g, coerce. rewrite get_cell_map_where, is_grade_q_Grade.
    unfold get_cell.
    destruct (cells_labelled_present "Grade" cols r0 Hin) as (x & rest & ->);
      [|done].
    unfold rectangular in Hrect. rewrite Forall_forall in Hrect.
    rewrite (Hrect r0 Hr0). unfold cols. by rewrite length_map. }
  assert (rectangular d2) as Hrect2.
  { eapply rectangular_subset; [apply kept_row_elem|].
    apply (rectangular_map_rows _ cols (rows d)).
    - intros r. apply map_where_length.
    - unfold rectangular, cols in *. simpl. by rewrite length_map. }
  rewrite drop_columns_frame_without by done. simpl.
  intros r Hr%list_elem_of_In. apply in_map_iff in Hr as (r2 & <- & Hr2).
  apply list_elem_of_In in Hr2.
  destruct (keep_first_any_sort id_in g (sort_desc g kind)
              (fun l x => sort_desc_elem g kind x l)
              (sort_desc_descending g kind)
              (map coerce (rows d)) r2 Hr2) as [Hr2' Hbest].
  apply list_elem_of_In, in_map_iff in Hr2' as (r0 & <- & Hr0%list_elem_of_In).
  destruct (coerce_cell_number parse_number (g r0)) as (q & Hq & _).
  exists r0, q. split; [done|]. split; [done|]. split; [|split; [done|]].
  - unfold get_cell, cells_labelled. rewrite cells_where_cells_where.
    rewrite (cells_where_ext_in _ (String.eqb "Grade")).
    + fold (cells_labelled "Grade" cols (coerce r0)).
      fold (get_cell "Grade" cols (coerce r0)). fold g.
      by rewrite Hg, Hq.
    + intros c _. destruct (String.eqb "Grade" c) eqn:E; [|by rewrite andb_false_r].
      by apply String.eqb_eq in E as <-.
  - intros r1 q1 Hr1 Hid1 Hq1.
    assert (cell_ge (g (coerce r0)) (g (coerce r1))) as Hge.
    { apply Hbest; [|by rewrite !Hkey].
      apply list_elem_of_In, in_map. by apply list_elem_of_In. }
    rewrite !Hg, Hq, Hq1 in Hge by done. by apply cell_ge_num.
Qed.

(** Of the two attempts of student 1 in the sample, without a grade and
    graded 0, both count as 0, and one of them is kept. *)
Lemma process_dataframe_keeps_best_witness :
  exists out,
    call (process_dataframe parse_integer stable) attempts = Ok out /\
    forall r, r ∈ rows out ->
      exists q, get_cell "Grade" (columns out) r = CNum q.
Proof.
  assert (H : call (process_dataframe parse_integer stable) attempts
              = Ok {| columns := ["ResearchId"; "StartedOn"; "Grade"];
                      rows := [[num 1; CStr "Monday"; CNum 0];
                               [num 2; CStr "Wednesday"; CNum 0]] |})
    by (vm_compute; reflexivity).
  eexists. split; [exact H|]. intros r Hr.
  destruct (process_dataframe_keeps_best parse_integer stable attempts _ H
              ltac:(repeat constructor) r Hr) as (r0 & q & _ & _ & Hq & _).
  by exists q.
Defined.
